(** * stars-to-notion: reconciliation, field mapping and batched writes

    A shallow embedding of [index.js] of algers/stars-to-notion, the script
    that mirrors the starred repositories of a GitHub user into a Notion
    database.  Three revisions of the script are under verification:

    - [Legacy]  : src/index.js, lines 1-291 (header "notion-github-sync");
    - [Current] : src/index.js, lines 291-617 (header "stars-to-notion");
    - [Part001] : src/unnamed/part_001.

    JavaScript objects used as dictionaries are finite maps ([gmap]), arrays
    are lists, [null]/[undefined] are [None].  The effectful part of the
    script is a state-and-exception monad over an event trace (network
    requests and console output), the global identity index, a counter of
    write calls and a heap of objects; the remote services are a parameter
    that says what each read returns and which GitHub requests and write
    calls are rejected. *)

From Stdlib Require Import ZArith List Lia.
From stdpp Require Import gmap strings list fin_maps.

#[local] Set Warnings "-clear-no-such-hyp".

Local Open Scope string_scope.
Local Open Scope list_scope.

(* ===================================================================== *)
(** ** JavaScript values                                                  *)
(* ===================================================================== *)

Module Js.

(** [ToBoolean] on a string: only the empty string is falsy. *)
Definition truthy_string (s : string) : bool := bool_decide (s ≠ "").

(** [ToBoolean] on a value that is a string, [null] or [undefined]. *)
Definition truthy (v : option string) : bool :=
  match v with
  | Some s => truthy_string s
  | None => false
  end.

(** [v !== ''] on a value that is a string, [null] or [undefined]. *)
Definition strict_ne_empty (v : option string) : bool :=
  match v with
  | Some s => bool_decide (s ≠ "")
  | None => true
  end.

End Js.

(* ===================================================================== *)
(** ** Data model                                                         *)
(* ===================================================================== *)

(** The object pushed by [getGitHubStarsForUser] for one starred
    repository.  Fields that the GitHub API may return as [null] are
    options. *)
Record Star := {
  star_id : Z;
  star_title : string;
  star_url : string;
  star_starred : string;
  star_labels : option (list string);
  star_stargazers : Z;
  star_forks : Z;
  star_language : option string;
  star_description : option string;
  star_pushed : option string;
  star_watchers : Z;
  star_created : string;
  star_homepage : option string;
  star_size : Z
}.

(** One element of the array returned by [getStarsFromNotionDatabase]:
    [{ pageId: page.id, starId: page.properties[...].number }]. *)
Record CurrentStar := {
  pageId : string;
  starId : Z
}.

(** One element of [pagesToUpdate]: [{ ...star, pageId }]. *)
Record PageToUpdate := {
  upd_star : Star;
  upd_pageId : string
}.

Record Operations := {
  pagesToCreate : list Star;
  pagesToUpdate : list PageToUpdate
}.

(* ===================================================================== *)
(** ** Identity index and reconciler (identical in the three revisions)   *)
(* ===================================================================== *)

(** The loop of [setInitialGitHubToNotionIdMap]:
    [for (const { pageId, starId } of currentStars)
       gitHubStarsIdToNotionPageId[starId] = pageId].
    The global object is passed explicitly; property keys are the decimal
    renderings of the integer ids, which are in bijection with the ids. *)
Definition setInitialGitHubToNotionIdMap_loop
    (currentStars : list CurrentStar) (gitHubStarsIdToNotionPageId : gmap Z string)
    : gmap Z string :=
  fold_left (fun m cs => <[starId cs := pageId cs]> m)
            currentStars gitHubStarsIdToNotionPageId.

(** The index as the program builds it: the global starts as [{}]. *)
Definition identityIndex (currentStars : list CurrentStar) : gmap Z string :=
  setInitialGitHubToNotionIdMap_loop currentStars ∅.

(** One iteration of the loop of [getNotionOperations]. *)
Definition getNotionOperations_step
    (gitHubStarsIdToNotionPageId : gmap Z string)
    (acc : Operations) (star : Star) : Operations :=
  let pageId := gitHubStarsIdToNotionPageId !! star_id star in
  match pageId with
  | Some p =>
      if Js.truthy_string p then
        {| pagesToCreate := pagesToCreate acc;
           pagesToUpdate := pagesToUpdate acc ++ [{| upd_star := star; upd_pageId := p |}] |}
      else
        {| pagesToCreate := pagesToCreate acc ++ [star];
           pagesToUpdate := pagesToUpdate acc |}
  | None =>
      {| pagesToCreate := pagesToCreate acc ++ [star];
         pagesToUpdate := pagesToUpdate acc |}
  end.

Definition getNotionOperations
    (gitHubStarsIdToNotionPageId : gmap Z string) (stars : list Star) : Operations :=
  fold_left (getNotionOperations_step gitHubStarsIdToNotionPageId) stars
            {| pagesToCreate := []; pagesToUpdate := [] |}.

(* ===================================================================== *)
(** ** Notion property values                                             *)
(* ===================================================================== *)

(** A leaf of a request body: a string, a number or [null]. *)
Inductive Value :=
| VNull
| VStr (s : string)
| VNum (n : Z).

(** A star field that is a string, [null] or [undefined], as a leaf. *)
Definition of_nullable (v : option string) : Value :=
  match v with
  | Some s => VStr s
  | None => VNull
  end.

(** The value stored under one key of the object built by
    [getPropertiesFromStar].
    - [PNull]             is [null];
    - [PNumber n]         is [{ number: n }];
    - [PTitle c]          is [{ title: [{ type: "text", text: { content: c } }] }];
    - [PUrl u]            is [{ url: u }];
    - [PDate s]           is [{ date: { start: s } }];
    - [PSelect n]         is [{ select: { name: n } }];
    - [PRichText c]       is [{ rich_text: [{ type: "text", text: { content: c } }] }];
    - [PMultiSelect ns]   is [{ multi_select: [{ name: n } ...] }]. *)
Inductive Property :=
| PNull
| PNumber (number : Value)
| PTitle (content : Value)
| PUrl (url : Value)
| PDate (start : Value)
| PSelect (name : Value)
| PRichText (content : Value)
| PMultiSelect (names : list Value).

(** [v != null] *)
Definition not_null (v : Property) : bool :=
  match v with
  | PNull => false
  | _ => true
  end.

(** [labels.map(topic => { return { name: topic } })] *)
Definition topic_names (labels : list string) : list Value := map VStr labels.

(** The exceptions of a run: the [TypeError] of a property read on
    [undefined] or [null], the error of the Notion client for the write call
    numbered [call], the error of the GitHub client for the request numbered
    [request]. *)
Inductive Error :=
| TypeError
| APIResponseError (call : nat)
| RequestError (request : nat).

(** Completion of a synchronous call: a value or a thrown exception. *)
Inductive Completion (A : Type) :=
| Normal (a : A)
| Abrupt (e : Error).
Arguments Normal {A} a.
Arguments Abrupt {A} e.

(* ===================================================================== *)
(** ** Field mapper, revision by revision                                 *)
(* ===================================================================== *)

Module Legacy.

Definition OPERATION_BATCH_SIZE : nat := 1.

(** The object literal [const item = { ... }] of src/index.js, lines
    231-259. *)
Definition item (star : Star) : gmap string Property :=
  let id := star_id star in
  let title := star_title star in
  let url := star_url star in
  let starred := star_starred star in
  let stargazers := star_stargazers star in
  let forks := star_forks star in
  let watchers := star_watchers star in
  let created := star_created star in
  let size := star_size star in
  list_to_map [
    ("Repository ID", PNumber (VNum id));
    ("Name", PTitle (VStr title));
    ("Repo URL", PUrl (VStr url));
    ("Starred", PDate (VStr starred));
    ("Created", PDate (VStr created));
    ("Stargazers", PNumber (VNum stargazers));
    ("Watchers", PNumber (VNum watchers));
    ("Size", PNumber (VNum size));
    ("Forks", PNumber (VNum forks))
  ].

(** src/index.js, lines 228-291.  [Object.keys(labels)] throws a
    [TypeError] when [labels] is [null] or [undefined]. *)
Definition getPropertiesFromStar (star : Star) : Completion (gmap string Property) :=
  let labels := star_labels star in
  let url := star_url star in
  let language := star_language star in
  let description := star_description star in
  let homepage := star_homepage star in
  let item := item star in
  let item :=
    if Js.truthy homepage then <["Homepage" := PUrl (VStr url)]> item else item in
  let item :=
    if Js.truthy language
    then <["Language" := PSelect (of_nullable language)]> item else item in
  let item :=
    if Js.truthy description
    then <["Description" := PRichText (of_nullable description)]> item else item in
  match labels with
  | None => Abrupt TypeError
  | Some labels =>
      if Nat.ltb 0 (length labels) then
        let label := topic_names labels in
        Normal (<["Topics" := PMultiSelect label]> item)
      else Normal item
  end.

End Legacy.

Module Current.

Definition OPERATION_BATCH_SIZE : nat := 10.

(** The object literal [const item = { ... }] of src/index.js, lines
    552-612. *)
Definition item (star : Star) : gmap string Property :=
  let id := star_id star in
  let title := star_title star in
  let labels := star_labels star in
  let url := star_url star in
  let starred := star_starred star in
  let stargazers := star_stargazers star in
  let forks := star_forks star in
  let language := star_language star in
  let description := star_description star in
  let watchers := star_watchers star in
  let created := star_created star in
  let homepage := star_homepage star in
  let size := star_size star in
  let pushed := star_pushed star in
  list_to_map [
    ("Name", PTitle (VStr title));
    ("Star ID", PNumber (VNum id));
    ("URL", PUrl (VStr url));
    ("Starred", PDate (VStr starred));
    ("Created", PDate (VStr created));
    ("Stargazers", PNumber (VNum stargazers));
    ("Watchers", PNumber (VNum watchers));
    ("Size (Kb)", PNumber (VNum size));
    ("Forks", PNumber (VNum forks));
    ("Pushed", PDate (of_nullable pushed));
    ("Homepage",
      if Js.truthy homepage && Js.strict_ne_empty homepage
      then PUrl (of_nullable homepage) else PNull);
    ("Description",
      if Js.truthy description
      then PRichText (of_nullable description) else PNull);
    ("Language",
      if Js.truthy language
      then PSelect (of_nullable language) else PNull);
    ("Topics",
      match labels with (* [labels ? ... : null]: any array is truthy *)
      | Some labels => PMultiSelect (topic_names labels)
      | None => PNull
      end)
  ].

(** src/index.js, lines 534-617:
    [Object.fromEntries(Object.entries(item).filter(([_, v]) => v != null))]. *)
Definition getPropertiesFromStar (star : Star) : gmap string Property :=
  filter (fun kv => not_null kv.2 = true) (item star).

End Current.

Module Part001.

Definition OPERATION_BATCH_SIZE : nat := 1.

(** The object literal [const item = { ... }] of src/unnamed/part_001,
    lines 258-324. *)
Definition item (star : Star) : gmap string Property :=
  let id := star_id star in
  let title := star_title star in
  let labels := star_labels star in
  let url := star_url star in
  let starred := star_starred star in
  let stargazers := star_stargazers star in
  let forks := star_forks star in
  let language := star_language star in
  let description := star_description star in
  let watchers := star_watchers star in
  let created := star_created star in
  let homepage := star_homepage star in
  let size := star_size star in
  let pushed := star_pushed star in
  list_to_map [
    ("ID", PNumber (VNum id));
    ("Name", PTitle (VStr title));
    ("URL", PUrl (VStr url));
    ("Starred", PDate (VStr starred));
    ("Created", PDate (VStr created));
    ("Stargazers", PNumber (VNum stargazers));
    ("Watchers", PNumber (VNum watchers));
    ("Size (Kb)", PNumber (VNum size));
    ("Forks", PNumber (VNum forks));
    ("Pushed", PDate (of_nullable pushed));
    ("Homepage",
      if Js.truthy homepage then PUrl (of_nullable homepage) else PNull);
    ("Description",
      if Js.truthy description
      then PRichText (of_nullable description) else PNull);
    ("Language", PSelect (of_nullable language));
    ("Topics",
      match labels with (* [labels ? ... : null]: any array is truthy *)
      | Some labels => PMultiSelect (topic_names labels)
      | None => PNull
      end)
  ].

(** src/unnamed/part_001, lines 241-329.  The filtered copy of [item] is
    computed and dropped; the function returns [item] itself. *)
Definition getPropertiesFromStar (star : Star) : gmap string Property :=
  let item := item star in
  let _ := filter (fun kv => not_null kv.2 = true) item in
  item.

End Part001.

(* ===================================================================== *)
(** ** lodash's [_.chunk]                                                  *)
(* ===================================================================== *)

(** Modelled from the spec: [_.chunk] belongs to lodash, which is not among
    the sources; the batches of the writer ("fixed-size batches", the last
    one holding the remainder) are rendered after lodash's loop
    [while (index < length) result[resIndex++] = baseSlice(array, index, (index += size))],
    here on the part of the array from [index] on.  Each turn consumes at
    least one element, so [length array] turns are enough. *)
Fixpoint chunk_loop {A} (fuel size : nat) (rest : list A) : list (list A) :=
  match fuel, rest with
  | S fuel', _ :: _ => take size rest :: chunk_loop fuel' size (drop size rest)
  | _, _ => []
  end.

(** Modelled from the spec: [_.chunk(array, size)] of lodash, absent from
    the sources: [if (!length || size < 1) return []], then the loop. *)
Definition chunk {A} (array : list A) (size : nat) : list (list A) :=
  if Nat.eqb (length array) 0 || Nat.ltb size 1 then []
  else chunk_loop (length array) size array.

(* ===================================================================== *)
(** ** The outside world: GitHub, Notion, console, process                *)
(* ===================================================================== *)

(** One repository of GitHub's starred list, media type [star+json]. *)
Record Repo := {
  repo_id : Z;
  repo_full_name : string;
  repo_html_url : string;
  repo_topics : option (list string);
  repo_stargazers_count : Z;
  repo_forks_count : Z;
  repo_language : option string;
  repo_description : option string;
  repo_pushed_at : option string;
  repo_watchers_count : Z;
  repo_created_at : string;
  repo_homepage : option string;
  repo_size : Z
}.

Record Starred := {
  starred_at : string;
  repo : Repo
}.

(** One page object of a Notion database query; [page_numbers] holds, for
    each number property of the page, its [.number]. *)
Record NotionPage := {
  page_id : string;
  page_numbers : gmap string Z
}.

Record QueryResponse := {
  results : list NotionPage;
  next_cursor : option string
}.

(** What the remote services answer.  The starred list is a first page,
    which the iterator always requests, and the pages its links lead to;
    [github_rejects n] tells whether the request for page number [n]
    (counted from 0) rejects, on a transport or authentication error;
    [write_rejects n] tells whether the promise of the [n]-th write call of
    the run (counted from 0) rejects. *)
Record Services := {
  notion_databases_query : option string -> QueryResponse;
  github_first_page : list Starred;
  github_next_pages : list (list Starred);
  github_rejects : nat -> bool;
  write_rejects : nat -> bool
}.

(** The pages of the starred list, in the order the iterator yields them. *)
Definition github_starred_pages (svc : Services) : list (list Starred) :=
  github_first_page svc :: github_next_pages svc.

Inductive LogMessage :=
| MsgFetching
| MsgFetchedFromGitHub (n : nat)
| MsgFetchedFromNotion (n : nat)
| MsgToCreate (n : nat)
| MsgToUpdate (n : nat)
| MsgBatch (batch : list Star)
| MsgCompletedBatch (n : nat)
| MsgSynced.

Inductive ErrorMessage :=
| MsgMissingEnv
| MsgCaught (e : Error).

Inductive Event :=
| EvNotionQuery (page_size : nat) (start_cursor : option string)
| EvGitHubListStarred (per_page : nat) (page : nat)
| EvNotionCreate (properties : gmap string Property)
| EvNotionUpdate (page_id : string) (properties : gmap string Property)
| EvConsoleLog (m : LogMessage)
| EvConsoleError (m : ErrorMessage).

Definition is_network (e : Event) : bool :=
  match e with
  | EvNotionQuery _ _ | EvGitHubListStarred _ _
  | EvNotionCreate _ | EvNotionUpdate _ _ => true
  | EvConsoleLog _ | EvConsoleError _ => false
  end.

Definition is_write (e : Event) : bool :=
  match e with
  | EvNotionCreate _ | EvNotionUpdate _ _ => true
  | _ => false
  end.

(** An object of the JavaScript heap that the mapper can be handed or can
    allocate: a star, or an object of Notion properties. *)
Inductive Object :=
| ObjStar (star : Star)
| ObjItem (item : gmap string Property).

(** The mutable state of a run: what has happened so far, the global
    [gitHubStarsIdToNotionPageId], the number of write calls made, and the
    heap of objects. *)
Record State := {
  trace : list Event;
  idMap : gmap Z string;
  calls : nat;
  heap : gmap positive Object
}.

Definition initial_state : State :=
  {| trace := []; idMap := ∅; calls := 0; heap := ∅ |}.

(** How a computation ends: with a value, with an exception (a rejected
    promise), by [process.exit], or with the loop budget exhausted. *)
Inductive Outcome (A : Type) :=
| Ok (a : A)
| Thrown (e : Error)
| Exited (code : Z)
| OutOfFuel.
Arguments Ok {A} a.
Arguments Thrown {A} e.
Arguments Exited {A} code.
Arguments OutOfFuel {A}.

Definition M (A : Type) : Type := State -> Outcome A * State.

Definition ret {A} (a : A) : M A := fun st => (Ok a, st).

Definition bind {A B} (m : M A) (k : A -> M B) : M B :=
  fun st =>
    match m st with
    | (Ok a, st') => k a st'
    | (Thrown e, st') => (Thrown e, st')
    | (Exited c, st') => (Exited c, st')
    | (OutOfFuel, st') => (OutOfFuel, st')
    end.

Declare Scope js_scope.
Delimit Scope js_scope with js.
Notation "x <- m ;; k" := (bind m (fun x => k))
  (at level 100, m at next level, right associativity) : js_scope.
Notation "m ;;; k" := (bind m (fun _ => k))
  (at level 100, right associativity) : js_scope.
Local Open Scope js_scope.

Definition throw {A} (e : Error) : M A := fun st => (Thrown e, st).

Definition process_exit {A} (code : Z) : M A := fun st => (Exited code, st).

Definition out_of_fuel {A} : M A := fun st => (OutOfFuel, st).

Definition emit (e : Event) : M unit :=
  fun st => (Ok tt, {| trace := trace st ++ [e]; idMap := idMap st; calls := calls st;
                       heap := heap st |}).

Definition console_log (m : LogMessage) : M unit := emit (EvConsoleLog m).
Definition console_error (m : ErrorMessage) : M unit := emit (EvConsoleError m).

Definition read_idMap : M (gmap Z string) := fun st => (Ok (idMap st), st).

Definition with_heap (st : State) (h : gmap positive Object) : State :=
  {| trace := trace st; idMap := idMap st; calls := calls st; heap := h |}.

(** Reading the star behind a reference (the destructuring
    [const { id, title, ... } = star]). *)
Definition load_star (ref : positive) : M Star :=
  fun st =>
    match heap st !! ref with
    | Some (ObjStar star) => (Ok star, st)
    | _ => (Thrown TypeError, st)
    end.

(** An object literal: a new object at an unused address. *)
Definition new_object (item : gmap string Property) : M positive :=
  fun st =>
    let ref := fresh (dom (heap st)) in
    (Ok ref, with_heap st (<[ref := ObjItem item]> (heap st))).

(** [item[key] = value] *)
Definition set_property (ref : positive) (key : string) (value : Property) : M unit :=
  fun st =>
    match heap st !! ref with
    | Some (ObjItem item) =>
        (Ok tt, with_heap st (<[ref := ObjItem (<[key := value]> item)]> (heap st)))
    | _ => (Thrown TypeError, st)
    end.

(** [Object.entries(item)] *)
Definition object_entries (ref : positive) : M (list (string * Property)) :=
  fun st =>
    match heap st !! ref with
    | Some (ObjItem item) => (Ok (map_to_list item), st)
    | _ => (Thrown TypeError, st)
    end.

(** [Object.fromEntries(entries)] *)
Definition object_fromEntries (entries : list (string * Property)) : M positive :=
  new_object (list_to_map entries).

(** [try { body } catch (error) { handler(error) }]: only exceptions are
    caught, [process.exit] is not. *)
Definition try_catch (body : M unit) (handler : Error -> M unit) : M unit :=
  fun st =>
    match body st with
    | (Thrown e, st') => handler e st'
    | r => r
    end.

(** [of_completion] lifts a synchronous call that may throw. *)
Definition of_completion {A} (c : Completion A) : M A :=
  match c with
  | Normal a => ret a
  | Abrupt e => throw e
  end.

(** [array.map(f)] for an effectful callback, in array order. *)
Fixpoint mapM {A B} (f : A -> M B) (l : list A) : M (list B) :=
  match l with
  | [] => ret []
  | x :: l' => y <- f x ;; ys <- mapM f l' ;; ret (y :: ys)
  end.

(** [for (const x of l) { body(x) }] *)
Fixpoint for_of {A} (l : list A) (body : A -> M unit) : M unit :=
  match l with
  | [] => ret tt
  | x :: l' => body x ;;; for_of l' body
  end.

(* ===================================================================== *)
(** ** Readers and writer                                                 *)
(* ===================================================================== *)

(** The object pushed onto [stars] for one item of a GitHub page. *)
Definition star_of_starred (star : Starred) : Star :=
  {| star_id := repo_id (repo star);
     star_title := repo_full_name (repo star);
     star_url := repo_html_url (repo star);
     star_starred := starred_at star;
     star_labels := repo_topics (repo star);
     star_stargazers := repo_stargazers_count (repo star);
     star_forks := repo_forks_count (repo star);
     star_language := repo_language (repo star);
     star_description := repo_description (repo star);
     star_pushed := repo_pushed_at (repo star);
     star_watchers := repo_watchers_count (repo star);
     star_created := repo_created_at (repo star);
     star_homepage := repo_homepage (repo star);
     star_size := repo_size (repo star) |}.

(** A promise that has settled: fulfilled, or rejected with an error. *)
Definition Promise : Type := Completion unit.

(** [await Promise.all(promises)]: continues when all are fulfilled and
    throws the error of a rejected one otherwise (here the first in array
    order; the script only prints it). *)
Fixpoint promise_all (promises : list Promise) : M unit :=
  match promises with
  | [] => ret tt
  | Normal _ :: rest => promise_all rest
  | Abrupt e :: _ => throw e
  end.

Section Run.

Variable svc : Services.

(** A call of [notion.pages.create] or [notion.pages.update]: the request
    leaves at once, and the promise of the [n]-th call settles as the
    service decides. *)
Definition settle (n : nat) : Promise :=
  if write_rejects svc n then Abrupt (APIResponseError n) else Normal tt.

Definition notion_write (request : Event) : M Promise :=
  fun st =>
    let n := calls st in
    (Ok (settle n),
     {| trace := trace st ++ [request]; idMap := idMap st; calls := S n;
        heap := heap st |}).

(** The [while (true)] loop of [getStarsFromNotionDatabase]. *)
Fixpoint query_loop (fuel page_size : nat) (cursor : option string)
    (pages : list NotionPage) : M (list NotionPage) :=
  match fuel with
  | O => out_of_fuel
  | S fuel' =>
      emit (EvNotionQuery page_size cursor) ;;;
      let response := notion_databases_query svc cursor in
      let pages := pages ++ results response in
      if negb (Js.truthy (next_cursor response)) then ret pages
      else query_loop fuel' page_size (next_cursor response) pages
  end.

(** [getStarsFromNotionDatabase]; [key] is the name of the number property
    that stores the repository id, [page.properties[key]] being [undefined]
    makes [.number] throw. *)
Definition getStarsFromNotionDatabase (fuel page_size : nat) (key : string)
    : M (list CurrentStar) :=
  pages <- query_loop fuel page_size None [] ;;
  console_log (MsgFetchedFromNotion (length pages)) ;;;
  mapM (fun page =>
          match page_numbers page !! key with
          | Some number => ret {| pageId := page_id page; starId := number |}
          | None => throw TypeError
          end) pages.

(** The [for await] loop of [getGitHubStarsForUser], over the pages still
    to come: the iterator sends the request for the next page, and the
    loop body runs on its data unless the request rejects, when the
    exception leaves the loop and the function. *)
Fixpoint starred_loop (page : nat) (pages : list (list Starred)) (stars : list Star)
    : M (list Star) :=
  match pages with
  | [] => ret stars
  | data :: pages' =>
      emit (EvGitHubListStarred 100 page) ;;;
      (if github_rejects svc page then throw (RequestError page) else ret tt) ;;;
      starred_loop (S page) pages' (stars ++ map star_of_starred data)
  end.

(** [getGitHubStarsForUser]: the iterator starts at the first page, so
    that one request at least is sent; nothing catches what it throws. *)
Definition getGitHubStarsForUser : M (list Star) :=
  starred_loop 0 (github_starred_pages svc) [].

Definition setInitialGitHubToNotionIdMap (fuel page_size : nat) (key : string) : M unit :=
  currentStars <- getStarsFromNotionDatabase fuel page_size key ;;
  fun st =>
    (Ok tt, {| trace := trace st;
               idMap := setInitialGitHubToNotionIdMap_loop currentStars (idMap st);
               calls := calls st; heap := heap st |}).

(** The callback of [pagesToCreateBatch.map]. *)
Definition create_request (mapper : Star -> Completion (gmap string Property))
    (star : Star) : M Promise :=
  properties <- of_completion (mapper star) ;;
  notion_write (EvNotionCreate properties).

(** The callback of [pagesToUpdateBatch.map]:
    [({ pageId, ...star }) => notion.pages.update(...)]. *)
Definition update_request (mapper : Star -> Completion (gmap string Property))
    (page : PageToUpdate) : M Promise :=
  properties <- of_completion (mapper (upd_star page)) ;;
  notion_write (EvNotionUpdate (upd_pageId page) properties).

(** The [for (const batch of chunks)] loop shared by [createPages] and
    [updatePages]; [announce] is what the loop prints before a batch. *)
Definition write_batches {A} (request : A -> M Promise) (announce : list A -> M unit)
    (chunks : list (list A)) : M unit :=
  for_of chunks (fun batch =>
    announce batch ;;;
    promises <- mapM request batch ;;
    promise_all promises ;;;
    console_log (MsgCompletedBatch (length batch))).

(** [syncNotionDatabaseWithGitHub], over the revision's writer. *)
Definition syncNotionDatabaseWithGitHub
    (createPages : list Star -> M unit) (updatePages : list PageToUpdate -> M unit)
    : M unit :=
  console_log MsgFetching ;;;
  stars <- getGitHubStarsForUser ;;
  console_log (MsgFetchedFromGitHub (length stars)) ;;;
  index <- read_idMap ;;
  let ops := getNotionOperations index stars in
  console_log (MsgToCreate (length (pagesToCreate ops))) ;;;
  createPages (pagesToCreate ops) ;;;
  console_log (MsgToUpdate (length (pagesToUpdate ops))) ;;;
  updatePages (pagesToUpdate ops) ;;;
  console_log MsgSynced.

End Run.

Module LegacyRun.

(** [getPropertiesFromStar] of src/index.js, lines 228-291, statement by
    statement on the heap: [star] is a reference to the argument, the
    result a reference to the object returned. *)
Definition getPropertiesFromStar (star : positive) : M positive :=
  fields <- load_star star ;;
  let labels := star_labels fields in
  let url := star_url fields in
  let language := star_language fields in
  let description := star_description fields in
  let homepage := star_homepage fields in
  item <- new_object (Legacy.item fields) ;;
  (if Js.truthy homepage
   then set_property item "Homepage" (PUrl (VStr url)) else ret tt) ;;;
  (if Js.truthy language
   then set_property item "Language" (PSelect (of_nullable language)) else ret tt) ;;;
  (if Js.truthy description
   then set_property item "Description" (PRichText (of_nullable description))
   else ret tt) ;;;
  match labels with
  | None => throw TypeError
  | Some labels =>
      (if Nat.ltb 0 (length labels) then
         let label := topic_names labels in
         set_property item "Topics" (PMultiSelect label)
       else ret tt) ;;;
      ret item
  end.

(** src/index.js, lines 174-191. *)
Definition createPages_sized (size : nat) (svc : Services) (pagesToCreate : list Star)
    : M unit :=
  try_catch
    (let pagesToCreateChunks := chunk pagesToCreate size in
     write_batches (create_request svc Legacy.getPropertiesFromStar)
                   (fun _ => ret tt) pagesToCreateChunks)
    (fun error => console_error (MsgCaught error)).

(** src/index.js, lines 200-217. *)
Definition updatePages_sized (size : nat) (svc : Services)
    (pagesToUpdate : list PageToUpdate) : M unit :=
  try_catch
    (let pagesToUpdateChunks := chunk pagesToUpdate size in
     write_batches (update_request svc Legacy.getPropertiesFromStar)
                   (fun _ => ret tt) pagesToUpdateChunks)
    (fun error => console_error (MsgCaught error)).

Definition createPages := createPages_sized Legacy.OPERATION_BATCH_SIZE.
Definition updatePages := updatePages_sized Legacy.OPERATION_BATCH_SIZE.

(** src/index.js, line 32. *)
Definition main (svc : Services) (fuel : nat) : M unit :=
  setInitialGitHubToNotionIdMap svc fuel 25 "Repository ID" ;;;
  syncNotionDatabaseWithGitHub svc (createPages svc) (updatePages svc).

End LegacyRun.

Module CurrentRun.

(** [getPropertiesFromStar] of src/index.js, lines 534-617, statement by
    statement on the heap. *)
Definition getPropertiesFromStar (star : positive) : M positive :=
  fields <- load_star star ;;
  item <- new_object (Current.item fields) ;;
  entries <- object_entries item ;;
  object_fromEntries (filter (fun kv => not_null kv.2 = true) entries).

Definition mapper (star : Star) : Completion (gmap string Property) :=
  Normal (Current.getPropertiesFromStar star).

(** src/index.js, lines 485-501. *)
Definition createPages_sized (size : nat) (svc : Services) (pagesToCreate : list Star)
    : M unit :=
  let pagesToCreateChunks := chunk pagesToCreate size in
  write_batches (create_request svc mapper)
                (fun batch => console_log (MsgBatch batch)) pagesToCreateChunks.

(** src/index.js, lines 510-523. *)
Definition updatePages_sized (size : nat) (svc : Services)
    (pagesToUpdate : list PageToUpdate) : M unit :=
  let pagesToUpdateChunks := chunk pagesToUpdate size in
  write_batches (update_request svc mapper) (fun _ => ret tt) pagesToUpdateChunks.

Definition createPages := createPages_sized Current.OPERATION_BATCH_SIZE.
Definition updatePages := updatePages_sized Current.OPERATION_BATCH_SIZE.

(** The test of src/index.js, lines 306-311, on [process.env] as
    [dotenv.config()] leaves it. *)
Definition required_environment (env : gmap string string) : bool :=
  Js.truthy (env !! "GH_STARS_USER") &&
  Js.truthy (env !! "GH_USER_TOKEN") &&
  Js.truthy (env !! "NOTION_KEY") &&
  Js.truthy (env !! "NOTION_DATABASE_ID").

(** The top level of src/index.js, lines 300-338. *)
Definition main (env : gmap string string) (svc : Services) (fuel : nat) : M unit :=
  (if negb (required_environment env)
   then console_error MsgMissingEnv ;;; process_exit 1
   else ret tt) ;;;
  setInitialGitHubToNotionIdMap svc fuel 10 "Star ID" ;;;
  syncNotionDatabaseWithGitHub svc (createPages svc) (updatePages svc).

End CurrentRun.

Module Part001Run.

(** [getPropertiesFromStar] of src/unnamed/part_001, lines 241-329,
    statement by statement on the heap. *)
Definition getPropertiesFromStar (star : positive) : M positive :=
  fields <- load_star star ;;
  item <- new_object (Part001.item fields) ;;
  entries <- object_entries item ;;
  _ <- object_fromEntries (filter (fun kv => not_null kv.2 = true) entries) ;;
  ret item.

Definition mapper (star : Star) : Completion (gmap string Property) :=
  Normal (Part001.getPropertiesFromStar star).

(** src/unnamed/part_001, lines 185-204. *)
Definition createPages_sized (size : nat) (svc : Services) (pagesToCreate : list Star)
    : M unit :=
  try_catch
    (let pagesToCreateChunks := chunk pagesToCreate size in
     write_batches (create_request svc mapper) (fun _ => ret tt) pagesToCreateChunks)
    (fun error => console_error (MsgCaught error)).

(** src/unnamed/part_001, lines 213-230. *)
Definition updatePages_sized (size : nat) (svc : Services)
    (pagesToUpdate : list PageToUpdate) : M unit :=
  try_catch
    (let pagesToUpdateChunks := chunk pagesToUpdate size in
     write_batches (update_request svc mapper) (fun _ => ret tt) pagesToUpdateChunks)
    (fun error => console_error (MsgCaught error)).

Definition createPages := createPages_sized Part001.OPERATION_BATCH_SIZE.
Definition updatePages := updatePages_sized Part001.OPERATION_BATCH_SIZE.

(** src/unnamed/part_001, line 38. *)
Definition main (svc : Services) (fuel : nat) : M unit :=
  setInitialGitHubToNotionIdMap svc fuel 25 "ID" ;;;
  syncNotionDatabaseWithGitHub svc (createPages svc) (updatePages svc).

End Part001Run.

(* ===================================================================== *)
(** ** Statements of the reconciler's contract                            *)
(* ===================================================================== *)

(** The partition property of the reconciler: [pagesToCreate] is the
    subsequence of the records whose id is not a key of the index,
    [pagesToUpdate] is the subsequence of the others, each with the page id
    the index holds, and no record is lost, repeated or in both. *)
Definition partitions_exactly (index : gmap Z string) (stars : list Star)
    (ops : Operations) : Prop :=
  pagesToCreate ops = filter (fun s => index !! star_id s = None) stars ∧
  map upd_star (pagesToUpdate ops) = filter (fun s => is_Some (index !! star_id s)) stars ∧
  (∀ u, u ∈ pagesToUpdate ops -> index !! star_id (upd_star u) = Some (upd_pageId u)) ∧
  stars ≡ₚ pagesToCreate ops ++ map upd_star (pagesToUpdate ops) ∧
  (∀ s, s ∈ pagesToCreate ops -> s ∉ map upd_star (pagesToUpdate ops)).

(** The invariant of an identity index: every page id it holds is the id
    of a Notion page, a non-empty string. *)
Definition page_ids_nonempty (index : gmap Z string) : Prop :=
  ∀ k p, index !! k = Some p -> p ≠ "".

(** What the test [if (pageId)] selects: the page id under the star's id
    when there is one and it is truthy. *)
Definition known_page (index : gmap Z string) (star : Star) : option string :=
  match index !! star_id star with
  | Some p => if Js.truthy_string p then Some p else None
  | None => None
  end.

Definition with_page (index : gmap Z string) (star : Star) : option PageToUpdate :=
  (fun p => {| upd_star := star; upd_pageId := p |}) <$> known_page index star.

(** [ceil(n / b)] on natural numbers. *)
Definition div_ceil (n b : nat) : nat := (n + b - 1) / b.

(** The size of the last of the batches of [n] operations, [b] at a time. *)
Definition last_batch_size (n b : nat) : nat :=
  if Nat.eqb (n mod b) 0 then b else n mod b.

(* ===================================================================== *)
(** ** Statements about runs                                              *)
(* ===================================================================== *)

(** The write requests of a trace, in the order they were sent. *)
Definition writes (t : list Event) : list Event :=
  filter (fun e => is_write e = true) t.

Definition add_events (st : State) (events : list Event) : State :=
  {| trace := trace st ++ events; idMap := idMap st; calls := calls st;
     heap := heap st |}.

(** The common shape of [create_request] and [update_request]. *)
Definition request_via (svc : Services) {A} (mapper : A -> Completion (gmap string Property))
    (event : A -> gmap string Property -> Event) (x : A) : M Promise :=
  properties <- of_completion (mapper x) ;;
  notion_write svc (event x properties).

(** Best effort as the specification words it: whatever fails, a create
    request is sent for every record handed to [createPages]. *)
Definition dispatches_every_create (createPages : list Star -> M unit)
    (pagesToCreate : list Star) (st : State) : Prop :=
  length (writes (trace (createPages pagesToCreate st).2))
  = length (writes (trace st)) + length pagesToCreate.

(** Services whose first write call is rejected; nothing else fails. *)
Definition rejecting_first : Services :=
  {| notion_databases_query := fun _ => {| results := []; next_cursor := None |};
     github_first_page := []; github_next_pages := [];
     github_rejects := fun _ => false;
     write_rejects := fun n => Nat.eqb n 0 |}.

(** The sizes printed by [Completed batch size: n], in order. *)
Definition completed_batches (t : list Event) : list nat :=
  omap (fun e => match e with
                 | EvConsoleLog (MsgCompletedBatch n) => Some n
                 | _ => None
                 end) t.

(** A mapper run on the heap is pure, and computes [f], at a state and a
    reference to a record: it returns a reference to an object that holds
    [f star], prints and requests nothing, leaves the identity index and
    the call counter alone, and changes no object that was on the heap. *)
Definition pure_on_heap (run : positive -> M positive)
    (f : Star -> gmap string Property) (st : State) (ref : positive) (star : Star)
    : Prop :=
  ∃ result st',
    run ref st = (Ok result, st') ∧
    heap st' !! result = Some (ObjItem (f star)) ∧
    trace st' = trace st ∧ idMap st' = idMap st ∧ calls st' = calls st ∧
    (∀ l o, heap st !! l = Some o -> heap st' !! l = Some o).

(** Two calls in a row on the same record return objects with the same
    content. *)
Definition same_on_second_call (run : positive -> M positive)
    (st : State) (ref : positive) : Prop :=
  ∃ r1 st1 r2 st2 item,
    run ref st = (Ok r1, st1) ∧ run ref st1 = (Ok r2, st2) ∧
    heap st2 !! r1 = Some (ObjItem item) ∧ heap st2 !! r2 = Some (ObjItem item).

(** The network requests of a trace. *)
Definition network_requests (t : list Event) : list Event :=
  filter (fun e => is_network e = true) t.

(** The names of the four required configuration values. *)
Definition required_keys : list string :=
  ["GH_STARS_USER"; "GH_USER_TOKEN"; "NOTION_KEY"; "NOTION_DATABASE_ID"].

(* ===================================================================== *)
(** ** Sample data                                                        *)
(* ===================================================================== *)

Definition snapshot_unique : list CurrentStar :=
  [ {| pageId := "p1"; starId := 42 |}; {| pageId := "p2"; starId := 7 |} ].

Definition star_42 : Star :=
  {| star_id := 42; star_title := "x"; star_url := "https://github.com/o/x";
     star_starred := "2022-01-02T03:04:05Z"; star_labels := Some ["cli"];
     star_stargazers := 5; star_forks := 1; star_language := Some "Go";
     star_description := Some "a tool"; star_pushed := Some "2022-01-01T00:00:00Z";
     star_watchers := 5; star_created := "2021-01-01T00:00:00Z";
     star_homepage := Some "https://x.example"; star_size := 10 |}.

Definition star_99 : Star :=
  {| star_id := 99; star_title := "y"; star_url := "https://github.com/o/y";
     star_starred := "2022-01-02T03:04:05Z"; star_labels := Some [];
     star_stargazers := 0; star_forks := 0; star_language := None;
     star_description := Some ""; star_pushed := None;
     star_watchers := 0; star_created := "2021-01-01T00:00:00Z";
     star_homepage := Some ""; star_size := 0 |}.

(** A complete environment, and one without the Notion key. *)
Definition env_complete : gmap string string :=
  list_to_map [("GH_STARS_USER", "octocat"); ("GH_USER_TOKEN", "ghp_x");
               ("NOTION_KEY", "secret_x"); ("NOTION_DATABASE_ID", "db1")].

Definition env_without_notion_key : gmap string string :=
  list_to_map [("GH_STARS_USER", "octocat"); ("GH_USER_TOKEN", "ghp_x");
               ("NOTION_DATABASE_ID", "db1")].

(** A state whose heap holds one star, at address 1. *)
Definition state_with_star_99 : State :=
  {| trace := []; idMap := ∅; calls := 0; heap := {[ 1%positive := ObjStar star_99 ]} |}.

(** The GitHub item from which [getGitHubStarsForUser] builds [star]. *)
Definition starred_of (star : Star) : Starred :=
  {| starred_at := star_starred star;
     repo := {| repo_id := star_id star; repo_full_name := star_title star;
                repo_html_url := star_url star; repo_topics := star_labels star;
                repo_stargazers_count := star_stargazers star;
                repo_forks_count := star_forks star;
                repo_language := star_language star;
                repo_description := star_description star;
                repo_pushed_at := star_pushed star;
                repo_watchers_count := star_watchers star;
                repo_created_at := star_created star;
                repo_homepage := star_homepage star;
                repo_size := star_size star |} |}.

(** The scenario of the specification, with a failing first write: the
    database holds one page, [p1], for repository 42; the user has starred
    42 and 99; the first write call of the run is rejected. *)
Definition scenario : Services :=
  {| notion_databases_query := fun _ =>
       {| results := [ {| page_id := "p1";
                          page_numbers := list_to_map [("Repository ID", 42%Z);
                                                       ("Star ID", 42%Z); ("ID", 42%Z)] |} ];
          next_cursor := None |};
     github_first_page := [starred_of star_42; starred_of star_99];
     github_next_pages := []; github_rejects := fun _ => false;
     write_rejects := fun n => Nat.eqb n 0 |}.

(** The property set [Legacy] sends for a star ([{}] if it throws). *)
Definition legacy_properties (star : Star) : gmap string Property :=
  match Legacy.getPropertiesFromStar star with
  | Normal item => item
  | Abrupt _ => ∅
  end.

(* ===================================================================== *)
(** ** Statements about the readers                                       *)
(* ===================================================================== *)

(** [follows svc cursor responses]: [responses] is what the Notion service
    answers, one after the other, when the query is repeated from [cursor]
    with the cursor of the previous answer; every answer but the last has a
    truthy [next_cursor], the last one has none. *)
Fixpoint follows (svc : Services) (cursor : option string)
    (responses : list QueryResponse) : Prop :=
  match responses with
  | [] => False
  | r :: rest =>
      notion_databases_query svc cursor = r ∧
      match rest with
      | [] => Js.truthy (next_cursor r) = false
      | _ :: _ => Js.truthy (next_cursor r) = true ∧ follows svc (next_cursor r) rest
      end
  end.

(** The queries that fetch [responses]: the first with [cursor], each next
    one with the cursor of the answer before. *)
Fixpoint query_events (page_size : nat) (cursor : option string)
    (responses : list QueryResponse) : list Event :=
  match responses with
  | [] => []
  | r :: rest => EvNotionQuery page_size cursor :: query_events page_size (next_cursor r) rest
  end.

(** The pages of all the answers, in order. *)
Definition fetched_pages (responses : list QueryResponse) : list NotionPage :=
  concat (map results responses).

(** [{ pageId, starId }] is what the reader makes of [page]. *)
Definition read_as (key : string) (page : NotionPage) (cs : CurrentStar) : Prop :=
  pageId cs = page_id page ∧ page_numbers page !! key = Some (starId cs).

(** No request for a page of the starred list is rejected. *)
Definition github_accepts (svc : Services) : Prop :=
  ∀ n, n < length (github_starred_pages svc) -> github_rejects svc n = false.

(** The requests of [getGitHubStarsForUser] for [n] pages. *)
Definition starred_events (n : nat) : list Event :=
  map (EvGitHubListStarred 100) (seq 0 n).

(** A Notion service with three pages of results behind two cursors. *)
Definition paged_notion : Services :=
  {| notion_databases_query := fun cursor =>
       match cursor with
       | None =>
           {| results := [ {| page_id := "p1";
                              page_numbers := {[ "Star ID" := 42%Z ]} |} ];
              next_cursor := Some "c1" |}
       | Some "c1" =>
           {| results := [ {| page_id := "p2";
                              page_numbers := {[ "Star ID" := 7%Z ]} |} ];
              next_cursor := Some "c2" |}
       | Some _ =>
           {| results := [ {| page_id := "p3";
                              page_numbers := {[ "Star ID" := 99%Z ]} |} ];
              next_cursor := Some "" |}
       end;
     github_first_page := [starred_of star_42];
     github_next_pages := [[starred_of star_99]]; github_rejects := fun _ => false;
     write_rejects := fun _ => false |}.

Definition paged_notion_responses : list QueryResponse :=
  [ notion_databases_query paged_notion None;
    notion_databases_query paged_notion (Some "c1");
    notion_databases_query paged_notion (Some "c2") ].

(** The service of [paged_notion] with a GitHub that rejects the request
    for the second page. *)
Definition github_failing_second : Services :=
  {| notion_databases_query := notion_databases_query paged_notion;
     github_first_page := [starred_of star_42];
     github_next_pages := [[starred_of star_99]];
     github_rejects := fun n => Nat.eqb n 1;
     write_rejects := fun _ => false |}.

(** The service of [paged_notion] with a page that has no ["Star ID"]. *)
Definition notion_without_star_id : Services :=
  {| notion_databases_query := fun _ =>
       {| results := [ {| page_id := "p1"; page_numbers := {[ "Star ID" := 42%Z ]} |};
                       {| page_id := "p2"; page_numbers := {[ "Stars" := 7%Z ]} |} ];
          next_cursor := None |};
     github_first_page := [starred_of star_42];
     github_next_pages := [[starred_of star_99]]; github_rejects := fun _ => false;
     write_rejects := fun _ => false |}.

(* ===================================================================== *)
(** ** Statements about the mappers                                       *)
(* ===================================================================== *)

(** The keys every property set of [Current] has. *)
Definition current_always : gset string :=
  list_to_set ["Name"; "Star ID"; "URL"; "Starred"; "Created"; "Stargazers";
               "Watchers"; "Size (Kb)"; "Forks"; "Pushed"].

(** The keys of the object literal of [Part001]. *)
Definition part001_keys : gset string :=
  list_to_set ["ID"; "Name"; "URL"; "Starred"; "Created"; "Stargazers";
               "Watchers"; "Size (Kb)"; "Forks"; "Pushed"; "Homepage";
               "Description"; "Language"; "Topics"].

(** The keys of the object literal of [Legacy]. *)
Definition legacy_always : gset string :=
  list_to_set ["Repository ID"; "Name"; "Repo URL"; "Starred"; "Created";
               "Stargazers"; "Watchers"; "Size"; "Forks"].

(** [{[key]}] when [present], no key otherwise. *)
Definition key_if (present : bool) (key : string) : gset string :=
  if present then {[ key ]} else ∅.

(** [labels] is an array with at least one element. *)
Definition nonempty_array (labels : option (list string)) : bool :=
  match labels with
  | Some (_ :: _) => true
  | _ => false
  end.

(** A state whose heap holds, at address 1, a star without [labels]. *)
Definition star_without_labels : Star :=
  {| star_id := 7; star_title := "z"; star_url := "https://github.com/o/z";
     star_starred := "2022-01-02T03:04:05Z"; star_labels := None;
     star_stargazers := 1; star_forks := 0; star_language := Some "C";
     star_description := None; star_pushed := None;
     star_watchers := 1; star_created := "2021-01-01T00:00:00Z";
     star_homepage := Some "https://z.example"; star_size := 3 |}.

Definition state_with_star_without_labels : State :=
  {| trace := []; idMap := ∅; calls := 0;
     heap := {[ 1%positive := ObjStar star_without_labels ]} |}.

(* ===================================================================== *)
(** ** Statements about the writer                                        *)
(* ===================================================================== *)

(** The state after [events], when each write among them took one call. *)
Definition advance (st : State) (events : list Event) : State :=
  {| trace := trace st ++ events; idMap := idMap st;
     calls := calls st + length (writes events); heap := heap st |}.

(** From [st] to [st'] the trace has only grown, the only requests added
    are writes, the call counter has counted them, and the identity index
    and the heap are as they were. *)
Definition only_writes_added (st st' : State) : Prop :=
  ∃ events, st' = advance st events ∧ network_requests events = writes events.

(** The computation ended by returning or by throwing: it neither left the
    process nor ran out of budget. *)
Definition returns_or_throws {A} (outcome : Outcome A) : Prop :=
  match outcome with
  | Ok _ | Thrown _ => True
  | Exited _ | OutOfFuel => False
  end.

(** Services that reject every write. *)
Definition rejecting_all : Services :=
  {| notion_databases_query := fun _ => {| results := []; next_cursor := None |};
     github_first_page := []; github_next_pages := [];
     github_rejects := fun _ => false;
     write_rejects := fun _ => true |}.

(** Services that reject the write call number [p] and no other. *)
Definition rejecting_only (p : nat) : Services :=
  {| notion_databases_query := fun _ => {| results := []; next_cursor := None |};
     github_first_page := []; github_next_pages := [];
     github_rejects := fun _ => false;
     write_rejects := fun n => Nat.eqb n p |}.

(* ===================================================================== *)
(** ** Statements about whole runs                                        *)
(* ===================================================================== *)

(** The stars that [getGitHubStarsForUser] returns. *)
Definition starred_repositories (svc : Services) : list Star :=
  map star_of_starred (concat (github_starred_pages svc)).

(** The write requests of [Current] for the operations [ops], creates of
    the first list before updates of the second. *)
Definition current_write_requests (ops : Operations) : list Event :=
  map (fun s => EvNotionCreate (Current.getPropertiesFromStar s)) (pagesToCreate ops)
  ++ map (fun u => EvNotionUpdate (upd_pageId u)
                     (Current.getPropertiesFromStar (upd_star u)))
         (pagesToUpdate ops).

(** The state in which [syncNotionDatabaseWithGitHub], started in [st],
    calls [createPages]: the stars have been fetched and three lines
    printed. *)
Definition before_create (svc : Services) (st : State) : State :=
  add_events st
    ([EvConsoleLog MsgFetching]
     ++ starred_events (length (github_starred_pages svc))
     ++ [EvConsoleLog (MsgFetchedFromGitHub (length (starred_repositories svc)));
         EvConsoleLog (MsgToCreate
                         (length (pagesToCreate
                                    (getNotionOperations (idMap st)
                                       (starred_repositories svc)))))]).

(** The scenario of the specification with a service that accepts every
    write. *)
Definition scenario_accepting : Services :=
  {| notion_databases_query := notion_databases_query scenario;
     github_first_page := github_first_page scenario;
     github_next_pages := github_next_pages scenario;
     github_rejects := github_rejects scenario;
     write_rejects := fun _ => false |}.

(** An environment in which the Notion key is set to the empty string. *)
Definition env_with_empty_notion_key : gmap string string :=
  list_to_map [("GH_STARS_USER", "octocat"); ("GH_USER_TOKEN", "ghp_x");
               ("NOTION_KEY", ""); ("NOTION_DATABASE_ID", "db1")].

(** [process.exit] is not how the computation ends, whatever the state. *)
Definition never_exits {A} (m : M A) : Prop :=
  ∀ st code, (m st).1 ≠ Exited code.

(** A Notion service that hands out a cursor with every answer. *)
Definition endless_notion : Services :=
  {| notion_databases_query := fun _ => {| results := []; next_cursor := Some "more" |};
     github_first_page := [starred_of star_42]; github_next_pages := [];
     github_rejects := fun _ => false;
     write_rejects := fun _ => false |}.

(* ===================================================================== *)
(** ** Statements about batches                                           *)
(* ===================================================================== *)

(** [batches] are [ceil(n / b)] batches, each of size [b] but the last,
    whose size is [n mod b] when [b] does not divide [n] and [b] when it
    does. *)
Definition batches_of_size {A} (batches : list (list A)) (n b : nat) : Prop :=
  length batches = div_ceil n b ∧
  ∀ i batch, batches !! i = Some batch ->
    if decide (S i = length batches)
    then length batch = last_batch_size n b
    else length batch = b.

(** What one turn of the loop of [createPages] of [Current] adds to the
    trace when no call is rejected: the batch printed, one create request
    per operation of the batch, the size printed. *)
Definition create_batch (batch : list Star) : list Event :=
  [EvConsoleLog (MsgBatch batch)]
  ++ map (fun s => EvNotionCreate (Current.getPropertiesFromStar s)) batch
  ++ [EvConsoleLog (MsgCompletedBatch (length batch))].

(** The same for [updatePages] of [Current], which does not print the
    batch. *)
Definition update_batch (batch : list PageToUpdate) : list Event :=
  map (fun u => EvNotionUpdate (upd_pageId u)
                  (Current.getPropertiesFromStar (upd_star u))) batch
  ++ [EvConsoleLog (MsgCompletedBatch (length batch))].

(** [run], started in [st], issues [batches] and returns: what it adds to
    the trace is, batch after batch and in order, what a turn of the loop
    adds for that batch, each operation took one call, and nothing else
    changed. *)
Definition issues_batches {A} (run : M unit) (turn : list A -> list Event)
    (batches : list (list A)) (st : State) : Prop :=
  run st
  = (Ok tt, {| trace := trace st ++ concat (map turn batches);
               idMap := idMap st;
               calls := calls st + length (concat batches);
               heap := heap st |}).

(** The batches that [createPages] of [Current] printed, in order. *)
Definition announced_batches (t : list Event) : list (list Star) :=
  omap (fun e => match e with
                 | EvConsoleLog (MsgBatch batch) => Some batch
                 | _ => None
                 end) t.

(* ===================================================================== *)
(** * Theorems                                                            *)
(* ===================================================================== *)

(** ** Identity index *)

Lemma index_loop_snoc (l : list CurrentStar) (cs : CurrentStar) (m : gmap Z string) :
  setInitialGitHubToNotionIdMap_loop (l ++ [cs]) m
  = <[starId cs := pageId cs]> (setInitialGitHubToNotionIdMap_loop l m).
Proof. unfold setInitialGitHubToNotionIdMap_loop. by rewrite fold_left_app. Qed.

Lemma index_loop_app (l1 l2 : list CurrentStar) (m : gmap Z string) :
  setInitialGitHubToNotionIdMap_loop (l1 ++ l2) m
  = setInitialGitHubToNotionIdMap_loop l2 (setInitialGitHubToNotionIdMap_loop l1 m).
Proof. unfold setInitialGitHubToNotionIdMap_loop. by rewrite fold_left_app. Qed.

(** Pairs with another id leave the entry of [k] as it was. *)
Lemma index_loop_other (l : list CurrentStar) (m : gmap Z string) (k : Z) :
  (∀ c, c ∈ l -> starId c ≠ k) ->
  setInitialGitHubToNotionIdMap_loop l m !! k = m !! k.
Proof.
  revert m. induction l as [|c l IH]; intros m Hl; [done|].
  cbn. change (fold_left _ l ?m0) with (setInitialGitHubToNotionIdMap_loop l m0).
  rewrite IH.
  - apply lookup_insert_ne, Hl. left.
  - intros c' Hc'. apply Hl. by right.
Qed.

(** The entry of an id is written by the last pair that carries it. *)
Lemma index_loop_last (l1 l2 : list CurrentStar) (cs : CurrentStar) (m : gmap Z string) :
  (∀ c, c ∈ l2 -> starId c ≠ starId cs) ->
  setInitialGitHubToNotionIdMap_loop (l1 ++ cs :: l2) m !! starId cs = Some (pageId cs).
Proof.
  intros Hl2. rewrite index_loop_app. cbn.
  change (fold_left _ l2 ?m0) with (setInitialGitHubToNotionIdMap_loop l2 m0).
  rewrite index_loop_other by done. apply lookup_insert_eq.
Qed.

Lemma index_loop_dom (l : list CurrentStar) (m : gmap Z string) :
  dom (setInitialGitHubToNotionIdMap_loop l m) = list_to_set (map starId l) ∪ dom m.
Proof.
  revert m. induction l as [|c l IH]; intros m; cbn.
  - set_solver.
  - change (fold_left _ l ?m0) with (setInitialGitHubToNotionIdMap_loop l m0).
    rewrite IH, dom_insert_L. set_solver.
Qed.

(** [setInitialGitHubToNotionIdMap] stores in the global what the loop
    makes of the pairs that [getStarsFromNotionDatabase] returned. *)
Lemma setInitialGitHubToNotionIdMap_runs_loop (svc : Services) (fuel page_size : nat)
    (key : string) (st st1 : State) (currentStars : list CurrentStar) :
  getStarsFromNotionDatabase svc fuel page_size key st = (Ok currentStars, st1) ->
  setInitialGitHubToNotionIdMap svc fuel page_size key st
  = (Ok tt, {| trace := trace st1;
               idMap := setInitialGitHubToNotionIdMap_loop currentStars (idMap st1);
               calls := calls st1; heap := heap st1 |}).
Proof. intros Hread. unfold setInitialGitHubToNotionIdMap, bind. by rewrite Hread. Qed.

(** C5: for a destination snapshot whose [starId]s are pairwise distinct,
    the index built by [setInitialGitHubToNotionIdMap] maps the [starId] of
    every pair to the [pageId] of that pair, and it has as many keys as
    the snapshot has distinct [starId]s. *)
Theorem C5_index_of_unique_snapshot (currentStars : list CurrentStar) :
  NoDup (map starId currentStars) ->
  (∀ cs, cs ∈ currentStars ->
     identityIndex currentStars !! starId cs = Some (pageId cs)) ∧
  size (identityIndex currentStars)
  = size (list_to_set (map starId currentStars) : gset Z) ∧
  size (identityIndex currentStars) = length currentStars.
Proof.
  intros Hnd.
  assert (Hdom : dom (identityIndex currentStars)
                 = list_to_set (map starId currentStars)).
  { unfold identityIndex. rewrite index_loop_dom. set_solver. }
  split; [|split].
  - intros cs Hcs. apply list_elem_of_split in Hcs as (l1 & l2 & ->).
    unfold identityIndex. apply index_loop_last.
    intros c Hc Heq. rewrite map_app in Hnd. cbn in Hnd.
    apply NoDup_app in Hnd as (_ & _ & Hnd).
    apply NoDup_cons in Hnd as [Hnd _]. apply Hnd.
    rewrite <- Heq. apply list_elem_of_fmap. by exists c.
  - by rewrite <- size_dom, Hdom.
  - rewrite <- size_dom, Hdom, size_list_to_set by done. apply length_map.
Qed.

Lemma C5_index_of_unique_snapshot_witness :
  NoDup (map starId snapshot_unique) ∧
  identityIndex snapshot_unique !! 42%Z = Some "p1" ∧
  size (identityIndex snapshot_unique) = 2.
Proof.
  assert (Hnd : NoDup (map starId snapshot_unique)).
  { cbn. repeat constructor; set_solver. }
  split; [exact Hnd|].
  destruct (C5_index_of_unique_snapshot snapshot_unique Hnd) as (Hl & _ & Hs).
  split; [|exact Hs].
  apply (Hl {| pageId := "p1"; starId := 42 |}). left.
Defined.

(** C9: when a destination snapshot holds two (or more) pairs with the same
    [starId], the index maps that id to the [pageId] of the pair that comes
    last in the snapshot. *)
Theorem C9_duplicate_last_wins (l0 l1 l2 : list CurrentStar) (c1 c2 : CurrentStar) :
  starId c1 = starId c2 ->
  (∀ c, c ∈ l2 -> starId c ≠ starId c2) ->
  identityIndex (l0 ++ c1 :: l1 ++ c2 :: l2) !! starId c2 = Some (pageId c2).
Proof.
  intros _ Hl2. unfold identityIndex.
  replace (l0 ++ c1 :: l1 ++ c2 :: l2) with ((l0 ++ c1 :: l1) ++ c2 :: l2)
    by (by rewrite <- app_assoc).
  by apply index_loop_last.
Qed.

Lemma C9_duplicate_last_wins_witness :
  identityIndex [ {| pageId := "old"; starId := 42 |};
                  {| pageId := "p7"; starId := 7 |};
                  {| pageId := "new"; starId := 42 |} ] !! 42%Z = Some "new".
Proof.
  apply (C9_duplicate_last_wins [] [ {| pageId := "p7"; starId := 7 |} ] []
           {| pageId := "old"; starId := 42 |} {| pageId := "new"; starId := 42 |}).
  - reflexivity.
  - intros c Hc. by apply elem_of_nil in Hc.
Defined.

(** ** Reconciler *)

Lemma getNotionOperations_step_known (index : gmap Z string) (acc : Operations)
    (s : Star) :
  getNotionOperations_step index acc s
  = match known_page index s with
    | Some p =>
        {| pagesToCreate := pagesToCreate acc;
           pagesToUpdate := pagesToUpdate acc ++ [{| upd_star := s; upd_pageId := p |}] |}
    | None =>
        {| pagesToCreate := pagesToCreate acc ++ [s];
           pagesToUpdate := pagesToUpdate acc |}
    end.
Proof.
  unfold getNotionOperations_step, known_page.
  destruct (index !! star_id s) as [p|]; [|done].
  by destruct (Js.truthy_string p).
Qed.

Lemma getNotionOperations_fold (index : gmap Z string) (stars : list Star)
    (acc : Operations) :
  fold_left (getNotionOperations_step index) stars acc
  = {| pagesToCreate :=
         pagesToCreate acc ++ filter (fun s => known_page index s = None) stars;
       pagesToUpdate := pagesToUpdate acc ++ omap (with_page index) stars |}.
Proof.
  revert acc. induction stars as [|s stars IH]; intros acc; cbn [fold_left].
  - rewrite filter_nil. cbn. rewrite !app_nil_r. by destruct acc.
  - rewrite IH, getNotionOperations_step_known.
    cbn [omap list_omap]. unfold with_page at 2.
    destruct (known_page index s) as [p|] eqn:Hk.
    + rewrite filter_cons_False by (by rewrite Hk). cbn. by rewrite <- app_assoc.
    + rewrite filter_cons_True by done. cbn. by rewrite <- app_assoc.
Qed.

(** What [getNotionOperations] returns, for any index: the records that the
    test [if (pageId)] rejects, and the others with their page id. *)
Lemma getNotionOperations_spec (index : gmap Z string) (stars : list Star) :
  pagesToCreate (getNotionOperations index stars)
  = filter (fun s => known_page index s = None) stars ∧
  pagesToUpdate (getNotionOperations index stars) = omap (with_page index) stars.
Proof. unfold getNotionOperations. by rewrite getNotionOperations_fold. Qed.

Lemma known_page_nonempty (index : gmap Z string) (s : Star) :
  page_ids_nonempty index -> known_page index s = index !! star_id s.
Proof.
  intros Hne. unfold known_page.
  destruct (index !! star_id s) as [p|] eqn:Hp; [|done].
  unfold Js.truthy_string. rewrite bool_decide_eq_true_2; [done|]. by eapply Hne.
Qed.

Lemma updates_follow_input (index : gmap Z string) (stars : list Star) :
  map upd_star (omap (with_page index) stars)
  = filter (fun s => is_Some (known_page index s)) stars.
Proof.
  induction stars as [|s stars IH]; [done|].
  cbn [omap list_omap]. unfold with_page at 1.
  destruct (known_page index s) as [p|] eqn:Hk.
  - rewrite filter_cons_True by (rewrite Hk; eauto). cbn. by rewrite <- IH.
  - rewrite filter_cons_False; [done|]. rewrite Hk. by intros [? ?].
Qed.

Lemma operations_permutation (index : gmap Z string) (stars : list Star) :
  stars ≡ₚ filter (fun s => known_page index s = None) stars
           ++ map upd_star (omap (with_page index) stars).
Proof.
  induction stars as [|s stars IH]; [done|].
  cbn [omap list_omap]. unfold with_page at 1.
  destruct (known_page index s) as [p|] eqn:Hk.
  - rewrite filter_cons_False by (by rewrite Hk). cbn.
    rewrite <- Permutation_middle. by constructor.
  - rewrite filter_cons_True by done. cbn. by constructor.
Qed.

(** The identity index is filled by [setInitialGitHubToNotionIdMap] only,
    with the [id] of pages that Notion returned: when those ids are not
    empty, no page id of the index is. *)
Lemma index_loop_page_ids_nonempty (l : list CurrentStar) (m : gmap Z string) :
  Forall (fun c => pageId c ≠ "") l ->
  page_ids_nonempty m ->
  page_ids_nonempty (setInitialGitHubToNotionIdMap_loop l m).
Proof.
  revert m. induction l as [|c l IH]; intros m Hall Hm; [done|].
  apply Forall_cons in Hall as [Hc Hall]. cbn.
  change (fold_left _ l ?m0) with (setInitialGitHubToNotionIdMap_loop l m0).
  apply IH; [done|]. intros k p [[_ <-]|[_ Hk]]%lookup_insert_Some; [done|].
  by eapply Hm.
Qed.

Lemma identityIndex_page_ids_nonempty (currentStars : list CurrentStar) :
  Forall (fun c => pageId c ≠ "") currentStars ->
  page_ids_nonempty (identityIndex currentStars).
Proof.
  intros Hall. apply index_loop_page_ids_nonempty; [done|].
  intros k p Hk. by rewrite lookup_empty in Hk.
Qed.

(** C1: for every source snapshot and every identity index,
    [getNotionOperations] partitions the snapshot exactly: [pagesToCreate]
    holds, in input order, the records whose id is not a key of the index,
    [pagesToUpdate] holds, in input order, the others, each with the page
    id the index maps its id to, and every record is in exactly one of the
    two lists.  An identity index maps star ids to ids of Notion pages,
    which are never empty: that is [page_ids_nonempty], and
    [identityIndex_page_ids_nonempty] shows it of the index the code
    builds. *)
Theorem C1_reconciler_partitions (index : gmap Z string) (stars : list Star) :
  page_ids_nonempty index ->
  partitions_exactly index stars (getNotionOperations index stars).
Proof.
  intros Hne.
  destruct (getNotionOperations_spec index stars) as [Hc Hu].
  assert (Hk : ∀ s, known_page index s = index !! star_id s)
    by (intros s; by apply known_page_nonempty).
  assert (Hmem : ∀ u, u ∈ pagesToUpdate (getNotionOperations index stars) ->
                      index !! star_id (upd_star u) = Some (upd_pageId u)).
  { intros u. rewrite Hu. intros (s & _ & Hs)%list_elem_of_omap.
    unfold with_page in Hs. rewrite Hk in Hs.
    destruct (index !! star_id s) as [p|] eqn:Hp; [|done].
    cbn in Hs. by injection Hs as <-. }
  unfold partitions_exactly. rewrite Hc, Hu. repeat split.
  - apply list_filter_iff. intros s. by rewrite Hk.
  - rewrite updates_follow_input. apply list_filter_iff. intros s. by rewrite Hk.
  - by rewrite <- Hu.
  - apply operations_permutation.
  - intros s [Hs _]%list_elem_of_filter (u & -> & Hin)%list_elem_of_fmap.
    rewrite <- Hu in Hin. apply Hmem in Hin. rewrite Hk in Hs. congruence.
Qed.

(** The scenario of the specification: one destination record
    [{recordId: "p1", externalId: 42}] and the snapshot [[42; 99]]. *)
Lemma C1_reconciler_partitions_witness :
  page_ids_nonempty {[ 42%Z := "p1" ]} ∧
  partitions_exactly {[ 42%Z := "p1" ]} [star_42; star_99]
    {| pagesToCreate := [star_99];
       pagesToUpdate := [ {| upd_star := star_42; upd_pageId := "p1" |} ] |}.
Proof.
  assert (Hne : page_ids_nonempty ({[ 42%Z := "p1" ]} : gmap Z string)).
  { intros k p [_ <-]%lookup_singleton_Some. done. }
  split; [exact Hne|].
  exact (C1_reconciler_partitions {[ 42%Z := "p1" ]} [star_42; star_99] Hne).
Defined.

(** ** Field mapper *)

(** Case analysis on what the truthiness tests of the mapper look at. *)
Ltac optional_cases star :=
  destruct (star_homepage star) as [[|? ?]|];
  destruct (star_description star) as [[|? ?]|];
  destruct (star_language star) as [[|? ?]|];
  destruct (star_labels star) as [[|? ?]|].

Lemma current_item_lookup (star : Star) (key : string) (v : Property) :
  Current.getPropertiesFromStar star !! key = Some v
  <-> Current.item star !! key = Some v ∧ v ≠ PNull.
Proof.
  unfold Current.getPropertiesFromStar. rewrite map_lookup_filter_Some. cbn.
  split; intros [H1 H2]; (split; [done|]); by destruct v.
Qed.

(** In [Current] no key is ever bound to [null]. *)
Lemma current_no_null (star : Star) (key : string) :
  Current.getPropertiesFromStar star !! key ≠ Some PNull.
Proof. intros H. apply current_item_lookup in H as [_ H]. done. Qed.

(** In [Current] the three optional strings are left out when falsy. *)
Lemma current_optional_strings (star : Star) :
  (Js.truthy (star_homepage star) = false ->
   Current.getPropertiesFromStar star !! "Homepage" = None) ∧
  (Js.truthy (star_description star) = false ->
   Current.getPropertiesFromStar star !! "Description" = None) ∧
  (Js.truthy (star_language star) = false ->
   Current.getPropertiesFromStar star !! "Language" = None).
Proof.
  unfold Current.getPropertiesFromStar, Current.item.
  repeat split; intros H; optional_cases star; try discriminate H;
    vm_compute; reflexivity.
Qed.

(** In [Current] the key [Topics] is bound whenever [labels] is an array,
    empty or not. *)
Lemma current_topics (star : Star) :
  Current.getPropertiesFromStar star !! "Topics"
  = (fun labels => PMultiSelect (topic_names labels)) <$> star_labels star.
Proof.
  unfold Current.getPropertiesFromStar, Current.item.
  optional_cases star; vm_compute; reflexivity.
Qed.

(** [Legacy], the sibling revision, leaves all four optional keys out when
    the values are empty or absent. *)
Lemma legacy_optional_omitted (star : Star) :
  Js.truthy (star_homepage star) = false ->
  Js.truthy (star_description star) = false ->
  Js.truthy (star_language star) = false ->
  star_labels star = Some [] ->
  ∃ item, Legacy.getPropertiesFromStar star = Normal item ∧
    item !! "Homepage" = None ∧ item !! "Description" = None ∧
    item !! "Language" = None ∧ item !! "Topics" = None.
Proof.
  intros Hh Hd Hl Ht. unfold Legacy.getPropertiesFromStar.
  rewrite Hh, Hd, Hl, Ht. cbn. eexists. split; [reflexivity|].
  unfold Legacy.item. repeat split; vm_compute; reflexivity.
Qed.

(** C2, at the failing input: for the record [star_99] (empty description,
    empty homepage, empty topic list, no language) [Current] does leave out
    [Description], [Homepage] and [Language], yet it binds [Topics] to an
    empty multi-select; [Part001] returns the unfiltered object, with
    [Homepage] and [Description] bound to [null], [Language] to a select
    without a name and [Topics] to an empty multi-select. *)
Theorem C2_empty_optionals_not_omitted :
  star_description star_99 = Some "" ∧ star_homepage star_99 = Some "" ∧
  star_labels star_99 = Some [] ∧ star_language star_99 = None ∧
  Current.getPropertiesFromStar star_99 !! "Description" = None ∧
  Current.getPropertiesFromStar star_99 !! "Homepage" = None ∧
  Current.getPropertiesFromStar star_99 !! "Language" = None ∧
  Current.getPropertiesFromStar star_99 !! "Topics" = Some (PMultiSelect []) ∧
  Part001.getPropertiesFromStar star_99 !! "Homepage" = Some PNull ∧
  Part001.getPropertiesFromStar star_99 !! "Description" = Some PNull ∧
  Part001.getPropertiesFromStar star_99 !! "Language" = Some (PSelect VNull) ∧
  Part001.getPropertiesFromStar star_99 !! "Topics" = Some (PMultiSelect []).
Proof. repeat split; vm_compute; reflexivity. Qed.

(** [Part001] binds the four optional keys for every record, to [null]
    when the tested value is falsy. *)
Lemma part001_optional_always_bound (star : Star) :
  is_Some (Part001.getPropertiesFromStar star !! "Homepage") ∧
  is_Some (Part001.getPropertiesFromStar star !! "Description") ∧
  Part001.getPropertiesFromStar star !! "Language"
  = Some (PSelect (of_nullable (star_language star))) ∧
  is_Some (Part001.getPropertiesFromStar star !! "Topics").
Proof.
  unfold Part001.getPropertiesFromStar, Part001.item.
  repeat split; optional_cases star; vm_compute; eauto.
Qed.

(** C6: for every record, whatever its optional fields, the property set
    of [Current] binds [Name], [Star ID] (the reconciliation key), [URL],
    [Starred], [Created] and [Pushed], and that of [Part001] binds [Name],
    [ID], [URL], [Starred], [Created] and [Pushed]. *)
Theorem C6_required_fields_present (star : Star) :
  (Current.getPropertiesFromStar star !! "Name" = Some (PTitle (VStr (star_title star))) ∧
   Current.getPropertiesFromStar star !! "Star ID" = Some (PNumber (VNum (star_id star))) ∧
   Current.getPropertiesFromStar star !! "URL" = Some (PUrl (VStr (star_url star))) ∧
   Current.getPropertiesFromStar star !! "Starred" = Some (PDate (VStr (star_starred star))) ∧
   Current.getPropertiesFromStar star !! "Created" = Some (PDate (VStr (star_created star))) ∧
   Current.getPropertiesFromStar star !! "Pushed"
   = Some (PDate (of_nullable (star_pushed star)))) ∧
  (Part001.getPropertiesFromStar star !! "Name" = Some (PTitle (VStr (star_title star))) ∧
   Part001.getPropertiesFromStar star !! "ID" = Some (PNumber (VNum (star_id star))) ∧
   Part001.getPropertiesFromStar star !! "URL" = Some (PUrl (VStr (star_url star))) ∧
   Part001.getPropertiesFromStar star !! "Starred" = Some (PDate (VStr (star_starred star))) ∧
   Part001.getPropertiesFromStar star !! "Created" = Some (PDate (VStr (star_created star))) ∧
   Part001.getPropertiesFromStar star !! "Pushed"
   = Some (PDate (of_nullable (star_pushed star)))).
Proof.
  split.
  - repeat split; apply current_item_lookup; (split; [|done]);
      unfold Current.item; vm_compute; reflexivity.
  - unfold Part001.getPropertiesFromStar, Part001.item.
    repeat split; vm_compute; reflexivity.
Qed.

(** [Legacy] differs: its URL key is [Repo URL] and it has no [Pushed]. *)
Lemma legacy_required_fields (star : Star) (item : gmap string Property) :
  Legacy.getPropertiesFromStar star = Normal item ->
  item !! "Name" = Some (PTitle (VStr (star_title star))) ∧
  item !! "Repository ID" = Some (PNumber (VNum (star_id star))) ∧
  item !! "Repo URL" = Some (PUrl (VStr (star_url star))) ∧
  item !! "Starred" = Some (PDate (VStr (star_starred star))) ∧
  item !! "Created" = Some (PDate (VStr (star_created star))) ∧
  item !! "URL" = None ∧ item !! "Pushed" = None.
Proof.
  unfold Legacy.getPropertiesFromStar, Legacy.item.
  destruct (Js.truthy (star_homepage star)), (Js.truthy (star_language star)),
    (Js.truthy (star_description star)), (star_labels star) as [[|? ?]|];
    cbn [length Nat.ltb Nat.leb]; intros [= <-];
    repeat split; vm_compute; reflexivity.
Qed.

(** C10: in [Legacy], for every record with a truthy [homepage], the
    [Homepage] property of the returned object is [{ url }] with the
    record's [url] field, not its [homepage]; the call returns unless
    [labels] is not an array, when [Object.keys] throws. *)
Theorem C10_legacy_homepage_is_repo_url (star : Star) :
  Js.truthy (star_homepage star) = true ->
  match Legacy.getPropertiesFromStar star with
  | Normal item => item !! "Homepage" = Some (PUrl (VStr (star_url star)))
  | Abrupt e => e = TypeError ∧ star_labels star = None
  end.
Proof.
  intros Hh. unfold Legacy.getPropertiesFromStar, Legacy.item. rewrite Hh.
  destruct (Js.truthy (star_language star)), (Js.truthy (star_description star)),
    (star_labels star) as [[|? ?]|]; cbn [length Nat.ltb Nat.leb];
    first [ done | vm_compute; reflexivity ].
Qed.

Lemma C10_legacy_homepage_is_repo_url_witness :
  Js.truthy (star_homepage star_42) = true ∧
  star_homepage star_42 = Some "https://x.example" ∧
  ∃ item, Legacy.getPropertiesFromStar star_42 = Normal item ∧
          item !! "Homepage" = Some (PUrl (VStr "https://github.com/o/x")).
Proof.
  split; [reflexivity|]. split; [reflexivity|].
  eexists. split; [reflexivity|].
  exact (C10_legacy_homepage_is_repo_url star_42 eq_refl).
Defined.

(** ** Batching *)

Lemma div_ceil_zero (b : nat) : 0 < b -> div_ceil 0 b = 0.
Proof. intros Hb. unfold div_ceil. apply Nat.div_small. lia. Qed.

Lemma div_ceil_small (n b : nat) : 0 < n -> n <= b -> div_ceil n b = 1.
Proof.
  intros Hn Hb. unfold div_ceil.
  symmetry. apply (Nat.div_unique _ _ _ (n - 1)); lia.
Qed.

Lemma div_ceil_step (n b : nat) : 0 < b -> b < n -> div_ceil n b = S (div_ceil (n - b) b).
Proof.
  intros Hb Hn. unfold div_ceil.
  replace (n + b - 1) with ((n - b + b - 1) + 1 * b) by lia.
  rewrite Nat.div_add by lia. lia.
Qed.

Lemma last_batch_size_small (n b : nat) : 0 < n -> n <= b -> last_batch_size n b = n.
Proof.
  intros Hn Hb. unfold last_batch_size.
  destruct (decide (n = b)) as [->|Hne].
  - rewrite Nat.Div0.mod_same. done.
  - rewrite Nat.mod_small by lia. destruct n; [lia|done].
Qed.

Lemma last_batch_size_step (n b : nat) :
  0 < b -> b < n -> last_batch_size n b = last_batch_size (n - b) b.
Proof.
  intros Hb Hn. unfold last_batch_size.
  replace (n mod b) with ((n - b) mod b); [done|].
  replace n with ((n - b) + 1 * b) at 2 by lia. by rewrite Nat.Div0.mod_add.
Qed.

Section chunk_facts.

Context {A : Type}.
Implicit Types (rest array batch : list A) (size fuel : nat).

Lemma chunk_loop_nil fuel size : chunk_loop fuel size (@nil A) = [].
Proof. by destruct fuel. Qed.

Lemma chunk_loop_concat fuel size rest :
  0 < size -> length rest <= fuel -> concat (chunk_loop fuel size rest) = rest.
Proof.
  intros Hs. revert rest.
  induction fuel as [|fuel IH]; intros rest Hf.
  - destruct rest; [done|cbn in Hf; lia].
  - destruct rest as [|x rest]; [done|].
    cbn [chunk_loop concat]. rewrite IH.
    + apply take_drop.
    + rewrite length_drop. cbn [length] in *. lia.
Qed.

Lemma chunk_loop_length fuel size rest :
  0 < size -> length rest <= fuel ->
  length (chunk_loop fuel size rest) = div_ceil (length rest) size.
Proof.
  intros Hs. revert rest.
  induction fuel as [|fuel IH]; intros rest Hf.
  - destruct rest; [|cbn in Hf; lia]. cbn. by rewrite div_ceil_zero.
  - destruct rest as [|x rest]; [cbn; by rewrite div_ceil_zero|].
    cbn [chunk_loop length]. rewrite IH by (rewrite length_drop; cbn [length] in *; lia).
    rewrite length_drop. change (length (x :: rest)) with (S (length rest)).
    destruct (decide (S (length rest) <= size)) as [Hle|Hgt].
    + replace (S (length rest) - size) with 0 by lia.
      rewrite div_ceil_zero, div_ceil_small by lia. done.
    + rewrite (div_ceil_step (S (length rest))) by lia. done.
Qed.

Lemma chunk_loop_sizes fuel size rest i batch :
  0 < size -> length rest <= fuel ->
  chunk_loop fuel size rest !! i = Some batch ->
  if decide (S i = length (chunk_loop fuel size rest))
  then length batch = last_batch_size (length rest) size
  else length batch = size.
Proof.
  intros Hs. revert rest i.
  induction fuel as [|fuel IH]; intros rest i Hf Hi.
  - by destruct rest.
  - destruct rest as [|x rest]; [done|].
    set (l := x :: rest) in *.
    assert (Hl : 0 < length l) by (cbn; lia).
    assert (Hdl : length (drop size l) = length l - size) by apply length_drop.
    assert (Hd : length (drop size l) <= fuel) by lia.
    change (chunk_loop (S fuel) size l)
      with (take size l :: chunk_loop fuel size (drop size l)) in *.
    pose proof (chunk_loop_length fuel size (drop size l) Hs Hd) as Hlen.
    rewrite Hdl in Hlen. cbn [length]. rewrite Hlen.
    destruct i as [|i].
    + cbn in Hi. injection Hi as <-. rewrite length_take.
      destruct (decide (length l <= size)) as [Hle|Hgt].
      * replace (length l - size) with 0 by lia.
        rewrite div_ceil_zero by done. rewrite decide_True by done.
        rewrite last_batch_size_small by lia. lia.
      * rewrite decide_False; [lia|].
        assert (0 < div_ceil (length l - size) size); [|lia].
        destruct (decide (length l - size <= size)).
        -- rewrite div_ceil_small by lia. lia.
        -- rewrite div_ceil_step by lia. lia.
    + cbn in Hi. pose proof (IH _ _ Hd Hi) as IHi.
      rewrite Hlen, Hdl in IHi.
      assert (Hgt : size < length l).
      { apply lookup_lt_Some in Hi. rewrite Hlen in Hi.
        destruct (decide (size < length l)); [done|].
        replace (length l - size) with 0 in Hi by lia.
        rewrite div_ceil_zero in Hi by done. lia. }
      rewrite (last_batch_size_step (length l)) by lia.
      destruct (decide (S i = div_ceil (length l - size) size)).
      * rewrite decide_True by lia. done.
      * rewrite decide_False by lia. done.
Qed.

Lemma chunk_unfold array size :
  0 < size -> chunk array size = chunk_loop (length array) size array.
Proof.
  intros Hs. unfold chunk. destruct array as [|x array]; [done|].
  cbn [length Nat.eqb orb]. destruct size; [lia|done].
Qed.

(** What [_.chunk] hands the loops of the writer, for a batch size
    [B > 0]: [ceil(N / B)] batches, consecutive pieces of the list, every
    one of [B] operations but the last, which has [N mod B] operations
    when [B] does not divide [N] and [B] when it does. *)
Lemma chunk_batches (operations : list A) (B : nat) :
  B > 0 ->
  batches_of_size (chunk operations B) (length operations) B ∧
  concat (chunk operations B) = operations.
Proof.
  intros HB. unfold batches_of_size.
  rewrite chunk_unfold by lia. repeat split.
  - by apply chunk_loop_length.
  - intros i batch Hi. by apply (chunk_loop_sizes _ _ _ _ _ HB (le_n _) Hi).
  - by apply chunk_loop_concat.
Qed.

End chunk_facts.

(** ** Writer *)

Lemma add_events_nil (st : State) : add_events st [] = st.
Proof. destruct st. unfold add_events. cbn. by rewrite app_nil_r. Qed.

Lemma writes_app (t1 t2 : list Event) : writes (t1 ++ t2) = writes t1 ++ writes t2.
Proof. apply filter_app. Qed.

Section write_facts.

Context (svc : Services) {A : Type}.
Context (mapper : A -> Completion (gmap string Property)).
Context (event : A -> gmap string Property -> Event).
Context (props : A -> gmap string Property).
Context (announce : list A -> M unit).

Hypothesis event_is_write : ∀ x p, is_write (event x p) = true.
Hypothesis announce_quiet :
  ∀ batch st, ∃ events,
    announce batch st = (Ok tt, add_events st events) ∧ writes events = [] ∧
    completed_batches events = [].

Local Abbreviation request := (request_via svc mapper event).
Local Abbreviation sent batch := (map (fun x => event x (props x)) batch).

Lemma writes_sent (batch : list A) : writes (sent batch) = sent batch.
Proof.
  induction batch as [|x batch IH]; [done|].
  unfold writes in *. cbn [map]. rewrite filter_cons_True by apply event_is_write.
  by rewrite IH.
Qed.

Lemma completed_sent (batch : list A) : completed_batches (sent batch) = [].
Proof.
  induction batch as [|x batch IH]; [done|].
  unfold completed_batches in *. cbn [map omap list_omap].
  pose proof (event_is_write x (props x)) as Hw.
  destruct (event x (props x)); try discriminate Hw; exact IH.
Qed.

(** Mapping the callback over a batch sends one request per operation, in
    order, before any promise is awaited. *)
Lemma mapM_request (batch : list A) (st : State) :
  (∀ x, x ∈ batch -> mapper x = Normal (props x)) ->
  mapM request batch st
  = (Ok (map (settle svc) (seq (calls st) (length batch))),
     {| trace := trace st ++ sent batch; idMap := idMap st;
        calls := calls st + length batch; heap := heap st |}).
Proof.
  revert st. induction batch as [|x batch IH]; intros st Hm.
  - cbn. unfold ret. destruct st. cbn. by rewrite app_nil_r, Nat.add_0_r.
  - cbn [mapM]. unfold bind at 1. unfold request_via at 1.
    rewrite (Hm x) by left. cbn [of_completion]. unfold bind at 1, ret at 1.
    unfold notion_write. unfold bind at 1.
    rewrite IH by (intros y Hy; apply Hm; by right).
    unfold ret. cbn [trace idMap calls heap length seq map].
    rewrite <- app_assoc. cbn [app]. by rewrite Nat.add_succ_r.
Qed.

Lemma promise_all_fulfilled (c k : nat) (st : State) :
  (∀ n, c <= n < c + k -> write_rejects svc n = false) ->
  promise_all (map (settle svc) (seq c k)) st = (Ok tt, st).
Proof.
  revert c. induction k as [|k IH]; intros c Hok; [done|].
  cbn. unfold settle at 1. rewrite Hok by lia. apply IH. intros n Hn. apply Hok. lia.
Qed.

Lemma promise_all_rejected (c k : nat) (st : State) :
  (∃ n, c <= n < c + k ∧ write_rejects svc n = true) ->
  ∃ n, c <= n < c + k ∧ write_rejects svc n = true ∧
       promise_all (map (settle svc) (seq c k)) st = (Thrown (APIResponseError n), st).
Proof.
  revert c. induction k as [|k IH]; intros c (n & Hn & Hrej); [lia|].
  cbn. unfold settle at 1.
  destruct (write_rejects svc c) eqn:Hc.
  - exists c. split; [lia|]. split; done.
  - destruct (IH (S c)) as (m & Hm & Hmr & Hp).
    + exists n. split; [|done]. destruct (decide (n = c)); [congruence|lia].
    + exists m. split; [lia|]. split; done.
Qed.

Lemma write_batches_cons (batch : list A) (rest : list (list A)) (st : State) :
  write_batches request announce (batch :: rest) st
  = match announce batch st with
    | (Ok _, st1) =>
        match mapM request batch st1 with
        | (Ok promises, st2) =>
            match promise_all promises st2 with
            | (Ok _, st3) =>
                write_batches request announce rest
                  (add_events st3 [EvConsoleLog (MsgCompletedBatch (length batch))])
            | (Thrown e, st3) => (Thrown e, st3)
            | (Exited c, st3) => (Exited c, st3)
            | (OutOfFuel, st3) => (OutOfFuel, st3)
            end
        | (Thrown e, st2) => (Thrown e, st2)
        | (Exited c, st2) => (Exited c, st2)
        | (OutOfFuel, st2) => (OutOfFuel, st2)
        end
    | (Thrown e, st1) => (Thrown e, st1)
    | (Exited c, st1) => (Exited c, st1)
    | (OutOfFuel, st1) => (OutOfFuel, st1)
    end.
Proof.
  unfold write_batches. cbn [for_of]. unfold bind.
  destruct (announce batch st) as [[[]| | |] st1]; try done.
  destruct (mapM request batch st1) as [[promises| | |] st2]; try done.
  destruct (promise_all promises st2) as [[[]| | |] st3]; done.
Qed.

(** A batch without a rejected call: all its requests are sent and the loop
    goes on to the next batch. *)
Lemma batch_fulfilled (batch : list A) (rest : list (list A)) (st : State) :
  (∀ x, x ∈ batch -> mapper x = Normal (props x)) ->
  (∀ n, calls st <= n < calls st + length batch -> write_rejects svc n = false) ->
  ∃ st1, write_batches request announce (batch :: rest) st
         = write_batches request announce rest st1 ∧
         calls st1 = calls st + length batch ∧
         writes (trace st1) = writes (trace st) ++ sent batch ∧
         completed_batches (trace st1) = completed_batches (trace st) ++ [length batch].
Proof.
  intros Hm Hok. rewrite write_batches_cons.
  destruct (announce_quiet batch st) as (events & -> & Hq & Hq').
  rewrite mapM_request by done. cbn [calls add_events].
  rewrite promise_all_fulfilled by done.
  eexists. split; [reflexivity|]. split; [done|].
  cbn [trace add_events]. split.
  - rewrite !writes_app, Hq, writes_sent. cbn. by rewrite !app_nil_r.
  - unfold completed_batches in *. rewrite !omap_app, Hq'.
    fold (completed_batches (sent batch)). rewrite completed_sent. cbn.
    by rewrite !app_nil_r.
Qed.

(** A batch with a rejected call: all its requests are sent all the same,
    then the await throws and the loop is left. *)
Lemma batch_rejected (batch : list A) (rest : list (list A)) (st : State) :
  (∀ x, x ∈ batch -> mapper x = Normal (props x)) ->
  (∃ n, calls st <= n < calls st + length batch ∧ write_rejects svc n = true) ->
  ∃ n st1, write_batches request announce (batch :: rest) st
           = (Thrown (APIResponseError n), st1) ∧
           write_rejects svc n = true ∧
           writes (trace st1) = writes (trace st) ++ sent batch.
Proof.
  intros Hm Hrej. rewrite write_batches_cons.
  destruct (announce_quiet batch st) as (events & -> & Hq & _).
  rewrite mapM_request by done. cbn [calls add_events].
  edestruct promise_all_rejected as (n & Hn & Hr & ->); [exact Hrej|].
  exists n. eexists. split; [reflexivity|]. split; [done|].
  cbn [trace add_events]. rewrite !writes_app, Hq, writes_sent.
  by rewrite app_nil_r.
Qed.

(** The loop stops at the first batch that holds a rejected call: the
    batches before it and that batch itself are sent in full, none of the
    later ones is. *)
Lemma write_batches_stop (pre post : list (list A)) (batch : list A) (st : State) :
  (∀ x, x ∈ concat pre ++ batch -> mapper x = Normal (props x)) ->
  (∀ n, calls st <= n < calls st + length (concat pre) -> write_rejects svc n = false) ->
  (∃ n, calls st + length (concat pre) <= n < calls st + length (concat pre) + length batch
        ∧ write_rejects svc n = true) ->
  ∃ n st', write_batches request announce (pre ++ batch :: post) st
           = (Thrown (APIResponseError n), st') ∧
           write_rejects svc n = true ∧
           writes (trace st') = writes (trace st) ++ sent (concat pre ++ batch).
Proof.
  revert st. induction pre as [|b pre IH]; intros st Hm Hok Hrej.
  - cbn in *. rewrite Nat.add_0_r in Hrej. by apply batch_rejected.
  - cbn [concat app] in *. rewrite length_app in Hok, Hrej.
    destruct (batch_fulfilled b (pre ++ batch :: post) st) as (st1 & -> & Hc & Hw & _).
    { intros x Hx. apply Hm. rewrite <- app_assoc. apply elem_of_app. by left. }
    { intros n Hn. apply Hok. lia. }
    destruct (IH st1) as (n & st' & -> & Hr & Hw').
    { intros x Hx. apply Hm. rewrite <- app_assoc. apply elem_of_app. by right. }
    { intros n Hn. apply Hok. lia. }
    { destruct Hrej as (n & Hn & Hr). exists n. split; [lia|done]. }
    exists n, st'. split; [done|]. split; [done|].
    rewrite Hw', Hw, !map_app, <- ?app_assoc. done.
Qed.

(** Without a rejected call every batch is sent and the loop returns. *)
Lemma write_batches_all (chunks : list (list A)) (st : State) :
  (∀ x, x ∈ concat chunks -> mapper x = Normal (props x)) ->
  (∀ n, calls st <= n < calls st + length (concat chunks) -> write_rejects svc n = false) ->
  ∃ st', write_batches request announce chunks st = (Ok tt, st') ∧
         writes (trace st') = writes (trace st) ++ sent (concat chunks) ∧
         completed_batches (trace st')
         = completed_batches (trace st) ++ map length chunks.
Proof.
  revert st. induction chunks as [|b chunks IH]; intros st Hm Hok.
  - exists st. split; [done|]. cbn. by rewrite !app_nil_r.
  - cbn [concat] in *. rewrite length_app in Hok.
    destruct (batch_fulfilled b chunks st) as (st1 & -> & Hc & Hw & Hb).
    { intros x Hx. apply Hm. apply elem_of_app. by left. }
    { intros n Hn. apply Hok. lia. }
    destruct (IH st1) as (st' & -> & Hw' & Hb').
    { intros x Hx. apply Hm. apply elem_of_app. by right. }
    { intros n Hn. apply Hok. lia. }
    exists st'. split; [done|]. split.
    + rewrite Hw', Hw, !map_app, <- ?app_assoc. done.
    + rewrite Hb', Hb. cbn [map]. by rewrite <- app_assoc.
Qed.

End write_facts.

Lemma quiet_ret {A} (batch : list A) (st : State) :
  ∃ events, ret tt st = (Ok tt, add_events st events) ∧ writes events = [] ∧
            completed_batches events = [].
Proof. exists []. by rewrite add_events_nil. Qed.

Lemma quiet_log (batch : list Star) (st : State) :
  ∃ events, console_log (MsgBatch batch) st = (Ok tt, add_events st events) ∧
            writes events = [] ∧ completed_batches events = [].
Proof. by exists [EvConsoleLog (MsgBatch batch)]. Qed.

Lemma legacy_createPages_unfold (size : nat) (svc : Services) (stars : list Star) :
  LegacyRun.createPages_sized size svc stars
  = try_catch
      (write_batches
         (request_via svc Legacy.getPropertiesFromStar (fun _ p => EvNotionCreate p))
         (fun _ => ret tt) (chunk stars size))
      (fun error => console_error (MsgCaught error)).
Proof. reflexivity. Qed.

Lemma current_createPages_unfold (size : nat) (svc : Services) (stars : list Star) :
  CurrentRun.createPages_sized size svc stars
  = write_batches
      (request_via svc CurrentRun.mapper (fun _ p => EvNotionCreate p))
      (fun batch => console_log (MsgBatch batch)) (chunk stars size).
Proof. reflexivity. Qed.

Lemma legacy_properties_normal (star : Star) :
  star_labels star ≠ None ->
  Legacy.getPropertiesFromStar star = Normal (legacy_properties star).
Proof.
  intros Hlabels. unfold legacy_properties, Legacy.getPropertiesFromStar.
  destruct (star_labels star) as [labels|]; [|done].
  by destruct (Nat.ltb 0 (length labels)).
Qed.

(** C4 (amended): when a call of some batch of [createPages] is rejected,
    the batches before it and every operation of that batch have been
    sent, and no operation of a later batch is.  In [Current], which has no
    [try], the error leaves [createPages] as an exception.  In [Legacy],
    which wraps the loop in [try]/[catch], the error is caught and printed
    and [createPages] returns normally; this is stated for operations on
    which the mapper of [Legacy] does not throw, that is, whose [labels] is
    an array. *)
Theorem C4_rejected_call_ends_the_loop (svc : Services) (size : nat)
    (pagesToCreate : list Star) (pre post : list (list Star)) (batch : list Star)
    (st : State) :
  chunk pagesToCreate size = pre ++ batch :: post ->
  (∀ n, calls st <= n < calls st + length (concat pre) -> write_rejects svc n = false) ->
  (∃ n, calls st + length (concat pre) <= n
          < calls st + length (concat pre) + length batch
        ∧ write_rejects svc n = true) ->
  ((∀ s, s ∈ concat pre ++ batch -> star_labels s ≠ None) ->
   ∃ n st', LegacyRun.createPages_sized size svc pagesToCreate st = (Ok tt, st') ∧
            write_rejects svc n = true ∧
            last (trace st') = Some (EvConsoleError (MsgCaught (APIResponseError n))) ∧
            writes (trace st')
            = writes (trace st)
              ++ map (fun s => EvNotionCreate (legacy_properties s))
                     (concat pre ++ batch)) ∧
  (∃ n st', CurrentRun.createPages_sized size svc pagesToCreate st
            = (Thrown (APIResponseError n), st') ∧
            write_rejects svc n = true ∧
            writes (trace st')
            = writes (trace st)
              ++ map (fun s => EvNotionCreate (Current.getPropertiesFromStar s))
                     (concat pre ++ batch)).
Proof.
  intros Hchunk Hok Hrej. split.
  - intros Hlabels. rewrite legacy_createPages_unfold, Hchunk.
    destruct (write_batches_stop svc Legacy.getPropertiesFromStar
                (fun _ p => EvNotionCreate p) legacy_properties (fun _ => ret tt)
                (fun _ _ => eq_refl) quiet_ret pre post batch st
                (fun s Hs => legacy_properties_normal s (Hlabels s Hs)) Hok Hrej)
      as (n & st1 & Hrun & Hn & Hw).
    exists n. eexists. unfold try_catch. rewrite Hrun.
    split; [reflexivity|]. split; [done|]. cbn [trace]. split.
    + apply last_snoc.
    + rewrite writes_app, Hw. cbn. by rewrite app_nil_r.
  - rewrite current_createPages_unfold, Hchunk.
    destruct (write_batches_stop svc CurrentRun.mapper
                (fun _ p => EvNotionCreate p) Current.getPropertiesFromStar
                (fun batch => console_log (MsgBatch batch))
                (fun _ _ => eq_refl) quiet_log pre post batch st
                (fun _ _ => eq_refl) Hok Hrej)
      as (n & st1 & Hrun & Hn & Hw).
    by exists n, st1.
Qed.

Lemma C4_rejected_call_ends_the_loop_witness :
  (∃ n st', LegacyRun.createPages rejecting_first [star_42; star_99] initial_state
            = (Ok tt, st') ∧
            write_rejects rejecting_first n = true ∧
            last (trace st') = Some (EvConsoleError (MsgCaught (APIResponseError n))) ∧
            length (writes (trace st')) = 1) ∧
  (∃ n st', CurrentRun.createPages_sized 1 rejecting_first [star_42; star_99] initial_state
            = (Thrown (APIResponseError n), st') ∧
            length (writes (trace st')) = 1).
Proof.
  destruct (C4_rejected_call_ends_the_loop rejecting_first 1 [star_42; star_99]
              [] [[star_99]] [star_42] initial_state)
    as [Hlegacy (m & st'' & Hrun' & Hm & Hw')].
  - reflexivity.
  - cbn. intros n Hn. lia.
  - exists 0. cbn. split; [lia|reflexivity].
  - destruct Hlegacy as (n & st' & Hrun & Hn & Hlast & Hw).
    { intros s [->|[]%elem_of_nil]%elem_of_cons. discriminate. }
    split.
    + exists n, st'. split; [exact Hrun|]. split; [exact Hn|]. split; [exact Hlast|].
      rewrite Hw. reflexivity.
    + exists m, st''. split; [exact Hrun'|]. rewrite Hw'. reflexivity.
Defined.

(** C4 as stated fails: with the first write call rejected, [Legacy] sends
    one request for two records (batch size 1) and prints the error, and
    [Current] sends the ten requests of the first batch, never the
    eleventh, and ends with the exception. *)
Lemma C4_counterexample_later_batches_skipped :
  LegacyRun.createPages rejecting_first [star_42; star_99] initial_state
  = (Ok tt, {| trace := [ EvNotionCreate (<["Topics" := PMultiSelect [VStr "cli"]]>
                             (<["Description" := PRichText (VStr "a tool")]>
                             (<["Language" := PSelect (VStr "Go")]>
                             (<["Homepage" := PUrl (VStr "https://github.com/o/x")]>
                             (Legacy.item star_42)))));
                          EvConsoleError (MsgCaught (APIResponseError 0)) ];
               idMap := ∅; calls := 1; heap := ∅ |}) ∧
  ¬ dispatches_every_create (LegacyRun.createPages rejecting_first)
      [star_42; star_99] initial_state ∧
  (CurrentRun.createPages rejecting_first (replicate 10 star_42 ++ [star_99])
     initial_state).1 = Thrown (APIResponseError 0) ∧
  length (writes (trace (CurrentRun.createPages rejecting_first
                           (replicate 10 star_42 ++ [star_99]) initial_state).2)) = 10 ∧
  ¬ dispatches_every_create (CurrentRun.createPages rejecting_first)
      (replicate 10 star_42 ++ [star_99]) initial_state.
Proof.
  split; [reflexivity|]. split; [|split; [|split]].
  - unfold dispatches_every_create. vm_compute. discriminate.
  - vm_compute. reflexivity.
  - vm_compute. reflexivity.
  - unfold dispatches_every_create. vm_compute. discriminate.
Qed.

(** When no call is rejected the writer does issue the batches of
    [_.chunk], all of them and in order: [createPages] of [Current] returns
    normally, one create request has been sent per record, and the sizes it
    printed are those of the chunks. *)
Lemma current_createPages_fulfilled (svc : Services) (size : nat)
    (pagesToCreate : list Star) (st : State) :
  size > 0 ->
  (∀ n, calls st <= n < calls st + length pagesToCreate -> write_rejects svc n = false) ->
  ∃ st', CurrentRun.createPages_sized size svc pagesToCreate st = (Ok tt, st') ∧
         writes (trace st')
         = writes (trace st)
           ++ map (fun s => EvNotionCreate (Current.getPropertiesFromStar s)) pagesToCreate ∧
         completed_batches (trace st')
         = completed_batches (trace st) ++ map length (chunk pagesToCreate size) ∧
         length (map length (chunk pagesToCreate size))
         = div_ceil (length pagesToCreate) size.
Proof.
  intros Hsize Hok.
  assert (Hcat : concat (chunk pagesToCreate size) = pagesToCreate).
  { rewrite chunk_unfold by lia. by apply chunk_loop_concat. }
  assert (Hlen : length (chunk pagesToCreate size) = div_ceil (length pagesToCreate) size).
  { rewrite chunk_unfold by lia. by apply chunk_loop_length. }
  rewrite current_createPages_unfold.
  destruct (write_batches_all svc CurrentRun.mapper
              (fun _ p => EvNotionCreate p) Current.getPropertiesFromStar
              (fun batch => console_log (MsgBatch batch))
              (fun _ _ => eq_refl) quiet_log (chunk pagesToCreate size) st)
    as (st' & Hrun & Hw & Hb).
  - done.
  - by rewrite Hcat.
  - exists st'. rewrite Hcat in Hw. by rewrite length_map.
Qed.

Lemma legacy_updatePages_unfold (size : nat) (svc : Services)
    (pages : list PageToUpdate) :
  LegacyRun.updatePages_sized size svc pages
  = try_catch
      (write_batches
         (request_via svc (fun page => Legacy.getPropertiesFromStar (upd_star page))
                      (fun page p => EvNotionUpdate (upd_pageId page) p))
         (fun _ => ret tt) (chunk pages size))
      (fun error => console_error (MsgCaught error)).
Proof. reflexivity. Qed.

Lemma current_updatePages_unfold (size : nat) (svc : Services)
    (pages : list PageToUpdate) :
  CurrentRun.updatePages_sized size svc pages
  = write_batches
      (request_via svc (fun page => CurrentRun.mapper (upd_star page))
                   (fun page p => EvNotionUpdate (upd_pageId page) p))
      (fun _ => ret tt) (chunk pages size).
Proof. reflexivity. Qed.

(** [updatePages] has the same loop and stops in the same way. *)
Lemma updatePages_stop_at_rejected_call (svc : Services) (size : nat)
    (pagesToUpdate : list PageToUpdate) (pre post : list (list PageToUpdate))
    (batch : list PageToUpdate) (props : Star -> gmap string Property) (st : State) :
  chunk pagesToUpdate size = pre ++ batch :: post ->
  (∀ u, u ∈ concat pre ++ batch ->
        Legacy.getPropertiesFromStar (upd_star u) = Normal (props (upd_star u))) ->
  (∀ n, calls st <= n < calls st + length (concat pre) -> write_rejects svc n = false) ->
  (∃ n, calls st + length (concat pre) <= n
          < calls st + length (concat pre) + length batch
        ∧ write_rejects svc n = true) ->
  (∃ n st', LegacyRun.updatePages_sized size svc pagesToUpdate st = (Ok tt, st') ∧
            last (trace st') = Some (EvConsoleError (MsgCaught (APIResponseError n))) ∧
            writes (trace st')
            = writes (trace st)
              ++ map (fun u => EvNotionUpdate (upd_pageId u) (props (upd_star u)))
                     (concat pre ++ batch)) ∧
  (∃ n st', CurrentRun.updatePages_sized size svc pagesToUpdate st
            = (Thrown (APIResponseError n), st') ∧
            writes (trace st')
            = writes (trace st)
              ++ map (fun u => EvNotionUpdate (upd_pageId u)
                                 (Current.getPropertiesFromStar (upd_star u)))
                     (concat pre ++ batch)).
Proof.
  intros Hchunk Hprops Hok Hrej. split.
  - rewrite legacy_updatePages_unfold, Hchunk.
    destruct (write_batches_stop svc
                (fun page => Legacy.getPropertiesFromStar (upd_star page))
                (fun page p => EvNotionUpdate (upd_pageId page) p)
                (fun page => props (upd_star page)) (fun _ => ret tt)
                (fun _ _ => eq_refl) quiet_ret pre post batch st Hprops Hok Hrej)
      as (n & st1 & Hrun & Hn & Hw).
    exists n. eexists. unfold try_catch. rewrite Hrun.
    split; [reflexivity|]. cbn [trace]. split.
    + apply last_snoc.
    + rewrite writes_app, Hw. cbn. by rewrite app_nil_r.
  - rewrite current_updatePages_unfold, Hchunk.
    destruct (write_batches_stop svc
                (fun page => CurrentRun.mapper (upd_star page))
                (fun page p => EvNotionUpdate (upd_pageId page) p)
                (fun page => Current.getPropertiesFromStar (upd_star page))
                (fun _ => ret tt)
                (fun _ _ => eq_refl) quiet_ret pre post batch st
                (fun _ _ => eq_refl) Hok Hrej)
      as (n & st1 & Hrun & Hn & Hw).
    by exists n, st1.
Qed.

(** A whole run of [Legacy] on the scenario: the rejected create is caught
    and printed, and the run goes on to the update of page [p1]. *)
Example legacy_run_on_scenario :
  LegacyRun.main scenario 5 initial_state
  = (Ok tt,
     {| trace := [ EvNotionQuery 25 None;
                   EvConsoleLog (MsgFetchedFromNotion 1);
                   EvConsoleLog MsgFetching;
                   EvGitHubListStarred 100 0;
                   EvConsoleLog (MsgFetchedFromGitHub 2);
                   EvConsoleLog (MsgToCreate 1);
                   EvNotionCreate (legacy_properties star_99);
                   EvConsoleError (MsgCaught (APIResponseError 0));
                   EvConsoleLog (MsgToUpdate 1);
                   EvNotionUpdate "p1" (legacy_properties star_42);
                   EvConsoleLog (MsgCompletedBatch 1);
                   EvConsoleLog MsgSynced ];
        idMap := {[ 42%Z := "p1" ]}; calls := 2; heap := ∅ |}).
Proof. vm_compute. reflexivity. Qed.

(** The same run of [Current]: the rejected create ends the run with an
    unhandled rejection, and the update of page [p1] is never sent. *)
Example current_run_on_scenario :
  CurrentRun.main env_complete scenario 5 initial_state
  = (Thrown (APIResponseError 0),
     {| trace := [ EvNotionQuery 10 None;
                   EvConsoleLog (MsgFetchedFromNotion 1);
                   EvConsoleLog MsgFetching;
                   EvGitHubListStarred 100 0;
                   EvConsoleLog (MsgFetchedFromGitHub 2);
                   EvConsoleLog (MsgToCreate 1);
                   EvConsoleLog (MsgBatch [star_99]);
                   EvNotionCreate (Current.getPropertiesFromStar star_99) ];
        idMap := {[ 42%Z := "p1" ]}; calls := 1; heap := ∅ |}).
Proof. vm_compute. reflexivity. Qed.

(** *** The batches of a writer whose calls are all accepted *)

Section issued_batches.

Context (svc : Services) {A : Type}.
Context (mapper : A -> Completion (gmap string Property)).
Context (event : A -> gmap string Property -> Event).
Context (props : A -> gmap string Property).
Context (announce : list A -> M unit) (announced : list A -> list Event).

Hypothesis mapper_returns : ∀ x, mapper x = Normal (props x).
Hypothesis announce_prints :
  ∀ batch st, announce batch st = (Ok tt, add_events st (announced batch)).

(** Without a rejected call the loop takes every batch in turn: it prints
    what it announces, sends the requests of the batch, prints its size. *)
Lemma write_batches_issued (chunks : list (list A)) :
  ∀ st : State,
    (∀ n, calls st <= n < calls st + length (concat chunks) ->
          write_rejects svc n = false) ->
    issues_batches (write_batches (request_via svc mapper event) announce chunks)
      (fun batch => announced batch
                    ++ map (fun x => event x (props x)) batch
                    ++ [EvConsoleLog (MsgCompletedBatch (length batch))])
      chunks st.
Proof.
  unfold issues_batches.
  induction chunks as [|batch chunks IH]; intros st Hok.
  - destruct st. cbn. unfold ret. by rewrite app_nil_r, Nat.add_0_r.
  - cbn [concat] in Hok. rewrite length_app in Hok.
    rewrite write_batches_cons, announce_prints.
    rewrite (mapM_request svc mapper event props) by (intros; apply mapper_returns).
    cbn [calls add_events].
    rewrite promise_all_fulfilled by (intros n Hn; apply Hok; lia).
    rewrite IH by (cbn [calls add_events]; intros n Hn; apply Hok; lia).
    cbn [trace idMap calls heap add_events concat map].
    rewrite length_app, <- !app_assoc, Nat.add_assoc. reflexivity.
Qed.

End issued_batches.

(** C3 (amended): for every list of [N] operations and every batch size
    [B > 0], the batches that [_.chunk] hands the loops of [createPages] and
    [updatePages] are [ceil(N / B)] consecutive pieces of the list, each of
    [B] operations but the last, which has [N mod B] operations when [B]
    does not divide [N] and [B] when it does; and when no call is rejected,
    [createPages] and [updatePages] of [Current] issue exactly these
    batches, one after the other, and return. *)
Theorem C3_writer_issues_batches (svc : Services) (B : nat)
    (pagesToCreate : list Star) (pagesToUpdate : list PageToUpdate) (st : State) :
  B > 0 ->
  (batches_of_size (chunk pagesToCreate B) (length pagesToCreate) B ∧
   concat (chunk pagesToCreate B) = pagesToCreate ∧
   ((∀ n, calls st <= n < calls st + length pagesToCreate ->
          write_rejects svc n = false) ->
    issues_batches (CurrentRun.createPages_sized B svc pagesToCreate)
      create_batch (chunk pagesToCreate B) st)) ∧
  (batches_of_size (chunk pagesToUpdate B) (length pagesToUpdate) B ∧
   concat (chunk pagesToUpdate B) = pagesToUpdate ∧
   ((∀ n, calls st <= n < calls st + length pagesToUpdate ->
          write_rejects svc n = false) ->
    issues_batches (CurrentRun.updatePages_sized B svc pagesToUpdate)
      update_batch (chunk pagesToUpdate B) st)).
Proof.
  intros HB.
  destruct (chunk_batches pagesToCreate B HB) as [Hcreate Hcat].
  destruct (chunk_batches pagesToUpdate B HB) as [Hupdate Hcat'].
  split; (split; [done|]); (split; [done|]); intros Hok.
  - rewrite current_createPages_unfold.
    apply (write_batches_issued svc CurrentRun.mapper (fun _ p => EvNotionCreate p)
             Current.getPropertiesFromStar
             (fun batch => console_log (MsgBatch batch))
             (fun batch => [EvConsoleLog (MsgBatch batch)])
             (fun _ => eq_refl) (fun _ _ => eq_refl)).
    by rewrite Hcat.
  - rewrite current_updatePages_unfold.
    apply (write_batches_issued svc (fun page => CurrentRun.mapper (upd_star page))
             (fun page p => EvNotionUpdate (upd_pageId page) p)
             (fun page => Current.getPropertiesFromStar (upd_star page))
             (fun _ => ret tt) (fun _ => [])
             (fun _ => eq_refl) (fun _ st0 => eq_sym (f_equal (pair (Ok tt))
                                                       (add_events_nil st0)))).
    by rewrite Hcat'.
Qed.

(** Three records to create, two at a time: a batch of two, then a batch
    of one. *)
Lemma C3_writer_issues_batches_witness :
  2 > 0 ∧
  batches_of_size [[star_42; star_99]; [star_42]] 3 2 ∧
  issues_batches
    (CurrentRun.createPages_sized 2 scenario_accepting [star_42; star_99; star_42])
    create_batch [[star_42; star_99]; [star_42]] initial_state.
Proof.
  assert (HB : 2 > 0) by lia.
  destruct (C3_writer_issues_batches scenario_accepting 2 [star_42; star_99; star_42]
              [] initial_state HB) as [(Hsizes & _ & Hrun) _].
  split; [exact HB|]. split; [exact Hsizes|].
  exact (Hrun (fun _ _ => eq_refl)).
Defined.

(** C3 as stated fails when a call is rejected: of the two batches of
    eleven records, [createPages] of [Current] issues the first only, and
    completes none, when the first call is rejected. *)
Lemma C3_counterexample_rejected_call :
  div_ceil (length (replicate 10 star_42 ++ [star_99])) Current.OPERATION_BATCH_SIZE = 2 ∧
  (CurrentRun.createPages rejecting_first (replicate 10 star_42 ++ [star_99])
     initial_state).1 = Thrown (APIResponseError 0) ∧
  announced_batches
    (trace (CurrentRun.createPages rejecting_first (replicate 10 star_42 ++ [star_99])
              initial_state).2) = [replicate 10 star_42] ∧
  completed_batches
    (trace (CurrentRun.createPages rejecting_first (replicate 10 star_42 ++ [star_99])
              initial_state).2) = [] ∧
  ¬ issues_batches
      (CurrentRun.createPages rejecting_first (replicate 10 star_42 ++ [star_99]))
      create_batch
      (chunk (replicate 10 star_42 ++ [star_99]) Current.OPERATION_BATCH_SIZE)
      initial_state.
Proof.
  split; [reflexivity|]. split; [vm_compute; reflexivity|].
  split; [vm_compute; reflexivity|]. split; [vm_compute; reflexivity|].
  unfold issues_batches. intros Hrun. apply (f_equal fst) in Hrun.
  vm_compute in Hrun. discriminate Hrun.
Qed.

(** ** Startup *)

Lemma required_environment_missing (env : gmap string string) (key : string) :
  key ∈ required_keys -> env !! key = None ->
  CurrentRun.required_environment env = false.
Proof.
  unfold required_keys, CurrentRun.required_environment.
  rewrite !elem_of_cons, elem_of_nil.
  intros [->|[->|[->|[->|[]]]]] ->; cbn;
    rewrite ?andb_false_r; reflexivity.
Qed.

(** C8: when one of the four required configuration values is missing,
    [Current] prints the error and exits with status 1 without a single
    network request, and nothing of the run is attempted. *)
Theorem C8_missing_configuration_exits (env : gmap string string) (svc : Services)
    (fuel : nat) (key : string) (st : State) :
  key ∈ required_keys ->
  env !! key = None ->
  CurrentRun.main env svc fuel st
  = (Exited 1, add_events st [EvConsoleError MsgMissingEnv]) ∧
  (1 ≠ 0)%Z ∧
  network_requests (trace (CurrentRun.main env svc fuel st).2)
  = network_requests (trace st).
Proof.
  intros Hkey Hmissing.
  assert (Hrun : CurrentRun.main env svc fuel st
                 = (Exited 1, add_events st [EvConsoleError MsgMissingEnv])).
  { unfold CurrentRun.main.
    rewrite (required_environment_missing env key Hkey Hmissing). reflexivity. }
  split; [exact Hrun|]. split; [done|].
  rewrite Hrun. cbn. unfold network_requests. rewrite filter_app. cbn.
  apply app_nil_r.
Qed.

Lemma C8_missing_configuration_exits_witness :
  env_without_notion_key !! "NOTION_KEY" = None ∧
  CurrentRun.main env_without_notion_key rejecting_first 5 initial_state
  = (Exited 1, {| trace := [EvConsoleError MsgMissingEnv]; idMap := ∅; calls := 0;
                  heap := ∅ |}).
Proof.
  split; [reflexivity|].
  refine (proj1 (C8_missing_configuration_exits env_without_notion_key rejecting_first 5
                   "NOTION_KEY" initial_state _ eq_refl)).
  unfold required_keys. rewrite !elem_of_cons. right; right; left; reflexivity.
Defined.

(** With a complete environment the run does start with a network request. *)
Example current_main_complete_environment :
  head (trace (CurrentRun.main env_complete rejecting_first 5 initial_state).2)
  = Some (EvNotionQuery 10 None) ∧
  (CurrentRun.main env_complete rejecting_first 5 initial_state).1 = Ok tt.
Proof. split; reflexivity. Qed.

(** ** The mapper on the heap *)

Lemma fresh_lookup (h : gmap positive Object) : h !! fresh (dom h) = None.
Proof. apply not_elem_of_dom, is_fresh. Qed.

Lemma insert_fresh_keeps (h : gmap positive Object) (o o' : Object) (l : positive) :
  h !! l = Some o -> <[fresh (dom h) := o']> h !! l = Some o.
Proof.
  intros Hl. rewrite lookup_insert_ne; [done|].
  intros Heq. rewrite <- Heq, fresh_lookup in Hl. done.
Qed.

Lemma current_mapper_on_heap (st : State) (ref : positive) (star : Star) :
  heap st !! ref = Some (ObjStar star) ->
  pure_on_heap CurrentRun.getPropertiesFromStar Current.getPropertiesFromStar st ref star.
Proof.
  intros Href. unfold pure_on_heap.
  unfold CurrentRun.getPropertiesFromStar, bind, load_star. rewrite Href.
  unfold new_object at 1. unfold object_entries. cbn [heap with_heap].
  rewrite lookup_insert_eq.
  unfold object_fromEntries, new_object. cbn [heap with_heap].
  eexists _, _. split; [reflexivity|].
  cbn [heap with_heap trace idMap calls].
  split; [|repeat split].
  - rewrite lookup_insert_eq. unfold Current.getPropertiesFromStar.
    by rewrite map_filter_alt.
  - intros l o Hl. by do 2 apply insert_fresh_keeps.
Qed.

Lemma part001_mapper_on_heap (st : State) (ref : positive) (star : Star) :
  heap st !! ref = Some (ObjStar star) ->
  pure_on_heap Part001Run.getPropertiesFromStar Part001.getPropertiesFromStar st ref star.
Proof.
  intros Href. unfold pure_on_heap.
  unfold Part001Run.getPropertiesFromStar, bind, load_star. rewrite Href.
  unfold new_object at 1. unfold object_entries. cbn [heap with_heap].
  rewrite lookup_insert_eq.
  unfold object_fromEntries, new_object, ret. cbn [heap with_heap].
  eexists _, _. split; [reflexivity|].
  cbn [heap with_heap trace idMap calls].
  split; [|repeat split].
  - apply insert_fresh_keeps, lookup_insert_eq.
  - intros l o Hl. by do 2 apply insert_fresh_keeps.
Qed.

(** A mapper that is pure on the heap gives the same content when it is
    called again on the same record. *)
Lemma pure_twice (run : positive -> M positive) (f : Star -> gmap string Property)
    (st : State) (ref : positive) (star : Star) :
  (∀ st0, heap st0 !! ref = Some (ObjStar star) -> pure_on_heap run f st0 ref star) ->
  heap st !! ref = Some (ObjStar star) ->
  same_on_second_call run st ref.
Proof.
  intros Hpure Href.
  destruct (Hpure st Href) as (r1 & st1 & Hrun1 & Hres1 & _ & _ & _ & Hframe1).
  destruct (Hpure st1 (Hframe1 _ _ Href))
    as (r2 & st2 & Hrun2 & Hres2 & _ & _ & _ & Hframe2).
  exists r1, st1, r2, st2, (f star).
  split; [done|]. split; [done|]. split; [|done]. by apply Hframe2.
Qed.

(** C7: the mapper is a pure function of the record it is given.  Run
    statement by statement on any heap, with [ref] pointing at a record
    [star], [getPropertiesFromStar] of [Current] and of [Part001] returns a
    reference to an object whose content is a function of [star] alone, it
    adds no event to the trace (no I/O), it leaves the identity index and
    the call counter alone, and every object that was on the heap, the
    record included, is unchanged; a second call on the same record returns
    an object with the same content as the first. *)
Theorem C7_mapper_is_pure (st : State) (ref : positive) (star : Star) :
  heap st !! ref = Some (ObjStar star) ->
  pure_on_heap CurrentRun.getPropertiesFromStar Current.getPropertiesFromStar st ref star ∧
  pure_on_heap Part001Run.getPropertiesFromStar Part001.getPropertiesFromStar st ref star ∧
  same_on_second_call CurrentRun.getPropertiesFromStar st ref ∧
  same_on_second_call Part001Run.getPropertiesFromStar st ref.
Proof.
  intros Href. split; [|split; [|split]].
  - by apply current_mapper_on_heap.
  - by apply part001_mapper_on_heap.
  - apply (pure_twice _ Current.getPropertiesFromStar _ _ star); [|done].
    intros st0. apply current_mapper_on_heap.
  - apply (pure_twice _ Part001.getPropertiesFromStar _ _ star); [|done].
    intros st0. apply part001_mapper_on_heap.
Qed.

Lemma C7_mapper_is_pure_witness :
  heap state_with_star_99 !! 1%positive = Some (ObjStar star_99) ∧
  ∃ result st',
    CurrentRun.getPropertiesFromStar 1%positive state_with_star_99 = (Ok result, st') ∧
    heap st' !! result = Some (ObjItem (Current.getPropertiesFromStar star_99)) ∧
    trace st' = [] ∧
    heap st' !! 1%positive = Some (ObjStar star_99).
Proof.
  split; [reflexivity|].
  destruct (C7_mapper_is_pure state_with_star_99 1%positive star_99 eq_refl)
    as [(result & st' & Hrun & Hres & Htrace & _ & _ & Hframe) _].
  exists result, st'. split; [exact Hrun|]. split; [exact Hres|].
  split; [exact Htrace|]. apply Hframe. reflexivity.
Defined.

(** [Legacy] writes into the object it has just allocated and into nothing
    else. *)
Lemma legacy_mapper_is_pure (st : State) (ref : positive) (star : Star)
    (item : gmap string Property) :
  heap st !! ref = Some (ObjStar star) ->
  Legacy.getPropertiesFromStar star = Normal item ->
  ∃ result st',
    LegacyRun.getPropertiesFromStar ref st = (Ok result, st') ∧
    heap st' !! result = Some (ObjItem item) ∧
    trace st' = trace st ∧ idMap st' = idMap st ∧ calls st' = calls st ∧
    (∀ l o, heap st !! l = Some o -> heap st' !! l = Some o).
Proof.
  intros Href. unfold Legacy.getPropertiesFromStar.
  unfold LegacyRun.getPropertiesFromStar, bind, load_star. rewrite Href.
  unfold new_object. cbn [heap with_heap].
  destruct (star_labels star) as [labels|]; [|done].
  destruct (Js.truthy (star_homepage star)), (Js.truthy (star_language star)),
    (Js.truthy (star_description star)), (Nat.ltb 0 (length labels));
    intros [= <-]; unfold set_property, ret; cbn [heap with_heap];
    rewrite ?lookup_insert_eq; cbn [heap with_heap];
    rewrite ?lookup_insert_eq; cbn [heap with_heap];
    rewrite ?lookup_insert_eq; cbn [heap with_heap];
    rewrite ?lookup_insert_eq; cbn [heap with_heap];
    (eexists _, _; split; [reflexivity|]);
    cbn [heap with_heap trace idMap calls]; rewrite ?insert_insert_eq;
    (split; [apply lookup_insert_eq|]); (split; [done|]); (split; [done|]);
    (split; [done|]); intros l o Hl; by apply insert_fresh_keeps.
Qed.

(* ===================================================================== *)
(** * Further properties of the code                                      *)
(* ===================================================================== *)

(** ** Readers *)

Lemma query_loop_follows (svc : Services) (responses : list QueryResponse) :
  ∀ (fuel page_size : nat) (cursor : option string) (pages : list NotionPage)
    (st : State),
    follows svc cursor responses ->
    length responses <= fuel ->
    query_loop svc fuel page_size cursor pages st
    = (Ok (pages ++ fetched_pages responses),
       add_events st (query_events page_size cursor responses)).
Proof.
  induction responses as [|r rest IH]; intros fuel page_size cursor pages st Hf Hfuel;
    [done|].
  destruct fuel as [|fuel]; [cbn in Hfuel; lia|].
  destruct Hf as [Hr Hrest]. cbn [query_loop]. unfold bind at 1, emit at 1.
  rewrite Hr. cbv zeta. destruct rest as [|r' rest].
  - rewrite Hrest. cbn. unfold ret, fetched_pages, add_events. cbn.
    by rewrite app_nil_r.
  - destruct Hrest as [Hc Hrest]. rewrite Hc. cbn [negb].
    rewrite (IH fuel page_size (next_cursor r) (pages ++ results r) _ Hrest)
      by (cbn in *; lia).
    unfold fetched_pages, add_events. cbn [map concat query_events trace idMap calls heap].
    by rewrite <- !app_assoc.
Qed.

(** The callback of [pages.map] in the reader, on pages that all have the
    number property. *)
Lemma read_pages_ok (key : string) (pages : list NotionPage) (st : State) :
  (∀ page, page ∈ pages -> is_Some (page_numbers page !! key)) ->
  ∃ currentStars,
    mapM (fun page =>
            match page_numbers page !! key with
            | Some number => ret {| pageId := page_id page; starId := number |}
            | None => throw TypeError
            end) pages st = (Ok currentStars, st) ∧
    Forall2 (read_as key) pages currentStars.
Proof.
  induction pages as [|page pages IH]; intros Hkeys.
  - exists []. split; [done|constructor].
  - destruct IH as (currentStars & Hrun & Hall).
    { intros page' Hin. apply Hkeys. by right. }
    destruct (Hkeys page) as [number Hnumber]; [left|].
    exists ({| pageId := page_id page; starId := number |} :: currentStars). split.
    + cbn [mapM]. unfold bind at 1. rewrite Hnumber. unfold ret at 1.
      unfold bind at 1. by rewrite Hrun.
    + by constructor.
Qed.

(** The same callback when some page lacks the number property. *)
Lemma read_pages_missing (key : string) (pages : list NotionPage) (st : State) :
  (∃ page, page ∈ pages ∧ page_numbers page !! key = None) ->
  mapM (fun page =>
          match page_numbers page !! key with
          | Some number => ret {| pageId := page_id page; starId := number |}
          | None => throw TypeError
          end) pages st = (Thrown TypeError, st).
Proof.
  induction pages as [|page pages IH]; intros (bad & Hin & Hbad).
  - by apply elem_of_nil in Hin.
  - cbn [mapM]. unfold bind at 1.
    destruct (page_numbers page !! key) as [number|] eqn:Hnumber; [|done].
    unfold ret at 1. unfold bind at 1. rewrite IH; [done|].
    exists bad. split; [|done].
    apply elem_of_cons in Hin as [->|Hin]; [congruence|done].
Qed.

(** X1: the Notion reader follows the cursors to the end.  When the service
    answers [responses] along the cursor chain (the last answer being the
    first without a truthy [next_cursor]) and every fetched page has the
    number property [key], [getStarsFromNotionDatabase] sends exactly one
    query per answer, each with the cursor of the answer before, prints the
    number of pages, and returns one [{ pageId, starId }] per fetched page,
    in the order fetched; the page size plays no part. *)
Theorem X1_notion_reader_follows_cursors (svc : Services) (fuel page_size : nat)
    (key : string) (responses : list QueryResponse) (st : State) :
  follows svc None responses ->
  length responses <= fuel ->
  (∀ page, page ∈ fetched_pages responses -> is_Some (page_numbers page !! key)) ->
  ∃ currentStars,
    getStarsFromNotionDatabase svc fuel page_size key st
    = (Ok currentStars,
       add_events st (query_events page_size None responses
                      ++ [EvConsoleLog (MsgFetchedFromNotion
                                          (length (fetched_pages responses)))])) ∧
    Forall2 (read_as key) (fetched_pages responses) currentStars.
Proof.
  intros Hf Hfuel Hkeys. unfold getStarsFromNotionDatabase.
  unfold bind at 1. rewrite (query_loop_follows svc responses fuel page_size None [] st Hf Hfuel).
  cbn [app]. unfold bind at 1, console_log, emit.
  match goal with
  | |- context [mapM ?f ?l ?s] =>
      destruct (read_pages_ok key l s Hkeys) as (currentStars & Hrun & Hall)
  end.
  exists currentStars. split; [|done]. rewrite Hrun.
  unfold add_events. cbn [trace idMap calls heap]. by rewrite <- app_assoc.
Qed.

Lemma X1_notion_reader_follows_cursors_witness :
  follows paged_notion None paged_notion_responses ∧
  getStarsFromNotionDatabase paged_notion 3 10 "Star ID" initial_state
  = (Ok [ {| pageId := "p1"; starId := 42 |}; {| pageId := "p2"; starId := 7 |};
          {| pageId := "p3"; starId := 99 |} ],
     add_events initial_state
       [ EvNotionQuery 10 None; EvNotionQuery 10 (Some "c1");
         EvNotionQuery 10 (Some "c2"); EvConsoleLog (MsgFetchedFromNotion 3) ]).
Proof.
  assert (Hf : follows paged_notion None paged_notion_responses).
  { cbn. repeat split. }
  split; [exact Hf|].
  destruct (X1_notion_reader_follows_cursors paged_notion 3 10 "Star ID"
              paged_notion_responses initial_state Hf (le_n 3))
    as (currentStars & Hrun & _).
  - intros page Hin. unfold fetched_pages in Hin. cbn in Hin.
    rewrite !elem_of_cons, elem_of_nil in Hin.
    destruct Hin as [->|[->|[->|[]]]]; cbn; eauto.
  - rewrite Hrun. vm_compute in Hrun. injection Hrun as <-. reflexivity.
Defined.

(** X2: a page without the number property stops the run before anything
    is written.  When the environment is complete, the cursor chain ends
    and some fetched page has no ["Star ID"] property, [main] of [Current]
    ends with a [TypeError] once the pages are fetched: the only events are
    the queries and the count, the identity index is as it was, and neither
    a GitHub request nor a write is sent. *)
Theorem X2_page_without_key_aborts (env : gmap string string) (svc : Services)
    (fuel : nat) (responses : list QueryResponse) (st : State) :
  CurrentRun.required_environment env = true ->
  follows svc None responses ->
  length responses <= fuel ->
  (∃ page, page ∈ fetched_pages responses ∧ page_numbers page !! "Star ID" = None) ->
  CurrentRun.main env svc fuel st
  = (Thrown TypeError,
     add_events st (query_events 10 None responses
                    ++ [EvConsoleLog (MsgFetchedFromNotion
                                        (length (fetched_pages responses)))])).
Proof.
  intros Henv Hf Hfuel Hbad. unfold CurrentRun.main. rewrite Henv. cbn [negb].
  unfold bind at 1, ret at 1. unfold bind at 1.
  unfold setInitialGitHubToNotionIdMap, getStarsFromNotionDatabase.
  unfold bind at 1. unfold bind at 1.
  rewrite (query_loop_follows svc responses fuel 10 None [] st Hf Hfuel).
  cbn [app]. unfold bind at 1, console_log, emit.
  rewrite read_pages_missing by done.
  unfold add_events. cbn [trace idMap calls heap]. by rewrite <- app_assoc.
Qed.

Lemma X2_page_without_key_aborts_witness :
  CurrentRun.main env_complete notion_without_star_id 1 initial_state
  = (Thrown TypeError,
     add_events initial_state
       [EvNotionQuery 10 None; EvConsoleLog (MsgFetchedFromNotion 2)]).
Proof.
  apply (X2_page_without_key_aborts env_complete notion_without_star_id 1
           [notion_databases_query notion_without_star_id None] initial_state).
  - reflexivity.
  - cbn. split; reflexivity.
  - cbn. lia.
  - exists {| page_id := "p2"; page_numbers := {[ "Stars" := 7%Z ]} |}.
    split; [|reflexivity]. unfold fetched_pages. cbn. right. left.
Defined.

Lemma starred_loop_spec (svc : Services) (pages : list (list Starred)) :
  ∀ (page : nat) (stars : list Star) (st : State),
    (∀ n, page <= n < page + length pages -> github_rejects svc n = false) ->
    starred_loop svc page pages stars st
    = (Ok (stars ++ map star_of_starred (concat pages)),
       add_events st (map (EvGitHubListStarred 100) (seq page (length pages)))).
Proof.
  induction pages as [|data pages IH]; intros page stars st Hok.
  - cbn. unfold ret. by rewrite app_nil_r, add_events_nil.
  - cbn [starred_loop]. unfold bind at 1, emit at 1.
    rewrite Hok by (cbn; lia). unfold bind at 1, ret at 1.
    rewrite IH by (intros n Hn; apply Hok; cbn; lia).
    unfold add_events. cbn [trace idMap calls heap concat length seq map].
    by rewrite map_app, <- !app_assoc.
Qed.

Lemma starred_loop_rejected (svc : Services) (pages : list (list Starred)) :
  ∀ (page k : nat) (stars : list Star) (st : State),
    k < length pages ->
    github_rejects svc (page + k) = true ->
    (∀ q, q < k -> github_rejects svc (page + q) = false) ->
    starred_loop svc page pages stars st
    = (Thrown (RequestError (page + k)),
       add_events st (map (EvGitHubListStarred 100) (seq page (S k)))).
Proof.
  induction pages as [|data pages IH]; intros page k stars st Hk Hrej Hok;
    [cbn in Hk; lia|].
  cbn [starred_loop]. unfold bind at 1, emit at 1. destruct k as [|k].
  - rewrite Nat.add_0_r in *. rewrite Hrej. unfold bind at 1, throw. reflexivity.
  - pose proof (Hok 0 ltac:(lia)) as H0. rewrite Nat.add_0_r in H0. rewrite H0.
    unfold bind at 1, ret at 1.
    rewrite (IH (S page) k) by first [ cbn in Hk; lia
                                     | by replace (S page + k) with (page + S k) by lia
                                     | intros q Hq;
                                       replace (S page + q) with (page + S q) by lia;
                                       apply Hok; lia ].
    replace (S page + k) with (page + S k) by lia.
    unfold add_events. cbn [trace idMap calls heap seq map].
    by rewrite <- !app_assoc.
Qed.

Lemma github_reader_ok (svc : Services) (st : State) :
  github_accepts svc ->
  getGitHubStarsForUser svc st
  = (Ok (map star_of_starred (concat (github_starred_pages svc))),
     add_events st (map (EvGitHubListStarred 100)
                        (seq 0 (length (github_starred_pages svc))))).
Proof.
  intros Hok. unfold getGitHubStarsForUser. rewrite starred_loop_spec; [done|].
  intros n Hn. apply Hok. lia.
Qed.

Lemma github_reader_rejected (svc : Services) (st : State) (k : nat) :
  k < length (github_starred_pages svc) ->
  github_rejects svc k = true ->
  (∀ q, q < k -> github_rejects svc q = false) ->
  getGitHubStarsForUser svc st
  = (Thrown (RequestError k),
     add_events st (map (EvGitHubListStarred 100) (seq 0 (S k)))).
Proof.
  intros Hk Hrej Hok. unfold getGitHubStarsForUser.
  by rewrite (starred_loop_rejected svc (github_starred_pages svc) 0 k).
Qed.

(** X3: the GitHub reader, page by page.  [getGitHubStarsForUser] always
    sends the request for the first page.  When no request is rejected it
    returns one star per item of every page, pages first to last and items
    as listed, having sent one request per page and nothing else.  When the
    request for page [k] is the first to be rejected, the exception leaves
    the function after exactly [k + 1] requests and no star is returned. *)
Theorem X3_github_reader_page_by_page (svc : Services) (st : State) :
  0 < length (github_starred_pages svc) ∧
  (github_accepts svc ->
   getGitHubStarsForUser svc st
   = (Ok (map star_of_starred (concat (github_starred_pages svc))),
      add_events st (starred_events (length (github_starred_pages svc))))) ∧
  (∀ k, k < length (github_starred_pages svc) ->
        github_rejects svc k = true ->
        (∀ q, q < k -> github_rejects svc q = false) ->
        getGitHubStarsForUser svc st
        = (Thrown (RequestError k), add_events st (starred_events (S k)))).
Proof.
  unfold starred_events. split; [|split].
  - cbn. lia.
  - apply github_reader_ok.
  - apply github_reader_rejected.
Qed.

Lemma X3_github_reader_page_by_page_witness :
  getGitHubStarsForUser paged_notion initial_state
  = (Ok [star_42; star_99],
     add_events initial_state [EvGitHubListStarred 100 0; EvGitHubListStarred 100 1]) ∧
  getGitHubStarsForUser github_failing_second initial_state
  = (Thrown (RequestError 1),
     add_events initial_state [EvGitHubListStarred 100 0; EvGitHubListStarred 100 1]).
Proof.
  split.
  - refine (proj1 (proj2 (X3_github_reader_page_by_page paged_notion initial_state)) _).
    intros n Hn. reflexivity.
  - refine (proj2 (proj2 (X3_github_reader_page_by_page github_failing_second
                            initial_state)) 1 _ _ _).
    + cbn. lia.
    + reflexivity.
    + intros q Hq. destruct q; [reflexivity|lia].
Defined.

(** ** Reconciler and index together *)

Lemma known_page_Some (index : gmap Z string) (s : Star) (p : string) :
  known_page index s = Some p <-> index !! star_id s = Some p ∧ p ≠ "".
Proof.
  unfold known_page, Js.truthy_string.
  destruct (index !! star_id s) as [q|]; [|naive_solver].
  case_bool_decide; naive_solver.
Qed.

Lemma known_page_None (index : gmap Z string) (s : Star) :
  known_page index s = None
  <-> index !! star_id s = None ∨ index !! star_id s = Some "".
Proof.
  unfold known_page, Js.truthy_string.
  destruct (index !! star_id s) as [q|]; [|naive_solver].
  case_bool_decide as Hq; naive_solver.
Qed.

(** X4: whatever the index holds, [getNotionOperations] makes exactly one
    operation of every record of the snapshot: the two lists together are a
    rearrangement of the snapshot, every update carries the page id the
    index holds for the record, which is never the empty string, and a
    record is created only when the index holds nothing, or the empty
    string, for its id. *)
Theorem X4_one_operation_per_record (index : gmap Z string) (stars : list Star) :
  stars ≡ₚ pagesToCreate (getNotionOperations index stars)
           ++ map upd_star (pagesToUpdate (getNotionOperations index stars)) ∧
  length (pagesToCreate (getNotionOperations index stars))
  + length (pagesToUpdate (getNotionOperations index stars)) = length stars ∧
  (∀ u, u ∈ pagesToUpdate (getNotionOperations index stars) ->
        index !! star_id (upd_star u) = Some (upd_pageId u) ∧ upd_pageId u ≠ "") ∧
  (∀ s, s ∈ pagesToCreate (getNotionOperations index stars) ->
        index !! star_id s = None ∨ index !! star_id s = Some "").
Proof.
  destruct (getNotionOperations_spec index stars) as [-> ->].
  pose proof (operations_permutation index stars) as Hperm.
  split; [done|]. split; [|split].
  - apply Permutation_length in Hperm. rewrite length_app, length_map in Hperm. lia.
  - intros u (s & _ & Hs)%list_elem_of_omap. unfold with_page in Hs.
    destruct (known_page index s) as [p|] eqn:Hk; [|done].
    cbn in Hs. injection Hs as <-. cbn. by apply known_page_Some.
  - intros s [Hs _]%list_elem_of_filter. by apply known_page_None.
Qed.

(** X5: the two ends of the reconciler.  When no record of the snapshot has
    its id in the index (a first run on an empty database, say) every
    record is created, in order, and nothing is updated; when every record
    has a non-empty page id in the index nothing is created and the
    updates are the records in order. *)
Theorem X5_first_run_and_steady_state (index : gmap Z string) (stars : list Star) :
  ((∀ s, s ∈ stars -> index !! star_id s = None) ->
   getNotionOperations index stars = {| pagesToCreate := stars; pagesToUpdate := [] |}) ∧
  ((∀ s, s ∈ stars -> ∃ p, index !! star_id s = Some p ∧ p ≠ "") ->
   pagesToCreate (getNotionOperations index stars) = [] ∧
   map upd_star (pagesToUpdate (getNotionOperations index stars)) = stars).
Proof.
  destruct (getNotionOperations_spec index stars) as [Hc Hu]. split.
  - intros Hnone.
    assert (Hfilter : filter (fun s => known_page index s = None) stars = stars).
    { clear Hc Hu. induction stars as [|s stars IH]; [done|].
      rewrite filter_cons_True.
      - rewrite IH; [done|]. intros s' Hs'. apply Hnone. by right.
      - apply known_page_None. left. apply Hnone. left. }
    assert (Homap : omap (with_page index) stars = []).
    { clear Hc Hu Hfilter. induction stars as [|s stars IH]; [done|].
      cbn [omap list_omap]. unfold with_page at 1.
      assert (Hk : known_page index s = None).
      { apply known_page_None. left. apply Hnone. left. }
      rewrite Hk. cbn. apply IH. intros s' Hs'. apply Hnone. by right. }
    destruct (getNotionOperations index stars) as [creates updates].
    cbn in Hc, Hu. by rewrite Hc, Hu, Hfilter, Homap.
  - intros Hall. rewrite Hc, Hu, updates_follow_input. split.
    + clear Hc Hu. induction stars as [|s stars IH]; [done|].
      rewrite filter_cons_False.
      * apply IH. intros s' Hs'. apply Hall. by right.
      * destruct (Hall s) as (p & Hp & Hne); [left|].
        intros [Hk|Hk]%known_page_None; congruence.
    + clear Hc Hu. induction stars as [|s stars IH]; [done|].
      rewrite filter_cons_True.
      * f_equal. apply IH. intros s' Hs'. apply Hall. by right.
      * destruct (Hall s) as (p & Hp & Hne); [left|].
        exists p. by apply known_page_Some.
Qed.

Lemma X5_first_run_and_steady_state_witness :
  getNotionOperations ∅ [star_42; star_99]
  = {| pagesToCreate := [star_42; star_99]; pagesToUpdate := [] |} ∧
  pagesToCreate (getNotionOperations {[ 42%Z := "p1"; 99%Z := "p9" ]} [star_42; star_99])
  = [].
Proof.
  split.
  - apply (proj1 (X5_first_run_and_steady_state ∅ [star_42; star_99])).
    intros s _. apply lookup_empty.
  - apply (proj2 (X5_first_run_and_steady_state {[ 42%Z := "p1"; 99%Z := "p9" ]}
                    [star_42; star_99])).
    intros s Hs. rewrite !elem_of_cons, elem_of_nil in Hs.
    destruct Hs as [->|[->|[]]]; eexists; (split; [reflexivity|done]).
Defined.

(** X6: the reconciler works record by record, so a snapshot can be
    reconciled in pieces: the operations for [stars1 ++ stars2] are those
    for [stars1] followed by those for [stars2], in both lists. *)
Theorem X6_reconcile_in_pieces (index : gmap Z string) (stars1 stars2 : list Star) :
  pagesToCreate (getNotionOperations index (stars1 ++ stars2))
  = pagesToCreate (getNotionOperations index stars1)
    ++ pagesToCreate (getNotionOperations index stars2) ∧
  pagesToUpdate (getNotionOperations index (stars1 ++ stars2))
  = pagesToUpdate (getNotionOperations index stars1)
    ++ pagesToUpdate (getNotionOperations index stars2).
Proof.
  destruct (getNotionOperations_spec index (stars1 ++ stars2)) as [-> ->].
  destruct (getNotionOperations_spec index stars1) as [-> ->].
  destruct (getNotionOperations_spec index stars2) as [-> ->].
  split; [apply filter_app|apply omap_app].
Qed.

Lemma last_occurrence (currentStars : list CurrentStar) (k : Z) :
  k ∈ map starId currentStars ->
  ∃ l1 c l2, currentStars = l1 ++ c :: l2 ∧ starId c = k ∧
             ∀ c', c' ∈ l2 -> starId c' ≠ k.
Proof.
  induction currentStars as [|a cs IH]; intros Hk; [by apply elem_of_nil in Hk|].
  destruct (decide (k ∈ map starId cs)) as [Hin|Hnot].
  - destruct (IH Hin) as (l1 & c & l2 & -> & Hc & Hl2).
    by exists (a :: l1), c, l2.
  - cbn in Hk. apply elem_of_cons in Hk as [Hk|Hk]; [|done].
    exists [], a, cs. split; [done|]. split; [done|].
    intros c' Hc' Heq. apply Hnot. rewrite <- Heq.
    apply list_elem_of_fmap. by exists c'.
Qed.

Lemma identityIndex_None (currentStars : list CurrentStar) (k : Z) :
  identityIndex currentStars !! k = None <-> k ∉ map starId currentStars.
Proof.
  rewrite <- not_elem_of_dom. unfold identityIndex. rewrite index_loop_dom.
  rewrite dom_empty_L, elem_of_union, elem_of_list_to_set. set_solver.
Qed.

Lemma identityIndex_Some (currentStars : list CurrentStar) (k : Z) (p : string) :
  identityIndex currentStars !! k = Some p
  <-> ∃ l1 c l2, currentStars = l1 ++ c :: l2 ∧ starId c = k ∧ pageId c = p ∧
                 ∀ c', c' ∈ l2 -> starId c' ≠ k.
Proof.
  split.
  - intros Hp.
    destruct (last_occurrence currentStars k) as (l1 & c & l2 & -> & Hc & Hl2).
    { destruct (decide (k ∈ map starId currentStars)) as [|Hnot]; [done|].
      apply identityIndex_None in Hnot. congruence. }
    exists l1, c, l2. split; [done|]. split; [done|]. split; [|done].
    subst k. unfold identityIndex in Hp. rewrite index_loop_last in Hp by done.
    congruence.
  - intros (l1 & c & l2 & -> & <- & <- & Hl2). by apply index_loop_last.
Qed.

(** X7: index and reconciler together.  For a destination snapshot whose
    page ids are non-empty, a record of the source snapshot is created
    exactly when no pair of the destination snapshot has its id, and it is
    updated otherwise, on the page of the last pair that has its id. *)
Theorem X7_reconcile_against_snapshot (currentStars : list CurrentStar)
    (stars : list Star) :
  (∀ c, c ∈ currentStars -> pageId c ≠ "") ->
  pagesToCreate (getNotionOperations (identityIndex currentStars) stars)
  = filter (fun s => star_id s ∉ map starId currentStars) stars ∧
  (∀ u, u ∈ pagesToUpdate (getNotionOperations (identityIndex currentStars) stars)
        <-> upd_star u ∈ stars ∧
            ∃ l1 c l2, currentStars = l1 ++ c :: l2 ∧
                       starId c = star_id (upd_star u) ∧ pageId c = upd_pageId u ∧
                       ∀ c', c' ∈ l2 -> starId c' ≠ star_id (upd_star u)).
Proof.
  intros Hne.
  assert (Hidx : page_ids_nonempty (identityIndex currentStars)).
  { intros k p (l1 & c & l2 & -> & _ & <- & _)%identityIndex_Some.
    apply Hne. apply elem_of_app. right. left. }
  destruct (getNotionOperations_spec (identityIndex currentStars) stars) as [-> ->].
  split.
  - apply list_filter_iff. intros s. rewrite known_page_nonempty by done.
    apply identityIndex_None.
  - intros u. rewrite list_elem_of_omap. split.
    + intros (s & Hs & Hu). unfold with_page in Hu.
      rewrite known_page_nonempty in Hu by done.
      destruct (identityIndex currentStars !! star_id s) as [p|] eqn:Hp; [|done].
      cbn in Hu. injection Hu as <-. cbn. split; [done|].
      by apply identityIndex_Some.
    + intros (Hs & Hsplit). exists (upd_star u). split; [done|].
      apply identityIndex_Some in Hsplit. unfold with_page.
      rewrite known_page_nonempty by done. rewrite Hsplit. cbn. by destruct u.
Qed.

Lemma X7_reconcile_against_snapshot_witness :
  pagesToCreate
    (getNotionOperations
       (identityIndex [ {| pageId := "old"; starId := 42 |};
                        {| pageId := "new"; starId := 42 |} ])
       [star_42; star_99])
  = [star_99].
Proof.
  refine (eq_trans (proj1 (X7_reconcile_against_snapshot
                             [ {| pageId := "old"; starId := 42 |};
                               {| pageId := "new"; starId := 42 |} ]
                             [star_42; star_99] _)) _).
  - intros c Hc. rewrite !elem_of_cons, elem_of_nil in Hc.
    destruct Hc as [->|[->|[]]]; done.
  - vm_compute. reflexivity.
Defined.

(** ** Field mapper, key by key *)

(** Equalities between key sets are decided; the others are evaluated. *)
Ltac by_evaluation :=
  first [ apply (bool_decide_unpack _); vm_compute; exact I
        | vm_compute; reflexivity ].

(** X8: the property set of [Current], in full.  Its keys are the ten fixed
    ones and, of the optional ones, [Homepage], [Description] and
    [Language] exactly when the field is a non-empty string and [Topics]
    exactly when [labels] is an array (empty or not); [Homepage] carries
    the record's [homepage], [Topics] the labels in their order; no key is
    bound to [null]. *)
Theorem X8_current_property_set (star : Star) :
  dom (Current.getPropertiesFromStar star)
  = current_always
    ∪ key_if (Js.truthy (star_homepage star)) "Homepage"
    ∪ key_if (Js.truthy (star_description star)) "Description"
    ∪ key_if (Js.truthy (star_language star)) "Language"
    ∪ key_if (bool_decide (is_Some (star_labels star))) "Topics" ∧
  Current.getPropertiesFromStar star !! "Homepage"
  = (if Js.truthy (star_homepage star)
     then Some (PUrl (of_nullable (star_homepage star))) else None) ∧
  Current.getPropertiesFromStar star !! "Description"
  = (if Js.truthy (star_description star)
     then Some (PRichText (of_nullable (star_description star))) else None) ∧
  Current.getPropertiesFromStar star !! "Language"
  = (if Js.truthy (star_language star)
     then Some (PSelect (of_nullable (star_language star))) else None) ∧
  Current.getPropertiesFromStar star !! "Topics"
  = (fun labels => PMultiSelect (map VStr labels)) <$> star_labels star ∧
  (∀ key, Current.getPropertiesFromStar star !! key ≠ Some PNull).
Proof.
  split; [|split; [|split; [|split; [|split]]]];
    try (unfold Current.getPropertiesFromStar, Current.item;
         optional_cases star; by_evaluation).
  apply current_no_null.
Qed.

(** X9: the property set of [Legacy], and when there is none.  The call
    throws a [TypeError] exactly when [labels] is [null] or [undefined];
    otherwise the keys are the nine fixed ones and, of the optional ones,
    [Homepage], [Description] and [Language] exactly when the field is a
    non-empty string and [Topics] exactly when there is at least one
    label, with the labels in their order. *)
Theorem X9_legacy_property_set (star : Star) :
  match Legacy.getPropertiesFromStar star with
  | Abrupt e => e = TypeError ∧ star_labels star = None
  | Normal item =>
      star_labels star ≠ None ∧
      dom item
      = legacy_always
        ∪ key_if (Js.truthy (star_homepage star)) "Homepage"
        ∪ key_if (Js.truthy (star_description star)) "Description"
        ∪ key_if (Js.truthy (star_language star)) "Language"
        ∪ key_if (nonempty_array (star_labels star)) "Topics" ∧
      item !! "Description"
      = (if Js.truthy (star_description star)
         then Some (PRichText (of_nullable (star_description star))) else None) ∧
      item !! "Language"
      = (if Js.truthy (star_language star)
         then Some (PSelect (of_nullable (star_language star))) else None) ∧
      item !! "Topics"
      = (if nonempty_array (star_labels star)
         then Some (PMultiSelect (map VStr (default [] (star_labels star))))
         else None)
  end.
Proof.
  unfold Legacy.getPropertiesFromStar, Legacy.item.
  optional_cases star; cbn [length Nat.ltb Nat.leb Js.truthy Js.truthy_string];
    try done; (split; [done|]); repeat split; by_evaluation.
Qed.

(** X10: [Part001] returns the object literal whole.  Whatever the record,
    the property set has all fourteen keys; [Homepage] and [Description]
    are bound to [null] when the field is not a non-empty string,
    [Language] is always a select (with a [null] name when there is no
    language) and [Topics] is [null] only when [labels] is. *)
Theorem X10_part001_property_set (star : Star) :
  dom (Part001.getPropertiesFromStar star) = part001_keys ∧
  size (Part001.getPropertiesFromStar star) = 14 ∧
  Part001.getPropertiesFromStar star !! "Homepage"
  = Some (if Js.truthy (star_homepage star)
          then PUrl (of_nullable (star_homepage star)) else PNull) ∧
  Part001.getPropertiesFromStar star !! "Description"
  = Some (if Js.truthy (star_description star)
          then PRichText (of_nullable (star_description star)) else PNull) ∧
  Part001.getPropertiesFromStar star !! "Language"
  = Some (PSelect (of_nullable (star_language star))) ∧
  Part001.getPropertiesFromStar star !! "Topics"
  = Some (match star_labels star with
          | Some labels => PMultiSelect (map VStr labels)
          | None => PNull
          end).
Proof.
  unfold Part001.getPropertiesFromStar, Part001.item.
  repeat split; by_evaluation.
Qed.

(** X11: [Legacy]'s mapper, run statement by statement on the heap, does
    what the function on values says, exception included: it returns a
    reference to an object with the computed properties, or throws the
    [TypeError] of [Object.keys] after the assignments already made; either
    way it prints and requests nothing and writes only into the object it
    allocated, so every object that was on the heap, the record included,
    is unchanged. *)
Theorem X11_legacy_mapper_on_heap (st : State) (ref : positive) (star : Star) :
  heap st !! ref = Some (ObjStar star) ->
  ∃ outcome st',
    LegacyRun.getPropertiesFromStar ref st = (outcome, st') ∧
    match Legacy.getPropertiesFromStar star, outcome with
    | Normal item, Ok result => heap st' !! result = Some (ObjItem item)
    | Abrupt e, Thrown e' => e' = e
    | _, _ => False
    end ∧
    trace st' = trace st ∧ idMap st' = idMap st ∧ calls st' = calls st ∧
    (∀ l o, heap st !! l = Some o -> heap st' !! l = Some o).
Proof.
  intros Href.
  destruct (Legacy.getPropertiesFromStar star) as [item|e] eqn:Hpure.
  - destruct (legacy_mapper_is_pure st ref star item Href Hpure)
      as (result & st' & Hrun & Hres & Ht & Hi & Hc & Hframe).
    by exists (Ok result), st'.
  - unfold Legacy.getPropertiesFromStar in Hpure.
    unfold LegacyRun.getPropertiesFromStar, bind, load_star. rewrite Href.
    unfold new_object. cbn [heap with_heap].
    destruct (star_labels star) as [labels|].
    { by destruct (Nat.ltb 0 (length labels)). }
    injection Hpure as <-.
    destruct (Js.truthy (star_homepage star)), (Js.truthy (star_language star)),
      (Js.truthy (star_description star));
      unfold set_property, ret, throw; cbn [heap with_heap];
      rewrite ?lookup_insert_eq; cbn [heap with_heap];
      rewrite ?lookup_insert_eq; cbn [heap with_heap];
      rewrite ?lookup_insert_eq; cbn [heap with_heap];
      (eexists _, _; split; [reflexivity|]);
      cbn [heap with_heap trace idMap calls]; rewrite ?insert_insert_eq;
      (split; [done|]); (split; [done|]); (split; [done|]); (split; [done|]);
      intros l o Hl; by apply insert_fresh_keeps.
Qed.

Lemma X11_legacy_mapper_on_heap_witness :
  ∃ st', LegacyRun.getPropertiesFromStar 1%positive state_with_star_without_labels
         = (Thrown TypeError, st') ∧
         trace st' = [] ∧
         heap st' !! 1%positive = Some (ObjStar star_without_labels).
Proof.
  destruct (X11_legacy_mapper_on_heap state_with_star_without_labels 1%positive
              star_without_labels eq_refl)
    as (outcome & st' & Hrun & Hout & Htrace & _ & _ & Hframe).
  exists st'. cbn in Hout. destruct outcome as [result|e| |]; try done.
  subst e. split; [exact Hrun|]. split; [exact Htrace|].
  apply Hframe. reflexivity.
Defined.

(** ** Writer: what it keeps *)

Lemma advance_nil (st : State) : advance st [] = st.
Proof. destruct st. unfold advance. cbn. by rewrite app_nil_r, Nat.add_0_r. Qed.

Lemma advance_advance (st : State) (events1 events2 : list Event) :
  advance (advance st events1) events2 = advance st (events1 ++ events2).
Proof.
  unfold advance. cbn [trace idMap calls heap].
  f_equal; [by rewrite <- app_assoc|rewrite writes_app, length_app; lia].
Qed.

Lemma network_requests_app (t1 t2 : list Event) :
  network_requests (t1 ++ t2) = network_requests t1 ++ network_requests t2.
Proof. apply filter_app. Qed.

Lemma only_writes_added_refl (st : State) : only_writes_added st st.
Proof. exists []. by rewrite advance_nil. Qed.

Lemma only_writes_added_trans (st1 st2 st3 : State) :
  only_writes_added st1 st2 -> only_writes_added st2 st3 -> only_writes_added st1 st3.
Proof.
  intros (e1 & -> & H1) (e2 & -> & H2). exists (e1 ++ e2). split.
  - apply advance_advance.
  - by rewrite network_requests_app, writes_app, H1, H2.
Qed.

Lemma only_writes_added_console (st : State) (events : list Event) :
  network_requests events = [] -> only_writes_added st (add_events st events).
Proof.
  intros Hquiet. exists events.
  assert (Hw : writes events = []).
  { clear st. induction events as [|e events IH]; [done|].
    unfold network_requests, writes in *.
    destruct e; cbn in *; try discriminate Hquiet; by apply IH. }
  split; [|by rewrite Hw]. unfold advance, add_events. rewrite Hw. cbn.
  by rewrite Nat.add_0_r.
Qed.

Lemma only_writes_added_write (svc : Services) (request : Event) (st : State) :
  is_write request = true ->
  only_writes_added st (notion_write svc request st).2.
Proof.
  intros Hw. exists [request]. split.
  - unfold notion_write, advance. cbn [snd trace idMap calls heap]. f_equal.
    unfold writes. rewrite filter_cons_True by done. cbn. lia.
  - unfold network_requests, writes. rewrite !filter_cons_True; [done|done|].
    by destruct request.
Qed.

Lemma promise_all_outcome (promises : list Promise) (st : State) :
  (promise_all promises st).2 = st ∧ returns_or_throws (promise_all promises st).1.
Proof.
  induction promises as [|[[]|e] promises IH]; cbn; try done.
Qed.

Lemma mapM_cons {A B} (f : A -> M B) (x : A) (l : list A) (st : State) :
  mapM f (x :: l) st
  = match f x st with
    | (Ok y, st1) =>
        match mapM f l st1 with
        | (Ok ys, st2) => (Ok (y :: ys), st2)
        | (Thrown e, st2) => (Thrown e, st2)
        | (Exited c, st2) => (Exited c, st2)
        | (OutOfFuel, st2) => (OutOfFuel, st2)
        end
    | (Thrown e, st1) => (Thrown e, st1)
    | (Exited c, st1) => (Exited c, st1)
    | (OutOfFuel, st1) => (OutOfFuel, st1)
    end.
Proof.
  cbn [mapM]. unfold bind, ret.
  by destruct (f x st) as [[y|e| |] st1].
Qed.

Section writer_invariants.

Context (svc : Services) {A : Type}.
Context (mapper : A -> Completion (gmap string Property)).
Context (event : A -> gmap string Property -> Event).
Context (announce : list A -> M unit).

Hypothesis event_is_write : ∀ x p, is_write (event x p) = true.
Hypothesis announce_silent :
  ∀ batch st, ∃ events,
    announce batch st = (Ok tt, add_events st events) ∧ network_requests events = [].

Local Abbreviation request := (request_via svc mapper event).

Lemma request_invariant (x : A) (st : State) :
  only_writes_added st (request x st).2 ∧ returns_or_throws (request x st).1.
Proof.
  unfold request_via, bind. destruct (mapper x) as [p|e]; cbn [of_completion].
  - unfold ret. split; [|done]. by apply only_writes_added_write.
  - unfold throw. split; [apply only_writes_added_refl|done].
Qed.

Lemma mapM_request_invariant (batch : list A) (st : State) :
  only_writes_added st (mapM request batch st).2 ∧
  returns_or_throws (mapM request batch st).1.
Proof.
  revert st. induction batch as [|x batch IH]; intros st.
  - split; [apply only_writes_added_refl|done].
  - rewrite mapM_cons. pose proof (request_invariant x st) as [H1 H1'].
    destruct (request x st) as [[promise|e| |] st1]; cbn [fst snd] in *; try done.
    pose proof (IH st1) as [H2 H2'].
    destruct (mapM request batch st1) as [[promises|e| |] st2];
      cbn [fst snd] in *; try done;
      (split; [by eapply only_writes_added_trans|done]).
Qed.

(** The loop over the batches adds only write requests and console lines,
    and ends by returning or by throwing. *)
Lemma write_batches_invariant (chunks : list (list A)) (st : State) :
  only_writes_added st (write_batches request announce chunks st).2 ∧
  returns_or_throws (write_batches request announce chunks st).1.
Proof.
  revert st. induction chunks as [|batch chunks IH]; intros st.
  - split; [apply only_writes_added_refl|done].
  - rewrite write_batches_cons.
    destruct (announce_silent batch st) as (events & -> & Hquiet).
    pose proof (only_writes_added_console st events Hquiet) as H0.
    pose proof (mapM_request_invariant batch (add_events st events)) as [H1 H1'].
    destruct (mapM request batch (add_events st events)) as [[promises|e| |] st2];
      cbn [fst snd] in *; try done;
      [|split; [by eapply only_writes_added_trans|done]].
    pose proof (promise_all_outcome promises st2) as [H2 H2'].
    destruct (promise_all promises st2) as [[[]|e| |] st3];
      cbn [fst snd] in *; try done; subst st3;
      [|split; [by eapply only_writes_added_trans|done]].
    specialize (IH (add_events st2 [EvConsoleLog (MsgCompletedBatch (length batch))])).
    destruct IH as [IH1 IH2]. split; [|done].
    eapply only_writes_added_trans; [exact H0|].
    eapply only_writes_added_trans; [exact H1|].
    eapply only_writes_added_trans; [|exact IH1].
    by apply only_writes_added_console.
Qed.

(** The same loop inside [try]/[catch] with a handler that prints. *)
Lemma guarded_batches_invariant (chunks : list (list A)) (st : State) :
  ∃ st', try_catch (write_batches request announce chunks)
                   (fun error => console_error (MsgCaught error)) st = (Ok tt, st') ∧
         only_writes_added st st'.
Proof.
  pose proof (write_batches_invariant chunks st) as [H1 H2]. unfold try_catch.
  destruct (write_batches request announce chunks st) as [[[]|e| |] st1];
    cbn [fst snd] in *; try done.
  - by exists st1.
  - eexists. split; [reflexivity|].
    eapply only_writes_added_trans; [exact H1|].
    by apply only_writes_added_console.
Qed.

End writer_invariants.

Lemma silent_ret {A} (batch : list A) (st : State) :
  ∃ events, ret tt st = (Ok tt, add_events st events) ∧ network_requests events = [].
Proof. exists []. by rewrite add_events_nil. Qed.

Lemma silent_log (batch : list Star) (st : State) :
  ∃ events, console_log (MsgBatch batch) st = (Ok tt, add_events st events) ∧
            network_requests events = [].
Proof. by exists [EvConsoleLog (MsgBatch batch)]. Qed.

Lemma part001_createPages_unfold (size : nat) (svc : Services) (stars : list Star) :
  Part001Run.createPages_sized size svc stars
  = try_catch
      (write_batches
         (request_via svc Part001Run.mapper (fun _ p => EvNotionCreate p))
         (fun _ => ret tt) (chunk stars size))
      (fun error => console_error (MsgCaught error)).
Proof. reflexivity. Qed.

Lemma part001_updatePages_unfold (size : nat) (svc : Services)
    (pages : list PageToUpdate) :
  Part001Run.updatePages_sized size svc pages
  = try_catch
      (write_batches
         (request_via svc (fun page => Part001Run.mapper (upd_star page))
                      (fun page p => EvNotionUpdate (upd_pageId page) p))
         (fun _ => ret tt) (chunk pages size))
      (fun error => console_error (MsgCaught error)).
Proof. reflexivity. Qed.

(** X12: in the revisions that wrap the loop in [try]/[catch], the writer
    never fails.  Whatever the records, the batch size and the answers of
    the service (rejected calls, and in [Legacy] a mapper that throws),
    [createPages] and [updatePages] of [Legacy] and of [Part001] return
    normally, having added to the trace only write requests and console
    lines, counted one call per request, and left the identity index and
    the heap alone. *)
Theorem X12_guarded_writer_never_fails (svc : Services) (size : nat)
    (stars : list Star) (pages : list PageToUpdate) (st : State) :
  (∃ st', LegacyRun.createPages_sized size svc stars st = (Ok tt, st') ∧
          only_writes_added st st') ∧
  (∃ st', LegacyRun.updatePages_sized size svc pages st = (Ok tt, st') ∧
          only_writes_added st st') ∧
  (∃ st', Part001Run.createPages_sized size svc stars st = (Ok tt, st') ∧
          only_writes_added st st') ∧
  (∃ st', Part001Run.updatePages_sized size svc pages st = (Ok tt, st') ∧
          only_writes_added st st').
Proof.
  split; [|split; [|split]].
  - rewrite legacy_createPages_unfold.
    by apply guarded_batches_invariant; [|apply silent_ret].
  - rewrite legacy_updatePages_unfold.
    by apply guarded_batches_invariant; [|apply silent_ret].
  - rewrite part001_createPages_unfold.
    by apply guarded_batches_invariant; [|apply silent_ret].
  - rewrite part001_updatePages_unfold.
    by apply guarded_batches_invariant; [|apply silent_ret].
Qed.

(** X13: what the writer of [Current] keeps, whatever happens.  For every
    list of records, batch size, service and state, [createPages] and
    [updatePages] end by returning or by throwing (never by leaving the
    process), add to the trace only write requests and console lines,
    count one call per request, and leave the identity index and the heap
    alone. *)
Theorem X13_current_writer_invariants (svc : Services) (size : nat)
    (stars : list Star) (pages : list PageToUpdate) (st : State) :
  (only_writes_added st (CurrentRun.createPages_sized size svc stars st).2 ∧
   returns_or_throws (CurrentRun.createPages_sized size svc stars st).1) ∧
  (only_writes_added st (CurrentRun.updatePages_sized size svc pages st).2 ∧
   returns_or_throws (CurrentRun.updatePages_sized size svc pages st).1).
Proof.
  split.
  - rewrite current_createPages_unfold.
    by apply write_batches_invariant; [|apply silent_log].
  - rewrite current_updatePages_unfold.
    by apply write_batches_invariant; [|apply silent_ret].
Qed.

(** ** Writer: how far a rejected call lets it go *)

Lemma div_ceil_above (n size k : nat) : 0 < size -> size * k < n -> k < div_ceil n size.
Proof.
  intros Hs Hk. unfold div_ceil.
  apply (Nat.lt_le_trans _ (S k)); [lia|].
  apply Nat.div_le_lower_bound; lia.
Qed.

(** The [k]-th chunk is the [k]-th slice of [size] elements, and the chunks
    before it are what precedes that slice. *)
Lemma chunk_loop_lookup {A} (k : nat) :
  ∀ (fuel size : nat) (rest batch : list A),
    chunk_loop fuel size rest !! k = Some batch ->
    batch = take size (drop (size * k) rest) ∧
    concat (take k (chunk_loop fuel size rest)) = take (size * k) rest.
Proof.
  induction k as [|k IH]; intros fuel size rest batch Hk.
  - destruct fuel as [|fuel]; [by destruct rest|]. destruct rest as [|x rest]; [done|].
    cbn [chunk_loop] in *. cbn in Hk. injection Hk as <-.
    rewrite Nat.mul_0_r. by rewrite drop_0, take_0.
  - destruct fuel as [|fuel]; [by destruct rest|]. destruct rest as [|x rest]; [done|].
    set (l := x :: rest) in *.
    change (chunk_loop (S fuel) size l)
      with (take size l :: chunk_loop fuel size (drop size l)) in *.
    cbn [lookup list_lookup] in Hk. change (list_lookup k ?l0) with (l0 !! k) in Hk.
    destruct (IH _ _ _ _ Hk) as [-> Hcat].
    replace (size * S k) with (size + size * k) by lia. split.
    + by rewrite drop_drop.
    + cbn [take concat]. rewrite Hcat. apply take_take_drop.
Qed.

Lemma chunk_around {A} (array : list A) (size k : nat) :
  0 < size -> size * k < length array ->
  chunk array size
  = take k (chunk array size)
    ++ take size (drop (size * k) array) :: drop (S k) (chunk array size) ∧
  concat (take k (chunk array size)) = take (size * k) array.
Proof.
  intros Hs Hk. rewrite chunk_unfold by done.
  destruct (lookup_lt_is_Some_2 (chunk_loop (length array) size array) k)
    as [batch Hbatch].
  { rewrite chunk_loop_length by done. by apply div_ceil_above. }
  destruct (chunk_loop_lookup k _ _ _ _ Hbatch) as [-> Hcat].
  split; [|done]. symmetry. by apply take_drop_middle.
Qed.

Section first_rejected_call.

Context (svc : Services) {A : Type}.
Context (mapper : A -> Completion (gmap string Property)).
Context (event : A -> gmap string Property -> Event).
Context (props : A -> gmap string Property).
Context (announce : list A -> M unit).

Hypothesis event_is_write : ∀ x p, is_write (event x p) = true.
Hypothesis mapper_total : ∀ x, mapper x = Normal (props x).
Hypothesis announce_quiet :
  ∀ batch st, ∃ events,
    announce batch st = (Ok tt, add_events st events) ∧ writes events = [] ∧
    completed_batches events = [].

(** When the call for operation number [p] is the first to be rejected, the
    loop sends the operations up to the end of the batch of [p] and throws. *)
Lemma write_batches_first_rejected (operations : list A) (size p : nat) (st : State) :
  0 < size -> p < length operations ->
  write_rejects svc (calls st + p) = true ->
  (∀ q, q < p -> write_rejects svc (calls st + q) = false) ->
  ∃ n st', write_batches (request_via svc mapper event) announce
             (chunk operations size) st
           = (Thrown (APIResponseError n), st') ∧
           writes (trace st')
           = writes (trace st)
             ++ map (fun x => event x (props x))
                    (take (size * (p / size + 1)) operations).
Proof.
  intros Hs Hp Hrej Hok.
  pose proof (Nat.Div0.mul_div_le p size) as Hlow.
  pose proof (Nat.mul_succ_div_gt p size ltac:(lia)) as Hhigh.
  set (k := p / size) in *.
  destruct (chunk_around operations size k Hs ltac:(lia)) as [Hsplit Hcat].
  rewrite Hsplit.
  assert (Hlen : length (concat (take k (chunk operations size))) = size * k).
  { rewrite Hcat, length_take. lia. }
  destruct (write_batches_stop svc mapper event props announce event_is_write
              announce_quiet (take k (chunk operations size))
              (drop (S k) (chunk operations size))
              (take size (drop (size * k) operations)) st)
    as (n & st' & Hrun & _ & Hw).
  - intros x _. apply mapper_total.
  - intros n Hn. rewrite Hlen in Hn.
    replace n with (calls st + (n - calls st)) by lia. apply Hok. lia.
  - exists (calls st + p). rewrite Hlen, length_take, length_drop. split; [lia|done].
  - exists n, st'. split; [done|]. rewrite Hw, Hcat, take_take_drop.
    by replace (size * (k + 1)) with (size * k + size) by lia.
Qed.

End first_rejected_call.

(** X14: how much is written when a call is rejected.  With batch size
    [size > 0], if the call for record number [p] (counted from 0) is the
    first that the service rejects, [createPages] has sent a create request
    for exactly the first [size * (p / size + 1)] records (all of them if
    there are fewer): the batch of [p] is completed, nothing after it is
    sent.  [Current] then throws; [Part001] prints the error and returns. *)
Theorem X14_first_rejected_call (svc : Services) (size p : nat) (stars : list Star)
    (st : State) :
  size > 0 -> p < length stars ->
  write_rejects svc (calls st + p) = true ->
  (∀ q, q < p -> write_rejects svc (calls st + q) = false) ->
  (∃ n st', CurrentRun.createPages_sized size svc stars st
            = (Thrown (APIResponseError n), st') ∧
            writes (trace st')
            = writes (trace st)
              ++ map (fun s => EvNotionCreate (Current.getPropertiesFromStar s))
                     (take (size * (p / size + 1)) stars)) ∧
  (∃ n st', Part001Run.createPages_sized size svc stars st = (Ok tt, st') ∧
            last (trace st') = Some (EvConsoleError (MsgCaught (APIResponseError n))) ∧
            writes (trace st')
            = writes (trace st)
              ++ map (fun s => EvNotionCreate (Part001.getPropertiesFromStar s))
                     (take (size * (p / size + 1)) stars)).
Proof.
  intros Hs Hp Hrej Hok. split.
  - rewrite current_createPages_unfold.
    by apply (write_batches_first_rejected svc CurrentRun.mapper
                (fun _ p => EvNotionCreate p) Current.getPropertiesFromStar
                (fun batch => console_log (MsgBatch batch))
                (fun _ _ => eq_refl) (fun _ => eq_refl) quiet_log).
  - rewrite part001_createPages_unfold.
    destruct (write_batches_first_rejected svc Part001Run.mapper
                (fun _ p => EvNotionCreate p) Part001.getPropertiesFromStar
                (fun _ => ret tt)
                (fun _ _ => eq_refl) (fun _ => eq_refl) quiet_ret
                stars size p st Hs Hp Hrej Hok) as (n & st1 & Hrun & Hw).
    exists n. eexists. unfold try_catch. rewrite Hrun.
    split; [reflexivity|]. cbn [trace]. split; [apply last_snoc|].
    rewrite writes_app, Hw. cbn. by rewrite app_nil_r.
Qed.

Lemma X14_first_rejected_call_witness :
  ∃ n st', CurrentRun.createPages (rejecting_only 13) (replicate 25 star_99) initial_state
           = (Thrown (APIResponseError n), st') ∧
           length (writes (trace st')) = 20.
Proof.
  destruct (X14_first_rejected_call (rejecting_only 13) 10 13 (replicate 25 star_99)
              initial_state)
    as [(n & st' & Hrun & Hw) _].
  - lia.
  - cbn. lia.
  - reflexivity.
  - intros q Hq. cbn. apply Nat.eqb_neq. lia.
  - exists n, st'. split; [exact Hrun|]. rewrite Hw. reflexivity.
Defined.

(** ** Whole runs *)

Lemma bind_ok {A B} (m : M A) (k : A -> M B) (st st' : State) (a : A) :
  m st = (Ok a, st') -> bind m k st = k a st'.
Proof. intros H. unfold bind. by rewrite H. Qed.

Lemma network_requests_query_events (page_size : nat) (cursor : option string)
    (responses : list QueryResponse) :
  network_requests (query_events page_size cursor responses)
  = query_events page_size cursor responses.
Proof.
  revert cursor. induction responses as [|r rest IH]; intros cursor; [done|].
  cbn [query_events]. unfold network_requests in *.
  rewrite filter_cons_True by done. by rewrite IH.
Qed.

Lemma starred_requests (per_page start n : nat) :
  network_requests (map (EvGitHubListStarred per_page) (seq start n))
  = map (EvGitHubListStarred per_page) (seq start n) ∧
  writes (map (EvGitHubListStarred per_page) (seq start n)) = [].
Proof.
  revert start. induction n as [|n IH]; intros start; [done|].
  cbn [seq map]. unfold network_requests, writes in *.
  rewrite filter_cons_True, filter_cons_False by done.
  destruct (IH (S start)) as [-> ->]. done.
Qed.

Lemma network_requests_starred_events (n : nat) :
  network_requests (starred_events n) = starred_events n.
Proof. apply starred_requests. Qed.

Lemma writes_query_events (page_size : nat) (cursor : option string)
    (responses : list QueryResponse) :
  writes (query_events page_size cursor responses) = [].
Proof.
  revert cursor. induction responses as [|r rest IH]; intros cursor; [done|].
  cbn [query_events]. unfold writes in *.
  rewrite filter_cons_False by done. by rewrite IH.
Qed.

Lemma writes_starred_events (n : nat) : writes (starred_events n) = [].
Proof. apply starred_requests. Qed.

Lemma concat_chunk {A} (array : list A) (size : nat) :
  0 < size -> concat (chunk array size) = array.
Proof. intros Hs. rewrite chunk_unfold by done. by apply chunk_loop_concat. Qed.

Section all_fulfilled.

Context (svc : Services) {A : Type}.
Context (mapper : A -> Completion (gmap string Property)).
Context (event : A -> gmap string Property -> Event).
Context (props : A -> gmap string Property).
Context (announce : list A -> M unit).

Hypothesis event_is_write : ∀ x p, is_write (event x p) = true.
Hypothesis mapper_total : ∀ x, mapper x = Normal (props x).
Hypothesis announce_quiet :
  ∀ batch st, ∃ events,
    announce batch st = (Ok tt, add_events st events) ∧ writes events = [] ∧
    completed_batches events = [].
Hypothesis announce_silent :
  ∀ batch st, ∃ events,
    announce batch st = (Ok tt, add_events st events) ∧ network_requests events = [].

(** Without a rejected call the loop returns, and the requests it added
    are one write per operation, in order. *)
Lemma write_batches_all_requests (chunks : list (list A)) (st : State) :
  (∀ n, calls st <= n < calls st + length (concat chunks) ->
        write_rejects svc n = false) ->
  ∃ events,
    write_batches (request_via svc mapper event) announce chunks st
    = (Ok tt, advance st events) ∧
    network_requests events = map (fun x => event x (props x)) (concat chunks) ∧
    writes events = map (fun x => event x (props x)) (concat chunks).
Proof.
  intros Hok.
  destruct (write_batches_all svc mapper event props announce event_is_write
              announce_quiet chunks st) as (st' & Hrun & Hw & _);
    [intros x _; apply mapper_total|done|].
  pose proof (write_batches_invariant svc mapper event announce event_is_write
                announce_silent chunks st) as [(events & Hst & Hnet) _].
  rewrite Hrun in Hst. cbn [snd] in Hst. subst st'.
  exists events. split; [done|].
  cbn [advance trace] in Hw. rewrite writes_app in Hw.
  apply app_inv_head in Hw. by rewrite Hnet.
Qed.

End all_fulfilled.

Lemma reader_run (svc : Services) (fuel page_size : nat) (key : string)
    (responses : list QueryResponse) (st : State) :
  follows svc None responses ->
  length responses <= fuel ->
  (∀ page, page ∈ fetched_pages responses -> is_Some (page_numbers page !! key)) ->
  ∃ currentStars,
    Forall2 (read_as key) (fetched_pages responses) currentStars ∧
    setInitialGitHubToNotionIdMap svc fuel page_size key st
    = (Ok tt,
       {| trace := trace st ++ query_events page_size None responses
                   ++ [EvConsoleLog (MsgFetchedFromNotion
                                       (length (fetched_pages responses)))];
          idMap := setInitialGitHubToNotionIdMap_loop currentStars (idMap st);
          calls := calls st; heap := heap st |}).
Proof.
  intros Hf Hfuel Hkeys.
  unfold setInitialGitHubToNotionIdMap, getStarsFromNotionDatabase.
  unfold bind at 1. unfold bind at 1.
  rewrite (query_loop_follows svc responses fuel page_size None [] st Hf Hfuel).
  cbn [app]. unfold bind at 1, console_log, emit.
  match goal with
  | |- context [mapM ?f ?l ?s] =>
      destruct (read_pages_ok key l s Hkeys) as (currentStars & Hrun & Hall)
  end.
  exists currentStars. split; [done|]. rewrite Hrun.
  unfold add_events. cbn [trace idMap calls heap]. by rewrite <- app_assoc.
Qed.

Lemma requests_log (m : LogMessage) (t : list Event) :
  network_requests (EvConsoleLog m :: t) = network_requests t ∧
  writes (EvConsoleLog m :: t) = writes t.
Proof. unfold network_requests, writes. by rewrite !filter_cons_False. Qed.

Lemma add_events_add_events (st : State) (events1 events2 : list Event) :
  add_events (add_events st events1) events2 = add_events st (events1 ++ events2).
Proof. unfold add_events. cbn. by rewrite <- app_assoc. Qed.

(** [syncNotionDatabaseWithGitHub] up to the call of [createPages]. *)
Lemma sync_until_create (svc : Services) (createPages : list Star -> M unit)
    (updatePages : list PageToUpdate -> M unit) (st : State) :
  github_accepts svc ->
  syncNotionDatabaseWithGitHub svc createPages updatePages st
  = (createPages (pagesToCreate (getNotionOperations (idMap st)
                                   (starred_repositories svc))) ;;;
     console_log (MsgToUpdate
                    (length (pagesToUpdate (getNotionOperations (idMap st)
                                              (starred_repositories svc))))) ;;;
     updatePages (pagesToUpdate (getNotionOperations (idMap st)
                                   (starred_repositories svc))) ;;;
     console_log MsgSynced) (before_create svc st).
Proof.
  intros Hgithub. unfold syncNotionDatabaseWithGitHub.
  erewrite bind_ok by reflexivity.
  erewrite bind_ok by (by apply github_reader_ok).
  fold (starred_repositories svc).
  erewrite bind_ok by reflexivity.
  erewrite bind_ok by reflexivity.
  cbv zeta. cbn [idMap add_events].
  erewrite bind_ok by reflexivity.
  f_equal. unfold before_create, add_events. cbn [trace idMap calls heap].
  by rewrite <- !app_assoc.
Qed.

(** When both phases return, so does the run, after the success line. *)
Lemma sync_returns (svc : Services) (createPages : list Star -> M unit)
    (updatePages : list PageToUpdate -> M unit) (st st_b st_c : State) :
  github_accepts svc ->
  createPages (pagesToCreate (getNotionOperations (idMap st) (starred_repositories svc)))
    (before_create svc st) = (Ok tt, st_b) ->
  updatePages (pagesToUpdate (getNotionOperations (idMap st) (starred_repositories svc)))
    (add_events st_b
       [EvConsoleLog (MsgToUpdate
                        (length (pagesToUpdate
                                   (getNotionOperations (idMap st)
                                      (starred_repositories svc)))))])
  = (Ok tt, st_c) ->
  syncNotionDatabaseWithGitHub svc createPages updatePages st
  = (Ok tt, add_events st_c [EvConsoleLog MsgSynced]).
Proof.
  intros Hgithub Hcreate Hupdate. rewrite sync_until_create by done.
  erewrite bind_ok by exact Hcreate.
  erewrite bind_ok by reflexivity.
  erewrite bind_ok by exact Hupdate.
  reflexivity.
Qed.

(** When [createPages] throws, the run ends there. *)
Lemma sync_create_throws (svc : Services) (createPages : list Star -> M unit)
    (updatePages : list PageToUpdate -> M unit) (st st_b : State) (e : Error) :
  github_accepts svc ->
  createPages (pagesToCreate (getNotionOperations (idMap st) (starred_repositories svc)))
    (before_create svc st) = (Thrown e, st_b) ->
  syncNotionDatabaseWithGitHub svc createPages updatePages st = (Thrown e, st_b).
Proof.
  intros Hgithub Hcreate. rewrite sync_until_create by done.
  unfold bind at 1. by rewrite Hcreate.
Qed.

(** When a request for a page of stars is rejected, the run ends there. *)
Lemma sync_github_rejected (svc : Services) (createPages : list Star -> M unit)
    (updatePages : list PageToUpdate -> M unit) (st : State) (k : nat) :
  k < length (github_starred_pages svc) ->
  github_rejects svc k = true ->
  (∀ q, q < k -> github_rejects svc q = false) ->
  syncNotionDatabaseWithGitHub svc createPages updatePages st
  = (Thrown (RequestError k),
     add_events st (EvConsoleLog MsgFetching :: starred_events (S k))).
Proof.
  intros Hk Hrej Hok. unfold syncNotionDatabaseWithGitHub.
  erewrite bind_ok by reflexivity.
  unfold bind at 1. rewrite (github_reader_rejected svc _ k) by done.
  unfold add_events, starred_events. cbn [trace idMap calls heap].
  by rewrite <- app_assoc.
Qed.

(** X15: a run of [Current] in which nothing fails.  With a complete
    environment, a cursor chain that ends, pages that all have ["Star ID"],
    a GitHub that answers every request for a page of stars and a service
    that accepts the writes, [main] returns normally; the
    identity index is the one built from the pairs read; the network
    traffic is, in this order, the queries of the chain, one GitHub request
    per page of stars, a create request for every star whose id the index
    does not know and then an update request for every other star, on its
    page: one write per starred repository; the last line printed is the
    success message. *)
Theorem X15_current_run_without_failure (env : gmap string string) (svc : Services)
    (fuel : nat) (responses : list QueryResponse) :
  CurrentRun.required_environment env = true ->
  follows svc None responses ->
  length responses <= fuel ->
  (∀ page, page ∈ fetched_pages responses ->
           is_Some (page_numbers page !! "Star ID")) ->
  github_accepts svc ->
  (∀ n, n < length (starred_repositories svc) -> write_rejects svc n = false) ->
  ∃ currentStars st',
    Forall2 (read_as "Star ID") (fetched_pages responses) currentStars ∧
    CurrentRun.main env svc fuel initial_state = (Ok tt, st') ∧
    idMap st' = identityIndex currentStars ∧
    network_requests (trace st')
    = query_events 10 None responses
      ++ starred_events (length (github_starred_pages svc))
      ++ current_write_requests
           (getNotionOperations (identityIndex currentStars) (starred_repositories svc)) ∧
    length (writes (trace st')) = length (starred_repositories svc) ∧
    last (trace st') = Some (EvConsoleLog MsgSynced).
Proof.
  intros Henv Hf Hfuel Hkeys Hgithub Hok.
  destruct (reader_run svc fuel 10 "Star ID" responses initial_state Hf Hfuel Hkeys)
    as (currentStars & Hread & Hinit).
  cbn [initial_state trace idMap calls heap app] in Hinit.
  fold (identityIndex currentStars) in Hinit.
  exists currentStars.
  set (st1 := {| trace := query_events 10 None responses
                          ++ [EvConsoleLog (MsgFetchedFromNotion
                                              (length (fetched_pages responses)))];
                 idMap := identityIndex currentStars; calls := 0; heap := ∅ |}) in *.
  set (stars := starred_repositories svc) in *.
  set (ops := getNotionOperations (identityIndex currentStars) stars).
  assert (Hlen : length (pagesToCreate ops) + length (pagesToUpdate ops) = length stars).
  { pose proof (operations_permutation (identityIndex currentStars) stars) as Hperm.
    destruct (getNotionOperations_spec (identityIndex currentStars) stars) as [Hc Hu].
    apply Permutation_length in Hperm.
    rewrite length_app, length_map, <- Hc, <- Hu in Hperm. by fold ops in Hperm. }
  assert (Hsize : 0 < Current.OPERATION_BATCH_SIZE)
    by (unfold Current.OPERATION_BATCH_SIZE; lia).
  destruct (write_batches_all_requests svc CurrentRun.mapper
              (fun _ p => EvNotionCreate p) Current.getPropertiesFromStar
              (fun batch => console_log (MsgBatch batch))
              (fun _ _ => eq_refl) (fun _ => eq_refl) quiet_log silent_log
              (chunk (pagesToCreate ops) Current.OPERATION_BATCH_SIZE)
              (before_create svc st1))
    as (created & Hcreate & Hcnet & Hcw).
  { rewrite concat_chunk by done. cbn [calls before_create add_events st1].
    intros n Hn. apply Hok. lia. }
  rewrite concat_chunk in Hcnet, Hcw by done.
  destruct (write_batches_all_requests svc
              (fun page => CurrentRun.mapper (upd_star page))
              (fun page p => EvNotionUpdate (upd_pageId page) p)
              (fun page => Current.getPropertiesFromStar (upd_star page))
              (fun _ => ret tt)
              (fun _ _ => eq_refl) (fun _ => eq_refl) quiet_ret silent_ret
              (chunk (pagesToUpdate ops) Current.OPERATION_BATCH_SIZE)
              (add_events (advance (before_create svc st1) created)
                 [EvConsoleLog (MsgToUpdate (length (pagesToUpdate ops)))]))
    as (updated & Hupdate & Hunet & Huw).
  { rewrite concat_chunk by done.
    cbn [calls advance before_create add_events st1]. rewrite Hcw, length_map.
    intros n Hn. apply Hok. lia. }
  rewrite concat_chunk in Hunet, Huw by done.
  eexists. split; [done|]. split.
  - unfold CurrentRun.main. rewrite Henv. cbn [negb].
    erewrite bind_ok by reflexivity.
    erewrite bind_ok by exact Hinit.
    apply (sync_returns svc (CurrentRun.createPages svc) (CurrentRun.updatePages svc)
             st1 _ _ Hgithub Hcreate Hupdate).
  - cbn [trace idMap advance add_events before_create st1].
    split; [done|]. split; [|split].
    + rewrite !network_requests_app, network_requests_query_events,
        network_requests_starred_events, Hcnet, Hunet.
      rewrite !(proj1 (requests_log _ _)).
      change (network_requests []) with (@nil Event).
      unfold current_write_requests. cbn [app]. by rewrite !app_nil_r, <- !app_assoc.
    + rewrite !writes_app, writes_query_events, writes_starred_events, Hcw, Huw.
      rewrite !(proj2 (requests_log _ _)).
      change (writes []) with (@nil Event).
      cbn [app]. rewrite !app_nil_r, length_app, !length_map. exact Hlen.
    + apply last_snoc.
Qed.

Lemma X15_current_run_without_failure_witness :
  ∃ st', CurrentRun.main env_complete scenario_accepting 1 initial_state = (Ok tt, st') ∧
         length (writes (trace st')) = 2 ∧
         last (trace st') = Some (EvConsoleLog MsgSynced).
Proof.
  destruct (X15_current_run_without_failure env_complete scenario_accepting 1
              [notion_databases_query scenario_accepting None])
    as (currentStars & st' & _ & Hrun & _ & _ & Hwrites & Hlast).
  - reflexivity.
  - cbn. split; reflexivity.
  - cbn. lia.
  - intros page Hin. unfold fetched_pages in Hin. cbn in Hin.
    apply list_elem_of_singleton in Hin as ->. cbn. eauto.
  - intros n Hn. reflexivity.
  - reflexivity.
  - exists st'. split; [exact Hrun|]. split; [exact Hwrites|exact Hlast].
Defined.

(** X16: once both snapshots are read, a run of [Legacy] announces success
    whatever the writes did.  When the cursor chain ends, every page has
    ["Repository ID"] and GitHub answers every request for a page of stars,
    [main] of [Legacy] returns normally and the last line it prints is the
    success message, for every pattern of rejected write calls and even when
    the mapper throws; the identity index is the one built from the pairs
    read.  A rejected GitHub request is not caught: it ends the run, see
    [sync_github_rejected]. *)
Theorem X16_legacy_success_whatever_the_writes (svc : Services) (fuel : nat)
    (responses : list QueryResponse) :
  follows svc None responses ->
  length responses <= fuel ->
  (∀ page, page ∈ fetched_pages responses ->
           is_Some (page_numbers page !! "Repository ID")) ->
  github_accepts svc ->
  ∃ currentStars st',
    Forall2 (read_as "Repository ID") (fetched_pages responses) currentStars ∧
    LegacyRun.main svc fuel initial_state = (Ok tt, st') ∧
    idMap st' = identityIndex currentStars ∧
    last (trace st') = Some (EvConsoleLog MsgSynced).
Proof.
  intros Hf Hfuel Hkeys Hgithub.
  destruct (reader_run svc fuel 25 "Repository ID" responses initial_state
              Hf Hfuel Hkeys) as (currentStars & Hread & Hinit).
  cbn [initial_state trace idMap calls heap app] in Hinit.
  fold (identityIndex currentStars) in Hinit.
  exists currentStars.
  set (st1 := {| trace := query_events 25 None responses
                          ++ [EvConsoleLog (MsgFetchedFromNotion
                                              (length (fetched_pages responses)))];
                 idMap := identityIndex currentStars; calls := 0; heap := ∅ |}) in *.
  set (ops := getNotionOperations (idMap st1) (starred_repositories svc)).
  destruct (guarded_batches_invariant svc Legacy.getPropertiesFromStar
              (fun _ p => EvNotionCreate p) (fun _ => ret tt)
              (fun _ _ => eq_refl) silent_ret
              (chunk (pagesToCreate ops) Legacy.OPERATION_BATCH_SIZE)
              (before_create svc st1))
    as (st_b & Hcreate & (created & -> & _)).
  destruct (guarded_batches_invariant svc
              (fun page => Legacy.getPropertiesFromStar (upd_star page))
              (fun page p => EvNotionUpdate (upd_pageId page) p) (fun _ => ret tt)
              (fun _ _ => eq_refl) silent_ret
              (chunk (pagesToUpdate ops) Legacy.OPERATION_BATCH_SIZE)
              (add_events (advance (before_create svc st1) created)
                 [EvConsoleLog (MsgToUpdate (length (pagesToUpdate ops)))]))
    as (st_c & Hupdate & (updated & -> & _)).
  eexists. split; [done|]. split.
  - unfold LegacyRun.main. erewrite bind_ok by exact Hinit.
    apply (sync_returns svc (LegacyRun.createPages svc) (LegacyRun.updatePages svc)
             st1 _ _ Hgithub Hcreate Hupdate).
  - cbn [trace idMap advance add_events before_create st1].
    split; [done|]. apply last_snoc.
Qed.

Lemma X16_legacy_success_whatever_the_writes_witness :
  ∃ st', LegacyRun.main scenario 1 initial_state = (Ok tt, st') ∧
         write_rejects scenario 0 = true ∧
         last (trace st') = Some (EvConsoleLog MsgSynced).
Proof.
  destruct (X16_legacy_success_whatever_the_writes scenario 1
              [notion_databases_query scenario None])
    as (currentStars & st' & _ & Hrun & _ & Hlast).
  - cbn. split; reflexivity.
  - cbn. lia.
  - intros page Hin. unfold fetched_pages in Hin. cbn in Hin.
    apply list_elem_of_singleton in Hin as ->. cbn. eauto.
  - intros n Hn. reflexivity.
  - exists st'. split; [exact Hrun|]. split; [reflexivity|exact Hlast].
Defined.

(** X17: in [Current] a rejected create ends the run before any update.
    With a complete environment and both snapshots read, if the call for the
    [p]-th record to create is the first that the service rejects, [main]
    ends with the exception; the writes sent are the create requests of the
    first [10 * (p / 10 + 1)] records to create and nothing else: no update
    request is sent. *)
Theorem X17_current_rejected_create_skips_updates (env : gmap string string)
    (svc : Services) (fuel p : nat) (responses : list QueryResponse) :
  CurrentRun.required_environment env = true ->
  follows svc None responses ->
  length responses <= fuel ->
  (∀ page, page ∈ fetched_pages responses ->
           is_Some (page_numbers page !! "Star ID")) ->
  github_accepts svc ->
  write_rejects svc p = true ->
  (∀ q, q < p -> write_rejects svc q = false) ->
  ∃ currentStars,
    Forall2 (read_as "Star ID") (fetched_pages responses) currentStars ∧
    (p < length (pagesToCreate (getNotionOperations (identityIndex currentStars)
                                  (starred_repositories svc))) ->
     ∃ n st',
       CurrentRun.main env svc fuel initial_state = (Thrown (APIResponseError n), st') ∧
       writes (trace st')
       = map (fun s => EvNotionCreate (Current.getPropertiesFromStar s))
             (take (10 * (p / 10 + 1))
                   (pagesToCreate (getNotionOperations (identityIndex currentStars)
                                     (starred_repositories svc))))).
Proof.
  intros Henv Hf Hfuel Hkeys Hgithub Hrej Hok.
  destruct (reader_run svc fuel 10 "Star ID" responses initial_state Hf Hfuel Hkeys)
    as (currentStars & Hread & Hinit).
  cbn [initial_state trace idMap calls heap app] in Hinit.
  fold (identityIndex currentStars) in Hinit.
  exists currentStars.
  set (st1 := {| trace := query_events 10 None responses
                          ++ [EvConsoleLog (MsgFetchedFromNotion
                                              (length (fetched_pages responses)))];
                 idMap := identityIndex currentStars; calls := 0; heap := ∅ |}) in *.
  set (ops := getNotionOperations (identityIndex currentStars) (starred_repositories svc)).
  split; [done|]. intros Hp.
  destruct (write_batches_first_rejected svc CurrentRun.mapper
              (fun _ p => EvNotionCreate p) Current.getPropertiesFromStar
              (fun batch => console_log (MsgBatch batch))
              (fun _ _ => eq_refl) (fun _ => eq_refl) quiet_log
              (pagesToCreate ops) Current.OPERATION_BATCH_SIZE p
              (before_create svc st1))
    as (n & st' & Hcreate & Hw); [unfold Current.OPERATION_BATCH_SIZE; lia|done|done|done|].
  exists n, st'. split.
  - unfold CurrentRun.main. rewrite Henv. cbn [negb].
    erewrite bind_ok by reflexivity.
    erewrite bind_ok by exact Hinit.
    apply (sync_create_throws svc (CurrentRun.createPages svc)
             (CurrentRun.updatePages svc) st1 _ _ Hgithub Hcreate).
  - rewrite Hw. cbn [trace before_create add_events st1].
    rewrite !writes_app, writes_query_events, writes_starred_events.
    rewrite !(proj2 (requests_log _ _)). change (writes []) with (@nil Event).
    by cbn [app].
Qed.

Lemma X17_current_rejected_create_skips_updates_witness :
  ∃ n st', CurrentRun.main env_complete scenario 1 initial_state
           = (Thrown (APIResponseError n), st') ∧
           writes (trace st') = [EvNotionCreate (Current.getPropertiesFromStar star_99)].
Proof.
  destruct (X17_current_rejected_create_skips_updates env_complete scenario 1 0
              [notion_databases_query scenario None])
    as (currentStars & Hread & Hrun).
  - reflexivity.
  - cbn. split; reflexivity.
  - cbn. lia.
  - intros page Hin. unfold fetched_pages in Hin. cbn in Hin.
    apply list_elem_of_singleton in Hin as ->. cbn. eauto.
  - intros n Hn. reflexivity.
  - reflexivity.
  - intros q Hq. lia.
  - assert (Hcs : currentStars = [ {| pageId := "p1"; starId := 42 |} ]).
    { unfold fetched_pages in Hread. cbn in Hread.
      apply Forall2_cons_inv_l in Hread as ([pid sid] & rest & [Hpid Hsid] & Hrest & ->).
      apply Forall2_nil_inv_l in Hrest as ->.
      cbn in Hpid, Hsid. subst pid. vm_compute in Hsid. by injection Hsid as <-. }
    subst currentStars. destruct Hrun as (n & st' & Hmain & Hw); [vm_compute; lia|].
    exists n, st'. split; [exact Hmain|]. rewrite Hw. reflexivity.
Defined.

(** X21: a rejected GitHub request ends the run.  No revision catches
    around [getGitHubStarsForUser]: when the request for page [k] of the
    starred list is the first that GitHub rejects,
    [syncNotionDatabaseWithGitHub] ends with that exception right after the
    request, whatever the writer is; and [main] of [Current], with a
    complete environment and the Notion snapshot read, ends with it too:
    the identity index is built, the network traffic is the queries of the
    chain and the [k + 1] GitHub requests, no write is sent, and the
    rejected request is the last thing the run did. *)
Theorem X21_rejected_github_request_ends_the_run (env : gmap string string)
    (svc : Services) (fuel k : nat) (responses : list QueryResponse)
    (createPages : list Star -> M unit) (updatePages : list PageToUpdate -> M unit)
    (st : State) :
  k < length (github_starred_pages svc) ->
  github_rejects svc k = true ->
  (∀ q, q < k -> github_rejects svc q = false) ->
  syncNotionDatabaseWithGitHub svc createPages updatePages st
  = (Thrown (RequestError k),
     add_events st (EvConsoleLog MsgFetching :: starred_events (S k))) ∧
  (CurrentRun.required_environment env = true ->
   follows svc None responses ->
   length responses <= fuel ->
   (∀ page, page ∈ fetched_pages responses ->
            is_Some (page_numbers page !! "Star ID")) ->
   ∃ currentStars st',
     Forall2 (read_as "Star ID") (fetched_pages responses) currentStars ∧
     CurrentRun.main env svc fuel initial_state = (Thrown (RequestError k), st') ∧
     idMap st' = identityIndex currentStars ∧
     network_requests (trace st')
     = query_events 10 None responses ++ starred_events (S k) ∧
     writes (trace st') = [] ∧
     last (trace st') = Some (EvGitHubListStarred 100 k)).
Proof.
  intros Hk Hrej Hok. split; [by apply sync_github_rejected|].
  intros Henv Hf Hfuel Hkeys.
  destruct (reader_run svc fuel 10 "Star ID" responses initial_state Hf Hfuel Hkeys)
    as (currentStars & Hread & Hinit).
  cbn [initial_state trace idMap calls heap app] in Hinit.
  fold (identityIndex currentStars) in Hinit.
  exists currentStars. eexists. split; [done|]. split.
  - unfold CurrentRun.main. rewrite Henv. cbn [negb].
    erewrite bind_ok by reflexivity.
    erewrite bind_ok by exact Hinit.
    by apply sync_github_rejected.
  - cbn [trace idMap add_events]. split; [done|]. split; [|split].
    + rewrite !network_requests_app, network_requests_query_events.
      rewrite !(proj1 (requests_log _ _)), network_requests_starred_events.
      change (network_requests []) with (@nil Event). by rewrite app_nil_r.
    + rewrite !writes_app, writes_query_events.
      rewrite !(proj2 (requests_log _ _)), writes_starred_events.
      by change (writes []) with (@nil Event).
    + unfold starred_events. rewrite seq_S, map_app. cbn [map Nat.add].
      change (?x :: ?l ++ [?y]) with ((x :: l) ++ [y]).
      rewrite app_assoc. apply last_snoc.
Qed.

Lemma X21_rejected_github_request_ends_the_run_witness :
  ∃ st', CurrentRun.main env_complete github_failing_second 3 initial_state
         = (Thrown (RequestError 1), st') ∧
         writes (trace st') = [] ∧
         last (trace st') = Some (EvGitHubListStarred 100 1).
Proof.
  destruct (proj2 (X21_rejected_github_request_ends_the_run env_complete
                     github_failing_second 3 1 paged_notion_responses
                     (fun _ => ret tt) (fun _ => ret tt) initial_state
                     ltac:(cbn; lia) eq_refl
                     ltac:(intros q Hq; destruct q; [reflexivity|lia])))
    as (currentStars & st' & _ & Hrun & _ & _ & Hwrites & Hlast).
  - reflexivity.
  - cbn. repeat split.
  - cbn. lia.
  - intros page Hin. unfold fetched_pages in Hin. cbn in Hin.
    rewrite !elem_of_cons, elem_of_nil in Hin.
    destruct Hin as [->|[->|[->|[]]]]; cbn; eauto.
  - exists st'. split; [exact Hrun|]. split; [exact Hwrites|exact Hlast].
Defined.

(** ** Leaving the process *)

Lemma never_exits_bind {A B} (m : M A) (k : A -> M B) :
  never_exits m -> (∀ a, never_exits (k a)) -> never_exits (bind m k).
Proof.
  intros Hm Hk st code. unfold bind. specialize (Hm st).
  destruct (m st) as [[a|e|c|] st1]; cbn in *; try done.
  - apply Hk.
  - by specialize (Hm c).
Qed.

Lemma never_exits_ok {A} (m : M A) :
  (∀ st, ∃ a st', m st = (Ok a, st')) -> never_exits m.
Proof. intros Hm st code. by destruct (Hm st) as (a & st' & ->). Qed.

Lemma never_exits_query_loop (svc : Services) (fuel page_size : nat)
    (cursor : option string) (pages : list NotionPage) :
  never_exits (query_loop svc fuel page_size cursor pages).
Proof.
  revert cursor pages. induction fuel as [|fuel IH]; intros cursor pages; [done|].
  cbn [query_loop]. apply never_exits_bind; [done|]. intros _. cbv zeta.
  destruct (negb _); [done|apply IH].
Qed.

Lemma never_exits_mapM {A B} (f : A -> M B) (l : list A) :
  (∀ x, never_exits (f x)) -> never_exits (mapM f l).
Proof.
  intros Hf. induction l as [|x l IH]; [done|].
  cbn [mapM]. apply never_exits_bind; [apply Hf|]. intros y.
  apply never_exits_bind; [apply IH|done].
Qed.

Lemma never_exits_setInitial (svc : Services) (fuel page_size : nat) (key : string) :
  never_exits (setInitialGitHubToNotionIdMap svc fuel page_size key).
Proof.
  unfold setInitialGitHubToNotionIdMap, getStarsFromNotionDatabase.
  apply never_exits_bind; [|done].
  apply never_exits_bind; [apply never_exits_query_loop|]. intros pages.
  apply never_exits_bind; [done|]. intros _.
  apply never_exits_mapM. intros page. by destruct (page_numbers page !! key).
Qed.

Lemma never_exits_returns_or_throws {A} (m : M A) :
  (∀ st, returns_or_throws (m st).1) -> never_exits m.
Proof. intros Hm st code Heq. specialize (Hm st). by rewrite Heq in Hm. Qed.

Lemma never_exits_starred_loop (svc : Services) (pages : list (list Starred)) :
  ∀ (page : nat) (stars : list Star), never_exits (starred_loop svc page pages stars).
Proof.
  induction pages as [|data pages IH]; intros page stars; [done|].
  cbn [starred_loop]. apply never_exits_bind; [done|]. intros _.
  apply never_exits_bind; [by destruct (github_rejects svc page)|]. intros _.
  apply IH.
Qed.

Lemma never_exits_sync (svc : Services) (createPages : list Star -> M unit)
    (updatePages : list PageToUpdate -> M unit) :
  (∀ stars, never_exits (createPages stars)) ->
  (∀ pages, never_exits (updatePages pages)) ->
  never_exits (syncNotionDatabaseWithGitHub svc createPages updatePages).
Proof.
  intros Hc Hu. unfold syncNotionDatabaseWithGitHub.
  apply never_exits_bind; [done|]. intros _.
  apply never_exits_bind.
  { apply never_exits_starred_loop. }
  intros stars. apply never_exits_bind; [done|]. intros _.
  apply never_exits_bind; [done|]. intros index. cbv zeta.
  apply never_exits_bind; [done|]. intros _.
  apply never_exits_bind; [apply Hc|]. intros _.
  apply never_exits_bind; [done|]. intros _.
  apply never_exits_bind; [apply Hu|done].
Qed.

Lemma required_environment_true (env : gmap string string) :
  CurrentRun.required_environment env = true
  <-> ∀ key, key ∈ required_keys -> ∃ value, env !! key = Some value ∧ value ≠ "".
Proof.
  unfold CurrentRun.required_environment, required_keys.
  rewrite !andb_true_iff. split.
  - intros [[[H1 H2] H3] H4] key Hkey.
    rewrite !elem_of_cons, elem_of_nil in Hkey.
    assert (Htruthy : Js.truthy (env !! key) = true) by naive_solver.
    unfold Js.truthy, Js.truthy_string in Htruthy.
    destruct (env !! key) as [value|]; [|done].
    exists value. split; [done|]. by apply bool_decide_eq_true in Htruthy.
  - intros Hall.
    assert (Htruthy : ∀ key, key ∈ ["GH_STARS_USER"; "GH_USER_TOKEN"; "NOTION_KEY";
                                     "NOTION_DATABASE_ID"] ->
                             Js.truthy (env !! key) = true).
    { intros key (value & -> & Hne)%Hall. by apply bool_decide_eq_true. }
    repeat split; apply Htruthy; set_solver.
Qed.

(** X18: when [Current] leaves the process.  [main] ends by
    [process.exit] exactly when one of the four required values is absent
    or is the empty string; it then exits with status 1 after printing the
    error, and nothing else has happened.  With four non-empty values the
    run never calls [process.exit], however it ends. *)
Theorem X18_exit_only_at_validation (env : gmap string string) (svc : Services)
    (fuel : nat) (st : State) :
  ((∃ key, key ∈ required_keys ∧ (env !! key = None ∨ env !! key = Some "")) ->
   CurrentRun.main env svc fuel st
   = (Exited 1, add_events st [EvConsoleError MsgMissingEnv])) ∧
  ((∀ key, key ∈ required_keys -> ∃ value, env !! key = Some value ∧ value ≠ "") ->
   ∀ code, (CurrentRun.main env svc fuel st).1 ≠ Exited code).
Proof.
  split.
  - intros (key & Hkey & Hbad).
    assert (Hfalse : CurrentRun.required_environment env = false).
    { destruct (CurrentRun.required_environment env) eqn:Henv; [|done].
      destruct (proj1 (required_environment_true env) Henv key Hkey)
        as (value & Hvalue & Hne).
      naive_solver. }
    unfold CurrentRun.main. by rewrite Hfalse.
  - intros Hall code. apply (proj2 (required_environment_true env)) in Hall.
    unfold CurrentRun.main. rewrite Hall. cbn [negb].
    apply never_exits_bind; [done|]. intros _.
    apply never_exits_bind; [apply never_exits_setInitial|]. intros _.
    apply never_exits_sync.
    + intros stars. apply never_exits_returns_or_throws. intros st0.
      unfold CurrentRun.createPages. rewrite current_createPages_unfold.
      by apply write_batches_invariant; [|apply silent_log].
    + intros pages. apply never_exits_returns_or_throws. intros st0.
      unfold CurrentRun.updatePages. rewrite current_updatePages_unfold.
      by apply write_batches_invariant; [|apply silent_ret].
Qed.

Lemma X18_exit_only_at_validation_witness :
  CurrentRun.main env_with_empty_notion_key rejecting_first 5 initial_state
  = (Exited 1, add_events initial_state [EvConsoleError MsgMissingEnv]) ∧
  ∀ code, (CurrentRun.main env_complete rejecting_first 5 initial_state).1 ≠ Exited code.
Proof.
  split.
  - apply (proj1 (X18_exit_only_at_validation env_with_empty_notion_key
                    rejecting_first 5 initial_state)).
    exists "NOTION_KEY". split; [|right; reflexivity].
    unfold required_keys. rewrite !elem_of_cons. right; right; left; reflexivity.
  - apply (proj2 (X18_exit_only_at_validation env_complete rejecting_first 5
                    initial_state)).
    intros key Hkey. unfold required_keys in Hkey.
    rewrite !elem_of_cons, elem_of_nil in Hkey.
    destruct Hkey as [->|[->|[->|[->|[]]]]]; eexists; (split; [reflexivity|done]).
Defined.

(** ** Pagination without an end, and the path of a field *)

(** X19: the pagination loop stops only when the service says so.  If every
    answer of the Notion service carries a truthy [next_cursor], the reader
    never returns: for every budget of turns [main] of [Current] spends it
    all on queries, one per turn, and gets neither to GitHub nor to a
    write. *)
Theorem X19_pagination_needs_an_end (env : gmap string string) (svc : Services)
    (fuel : nat) (st : State) :
  CurrentRun.required_environment env = true ->
  (∀ cursor, Js.truthy (next_cursor (notion_databases_query svc cursor)) = true) ->
  ∃ events,
    CurrentRun.main env svc fuel st = (OutOfFuel, add_events st events) ∧
    length events = fuel ∧
    (∀ e, e ∈ events -> ∃ cursor, e = EvNotionQuery 10 cursor).
Proof.
  intros Henv Hmore. unfold CurrentRun.main. rewrite Henv. cbn [negb].
  erewrite bind_ok by reflexivity.
  unfold setInitialGitHubToNotionIdMap, getStarsFromNotionDatabase, bind.
  assert (Hloop : ∀ fuel0 cursor pages st0, ∃ events,
             query_loop svc fuel0 10 cursor pages st0 = (OutOfFuel, add_events st0 events) ∧
             length events = fuel0 ∧
             ∀ e, e ∈ events -> ∃ c, e = EvNotionQuery 10 c).
  { clear -Hmore. induction fuel0 as [|fuel0 IH]; intros cursor pages st0.
    - exists []. rewrite add_events_nil. split; [done|]. split; [done|].
      intros e He. by apply elem_of_nil in He.
    - cbn [query_loop]. unfold bind at 1, emit at 1. cbv zeta. rewrite Hmore.
      cbn [negb].
      destruct (IH (next_cursor (notion_databases_query svc cursor))
                  (pages ++ results (notion_databases_query svc cursor))
                  {| trace := trace st0 ++ [EvNotionQuery 10 cursor];
                     idMap := idMap st0; calls := calls st0; heap := heap st0 |})
        as (events & -> & Hlen & Hall).
      exists (EvNotionQuery 10 cursor :: events). split; [|split].
      + unfold add_events. cbn [trace idMap calls heap]. by rewrite <- app_assoc.
      + cbn. by rewrite Hlen.
      + intros e [->|He]%elem_of_cons; [eauto|by apply Hall]. }
  destruct (Hloop fuel None [] st) as (events & -> & Hlen & Hall).
  by exists events.
Qed.

Lemma X19_pagination_needs_an_end_witness :
  ∃ events,
    CurrentRun.main env_complete endless_notion 7 initial_state
    = (OutOfFuel, add_events initial_state events) ∧
    length events = 7.
Proof.
  destruct (X19_pagination_needs_an_end env_complete endless_notion 7 initial_state)
    as (events & Hrun & Hlen & _).
  - reflexivity.
  - intros cursor. reflexivity.
  - by exists events.
Defined.

(** X20: from the GitHub item to the Notion property.  For every item of
    the starred list, the property set that [Current] sends has [Name] from
    [repo.full_name], [Star ID] from [repo.id], [URL] from [repo.html_url],
    [Starred] from [starred_at], [Created] from [repo.created_at], [Pushed]
    from [repo.pushed_at], and the four counters from
    [stargazers_count], [watchers_count], [size] and [forks_count];
    [Homepage] is [repo.homepage] and [Topics] are [repo.topics], when
    present. *)
Theorem X20_github_fields_to_notion (item : Starred) :
  let properties := Current.getPropertiesFromStar (star_of_starred item) in
  properties !! "Name" = Some (PTitle (VStr (repo_full_name (repo item)))) ∧
  properties !! "Star ID" = Some (PNumber (VNum (repo_id (repo item)))) ∧
  properties !! "URL" = Some (PUrl (VStr (repo_html_url (repo item)))) ∧
  properties !! "Starred" = Some (PDate (VStr (starred_at item))) ∧
  properties !! "Created" = Some (PDate (VStr (repo_created_at (repo item)))) ∧
  properties !! "Pushed" = Some (PDate (of_nullable (repo_pushed_at (repo item)))) ∧
  properties !! "Stargazers" = Some (PNumber (VNum (repo_stargazers_count (repo item)))) ∧
  properties !! "Watchers" = Some (PNumber (VNum (repo_watchers_count (repo item)))) ∧
  properties !! "Size (Kb)" = Some (PNumber (VNum (repo_size (repo item)))) ∧
  properties !! "Forks" = Some (PNumber (VNum (repo_forks_count (repo item)))) ∧
  properties !! "Homepage"
  = (if Js.truthy (repo_homepage (repo item))
     then Some (PUrl (of_nullable (repo_homepage (repo item)))) else None) ∧
  properties !! "Topics"
  = (fun topics => PMultiSelect (map VStr topics)) <$> repo_topics (repo item).
Proof.
  destruct item as [starred [id full_name html_url topics stargazers forks language
                              description pushed watchers created homepage size]].
  cbv zeta. unfold star_of_starred. cbn [repo starred_at repo_id repo_full_name
    repo_html_url repo_topics repo_stargazers_count repo_forks_count repo_language
    repo_description repo_pushed_at repo_watchers_count repo_created_at
    repo_homepage repo_size].
  unfold Current.getPropertiesFromStar, Current.item.
  cbn [star_id star_title star_url star_starred star_labels star_stargazers
       star_forks star_language star_description star_pushed star_watchers
       star_created star_homepage star_size].
  destruct homepage as [[|? ?]|], description as [[|? ?]|], language as [[|? ?]|],
    topics as [[|? ?]|]; repeat split; vm_compute; reflexivity.
Qed.
